(** * h2hbot: the WebSocket coordinator and the token verifier

    A shallow embedding of [src/workers/socket.ts] (the Durable Object
    [WebSocketConnection]: session registry, room membership index,
    broadcast endpoint, stale-connection sweep) and of [src/lib/jwt.ts]
    ([decode]) together with [verifyToken].

    Modelling decisions.
    - A JavaScript [Set<string>] is a list of strings in insertion order; a
      [Map<string, V>] is an association list in insertion order.  The loops
      of the source iterate these containers, and the sweep of
      [cleanupStaleConnections] stops at the first exception, so iteration
      order is part of the behaviour.
    - The session objects live in [activeConnections]; a reference to a
      session object is its key in that map, and a mutation of the object is
      an update of the map entry.
    - [async] methods are run to completion one after another (the Durable
      Object is a single actor).  An [await]ed call that rejects is a thrown
      exception; whatever was mutated before the throw stays mutated.
    - Apart from the parsing of a broadcast request, the only operation of
      the coordinator that can throw at run time is the write of the snapshot
      to durable storage.  Its outcomes are scripted in the state
      ([putFaults]), one entry per write; an exhausted script means success.
      The read of the snapshot in [initialize] is taken to resolve; what is
      stated about a coordinator that has not loaded its index yet holds
      for the runs in which that read resolves.
    - [saveState] copies the index into a plain object: the room id
      "__proto__" is no own property of it and is not stored ([assign]).
    - Each call of [Date.now()] is a reading of its own: [Date_now] is the
      one of [decode], and [verifyToken] is given its later reading.
    - JSON numbers are integers ([Z]); the code only tests them for zero,
      compares them and prints them (in decimal, as [String] does below
      1e21).  A JSON object is the list of its fields; its keys are distinct,
      as [JSON.parse] delivers them. *)

From Stdlib Require Import Ascii String ZArith.
From stdpp Require Import base option list strings pretty.

Set Default Proof Using "Type".
Set Warnings "-register-all".
Open Scope string_scope.

(** ** JavaScript containers *)

(** [Set<string>], insertion ordered. *)
Module JSSet.
Abbreviation t := (list string).

Definition has (x : string) (s : t) : bool := bool_decide (x ∈ s).

(* Set.prototype.add: appends when absent, keeps the position otherwise *)
Definition add (x : string) (s : t) : t := if has x s then s else s ++ [x].

(* Set.prototype.delete *)
Definition delete (x : string) (s : t) : t := filter (λ y, y ≠ x) s.

Definition size (s : t) : nat := length s.

(* new Set(iterable) *)
Definition of_list (l : list string) : t := foldl (λ s x, add x s) [] l.
End JSSet.

(** [Map<string, V>], insertion ordered. *)
Module JSMap.
Abbreviation t V := (list (string * V)).

Fixpoint get {V} (k : string) (m : t V) : option V :=
  match m with
  | [] => None
  | (k', v) :: m' => if decide (k = k') then Some v else get k m'
  end.

Definition has {V} (k : string) (m : t V) : bool :=
  match get k m with Some _ => true | None => false end.

(* Map.prototype.set: replaces in place, appends a new key at the end *)
Fixpoint set {V} (k : string) (v : V) (m : t V) : t V :=
  match m with
  | [] => [(k, v)]
  | (k', v') :: m' =>
      if decide (k = k') then (k, v) :: m' else (k', v') :: set k v m'
  end.

(* Map.prototype.delete *)
Definition delete {V} (k : string) (m : t V) : t V :=
  filter (λ p, p.1 ≠ k) m.

Definition keys {V} (m : t V) : list string := m.*1.

(* In-place mutation of the object stored under [k]: [m.get(k)?.mutate()] *)
Definition alter {V} (f : V → V) (k : string) (m : t V) : t V :=
  match get k m with
  | Some v => set k (f v) m
  | None => m
  end.
End JSMap.

(** ** Wire events ([src/lib/websocket/events.ts]) *)

Module WS_EVENTS.
Definition CONNECT := "connect".
Definition DISCONNECT := "disconnect".
Definition MESSAGE := "message".
Definition ROOM_JOIN := "room:join".
Definition ROOM_LEAVE := "room:leave".
Definition CHAT_MESSAGE := "chat:message".
Definition ERROR := "error".
Definition NOTIFICATIONS_READ := "notifications:read".
Definition POINTS_AWARDED := "points:awarded".
Definition NOTIFICATION_CREATED := "notification:created".
Definition NOTIFICATION_DELETED := "notification:deleted".
Definition NOTIFICATION_CLEARED := "notification:cleared".
End WS_EVENTS.

(** ** JSON values and the zod combinators used by the schemas *)

Inductive json :=
  | JNull
  | JBool (b : bool)
  | JNum (n : Z)
  | JStr (s : string)
  | JArr (items : list json)
  | JObj (fields : list (string * json)).

(* A [string | number] value, as [roomId] is typed in the source. *)
Inductive StrOrNum :=
  | Str (s : string)
  | Num (n : Z).

(* JavaScript truthiness of a [string | number | null] value. *)
Definition truthy (v : option StrOrNum) : bool :=
  match v with
  | None => false
  | Some (Str s) => negb (bool_decide (s = ""))
  | Some (Num n) => negb (bool_decide (n = 0%Z))
  end.

(* [String(x)] for a [string | number]: a number is an integer printed in
   decimal, as String does below 10^21 in absolute value ([prints_decimal]);
   from 10^21 on JavaScript prints the exponent form, which is not modelled. *)
Definition String_ (x : StrOrNum) : string :=
  match x with
  | Str s => s
  | Num n => pretty n
  end.


(* [String(x)] for a [string | number | null] *)
Definition String_or_null (x : option StrOrNum) : string :=
  match x with
  | Some v => String_ v
  | None => "null"
  end.

Module Zod.
(* A schema parses a value that may be [undefined] ([None]: the key is
   absent) into a typed result, or fails ([None]). *)
Definition Schema (A : Type) := option json → option A.

Definition string : Schema string := λ v,
  match v with Some (JStr s) => Some s | _ => None end.

Definition number : Schema Z := λ v,
  match v with Some (JNum n) => Some n | _ => None end.

Definition boolean : Schema bool := λ v,
  match v with Some (JBool b) => Some b | _ => None end.

(* z.date() accepts Date objects only; a JSON body holds none *)
Definition date : Schema Empty_set := λ _, None.

Definition nullable {A} (s : Schema A) : Schema (option A) := λ v,
  match v with
  | Some JNull => Some None
  | _ => Some <$> s v
  end.

Definition optional {A} (s : Schema A) : Schema (option A) := λ v,
  match v with
  | None => Some None
  | _ => Some <$> s v
  end.

(* a.or(b), z.union([a, b]): the first option that parses wins *)
Definition or {A B} (a : Schema A) (b : Schema B) : Schema (A + B) := λ v,
  match a v with
  | Some x => Some (inl x)
  | None => inr <$> b v
  end.

Definition enum (values : list String.string) : Schema String.string := λ v,
  match v with
  | Some (JStr s) => if bool_decide (s ∈ values) then Some s else None
  | _ => None
  end.

Definition array {A} (s : Schema A) : Schema (list A) := λ v,
  match v with
  | Some (JArr items) => mapM (λ x, s (Some x)) items
  | _ => None
  end.

(* z.record(z.unknown()) *)
Definition record_unknown : Schema (list (String.string * json)) := λ v,
  match v with Some (JObj fields) => Some fields | _ => None end.

(* z.object({...}) first requires an object, then parses each declared key
   of the shape from [data[key]]; undeclared keys are stripped. *)
Definition object : option json → option (list (String.string * json)) := λ v,
  match v with Some (JObj fields) => Some fields | _ => None end.

Definition key {A} (k : String.string) (s : Schema A)
    (fields : list (String.string * json)) : option A :=
  s (JSMap.get k fields).
End Zod.

(** ** The broadcast message schema ([BroadcastMessageSchema]) *)

Record ChatMessage := {
  cm_id : Z;
  conversation_id : Z;
  user_id : option Z;
  cm_content : string;
  is_ai : bool + Z;
  sender_name : option string;
  created_at : string;
  eligibility_status : string;
  eligibility_reasons : string + list string;
  heart_points_received : Z;
  heart_points_awarded_at : option string;
  heart_points_awarded_by : option Z
}.

Record ChatPayload := {
  roomId : StrOrNum;
  message : ChatMessage
}.

Record NotificationCreated := {
  nc_id : Z;
  nc_userId : Z;
  nc_type : string;
  title : string;
  nc_content : string;
  link : option (option string);
  isRead : bool;
  createdAt : string + Empty_set;
  metadata : list (string * json)
}.

Record NotificationDeleted := {
  notificationId : Z;
  chatId : option Z
}.

Record NotificationsCleared := {
  chatIds : list Z
}.

(* The inferred type of the payload union, one constructor per option. *)
Inductive Payload :=
  | PChat (p : ChatPayload)
  | PNotificationCreated (n : NotificationCreated)
  | PNotificationDeleted (d : NotificationDeleted)
  | PNotificationsCleared (c : NotificationsCleared).

Record BroadcastMessage := {
  type : string;
  payload : Payload
}.

Definition strOrNum (v : string + Z) : StrOrNum :=
  match v with inl s => Str s | inr n => Num n end.

Definition MessageSchema : Zod.Schema ChatMessage := λ v,
  o ← Zod.object v;
  id ← Zod.key "id" Zod.number o;
  conversation_id ← Zod.key "conversation_id" Zod.number o;
  user_id ← Zod.key "user_id" (Zod.nullable Zod.number) o;
  content ← Zod.key "content" Zod.string o;
  is_ai ← Zod.key "is_ai" (Zod.or Zod.boolean Zod.number) o;
  sender_name ← Zod.key "sender_name" (Zod.nullable Zod.string) o;
  created_at ← Zod.key "created_at" Zod.string o;
  eligibility_status ← Zod.key "eligibility_status"
    (Zod.enum ["pending"; "eligible"; "not_eligible"; "points_awarded"; "expired"]) o;
  eligibility_reasons ← Zod.key "eligibility_reasons"
    (Zod.or Zod.string (Zod.array Zod.string)) o;
  heart_points_received ← Zod.key "heart_points_received" Zod.number o;
  heart_points_awarded_at ← Zod.key "heart_points_awarded_at" (Zod.nullable Zod.string) o;
  heart_points_awarded_by ← Zod.key "heart_points_awarded_by" (Zod.nullable Zod.number) o;
  Some {| cm_id := id; conversation_id := conversation_id; user_id := user_id;
          cm_content := content; is_ai := is_ai; sender_name := sender_name;
          created_at := created_at; eligibility_status := eligibility_status;
          eligibility_reasons := eligibility_reasons;
          heart_points_received := heart_points_received;
          heart_points_awarded_at := heart_points_awarded_at;
          heart_points_awarded_by := heart_points_awarded_by |}.

(* Chat Message Schema *)
Definition ChatPayloadSchema : Zod.Schema ChatPayload := λ v,
  o ← Zod.object v;
  roomId ← Zod.key "roomId" (Zod.or Zod.string Zod.number) o;
  message ← Zod.key "message" MessageSchema o;
  Some {| roomId := strOrNum roomId; message := message |}.

(* Notification Created Schema *)
Definition NotificationCreatedSchema : Zod.Schema NotificationCreated := λ v,
  o ← Zod.object v;
  id ← Zod.key "id" Zod.number o;
  userId ← Zod.key "userId" Zod.number o;
  type ← Zod.key "type" (Zod.enum ["chat_message"; "announcement"]) o;
  title ← Zod.key "title" Zod.string o;
  content ← Zod.key "content" Zod.string o;
  link ← Zod.key "link" (Zod.optional (Zod.nullable Zod.string)) o;
  isRead ← Zod.key "isRead" Zod.boolean o;
  createdAt ← Zod.key "createdAt" (Zod.or Zod.string Zod.date) o;
  metadata ← Zod.key "metadata" Zod.record_unknown o;
  Some {| nc_id := id; nc_userId := userId; nc_type := type; title := title;
          nc_content := content; link := link; isRead := isRead;
          createdAt := createdAt; metadata := metadata |}.

(* Notification Deleted Schema *)
Definition NotificationDeletedSchema : Zod.Schema NotificationDeleted := λ v,
  o ← Zod.object v;
  notificationId ← Zod.key "notificationId" Zod.number o;
  chatId ← Zod.key "chatId" (Zod.optional Zod.number) o;
  Some {| notificationId := notificationId; chatId := chatId |}.

(* Notifications Cleared Schema *)
Definition NotificationsClearedSchema : Zod.Schema NotificationsCleared := λ v,
  o ← Zod.object v;
  chatIds ← Zod.key "chatIds" (Zod.array Zod.number) o;
  Some {| chatIds := chatIds |}.

(* z.union([...]) of the four payload schemas, tried in order *)
Definition PayloadSchema : Zod.Schema Payload := λ v,
  match ChatPayloadSchema v with
  | Some p => Some (PChat p)
  | None =>
    match NotificationCreatedSchema v with
    | Some n => Some (PNotificationCreated n)
    | None =>
      match NotificationDeletedSchema v with
      | Some d => Some (PNotificationDeleted d)
      | None => PNotificationsCleared <$> NotificationsClearedSchema v
      end
    end
  end.

Definition BroadcastMessageSchema : Zod.Schema BroadcastMessage := λ v,
  o ← Zod.object v;
  type ← Zod.key "type" Zod.string o;
  payload ← Zod.key "payload" PayloadSchema o;
  Some {| type := type; payload := payload |}.

(** ** The coordinator state ([class WebSocketConnection]) *)

Inductive ReadyState := CONNECTING | OPEN | CLOSING | CLOSED.

Definition is_open (r : ReadyState) : bool :=
  match r with OPEN => true | _ => false end.

Record ActiveSession := {
  id : string;
  userId : string;
  userName : option string;
  socket : ReadyState;          (* socket.readyState *)
  rooms : list string           (* Set<string> *)
}.

Record WebSocketConnection := {
  activeConnections : list (string * ActiveSession);  (* Map sessionId -> session *)
  roomParticipants : list (string * list string);     (* Map roomId -> Set sessionId *)
  initialized : bool;
  storedRooms : option (list (string * list string)); (* state.storage, key 'rooms' *)
  putFaults : list bool;   (* outcome of the next storage.put calls: true rejects *)
  wire : list (string * BroadcastMessage)   (* frames sent so far: socket owner, frame *)
}.

Definition with_rooms (r : list string) (s : ActiveSession) : ActiveSession :=
  {| id := id s; userId := userId s; userName := userName s;
     socket := socket s; rooms := r |}.

Definition with_activeConnections c (st : WebSocketConnection) :=
  {| activeConnections := c; roomParticipants := roomParticipants st;
     initialized := initialized st; storedRooms := storedRooms st;
     putFaults := putFaults st; wire := wire st |}.

Definition with_roomParticipants r (st : WebSocketConnection) :=
  {| activeConnections := activeConnections st; roomParticipants := r;
     initialized := initialized st; storedRooms := storedRooms st;
     putFaults := putFaults st; wire := wire st |}.

Definition with_initialized b (st : WebSocketConnection) :=
  {| activeConnections := activeConnections st;
     roomParticipants := roomParticipants st;
     initialized := b; storedRooms := storedRooms st;
     putFaults := putFaults st; wire := wire st |}.

Definition with_storedRooms s (st : WebSocketConnection) :=
  {| activeConnections := activeConnections st;
     roomParticipants := roomParticipants st;
     initialized := initialized st; storedRooms := s;
     putFaults := putFaults st; wire := wire st |}.

Definition with_putFaults f (st : WebSocketConnection) :=
  {| activeConnections := activeConnections st;
     roomParticipants := roomParticipants st;
     initialized := initialized st; storedRooms := storedRooms st;
     putFaults := f; wire := wire st |}.

Definition with_wire w (st : WebSocketConnection) :=
  {| activeConnections := activeConnections st;
     roomParticipants := roomParticipants st;
     initialized := initialized st; storedRooms := storedRooms st;
     putFaults := putFaults st; wire := w |}.

(** ** Methods as state transformers that may throw *)

Inductive Completion (A : Type) :=
  | Normal (a : A)
  | Throw (e : string).
Arguments Normal {A} a.
Arguments Throw {A} e.

Definition Eff (A : Type) : Type :=
  WebSocketConnection → Completion A * WebSocketConnection.

Definition ret {A} (a : A) : Eff A := λ st, (Normal a, st).

Definition bind {A B} (m : Eff A) (f : A → Eff B) : Eff B := λ st,
  match m st with
  | (Normal a, st') => f a st'
  | (Throw e, st') => (Throw e, st')
  end.

Definition throw {A} (e : string) : Eff A := λ st, (Throw e, st).

(* try { m } catch (error) { h error } *)
Definition try_catch {A} (m : Eff A) (h : string → Eff A) : Eff A := λ st,
  match m st with
  | (Normal a, st') => (Normal a, st')
  | (Throw e, st') => h e st'
  end.

Definition read {A} (f : WebSocketConnection → A) : Eff A := λ st, (Normal (f st), st).

Definition modify (f : WebSocketConnection → WebSocketConnection) : Eff unit :=
  λ st, (Normal (), f st).

Declare Scope eff_scope.
Delimit Scope eff_scope with eff.
Notation "'let*' x := m 'in' k" := (bind m (λ x, k))
  (at level 10, x name, m at level 100, k at level 200) : eff_scope.
Notation "m ;;; k" := (bind m (λ _, k))
  (at level 100, k at level 200, right associativity) : eff_scope.

(* for (const x of xs) { acc = body x acc }, leaving the loop on a throw *)
Fixpoint for_of {A S} (xs : list A) (body : A → S → Eff S) (acc : S) : Eff S :=
  match xs with
  | [] => ret acc
  | x :: xs' => bind (body x acc) (for_of xs' body)
  end.

Definition exec {A} (m : Eff A) (st : WebSocketConnection) : WebSocketConnection :=
  (m st).2.

Definition outcome {A} (m : Eff A) (st : WebSocketConnection) : Completion A :=
  (m st).1.

Section Methods.
Local Open Scope eff_scope.

(* initialize(): loads the stored room memberships once.  storage.get is
   taken to resolve ([storedRooms] is what it resolves to, None for
   undefined); a rejecting storage.get is outside this model. *)
Definition initialize : Eff unit := λ st,
  if initialized st then (Normal (), st)
  else
    let stored := default [] (storedRooms st) in
    let loaded :=
      foldl (λ rp entry, JSMap.set entry.1 (JSSet.of_list entry.2) rp)
            (roomParticipants st) stored in
    (Normal (), with_initialized true (with_roomParticipants loaded st)).

(* roomsToStore[roomId] = value on the object literal {}: the key "__proto__"
   reaches the setter inherited from Object.prototype, which changes the
   prototype and creates no own property; every other key becomes (or
   replaces) an own property.  Own properties are kept in assignment order;
   a JavaScript object lists integer-like keys first, which no lookup sees. *)
Definition assign {V} (obj : JSMap.t V) (key : string) (value : V) : JSMap.t V :=
  if bool_decide (key = "__proto__") then obj else JSMap.set key value obj.

(* saveState(): writes the own properties of roomsToStore, the membership
   index copied into a plain object; storage.put may reject *)
Definition saveState : Eff unit := λ st,
  let roomsToStore :=
    foldl (λ obj entry, assign obj entry.1 entry.2) [] (roomParticipants st) in
  match putFaults st with
  | true :: later => (Throw "storage.put failed", with_putFaults later st)
  | false :: later =>
      (Normal (), with_putFaults later (with_storedRooms (Some roomsToStore) st))
  | [] => (Normal (), with_storedRooms (Some roomsToStore) st)
  end.

(* handleSessionClose(sessionId): the disconnect handler *)
Definition handleSessionClose (sessionId : string) : Eff unit :=
  let* session := read (λ st, JSMap.get sessionId (activeConnections st)) in
  match session with
  | None => ret ()
  | Some session =>
      (* Remove from all rooms *)
      for_of (rooms session) (λ roomId _,
        modify (λ st,
          match JSMap.get roomId (roomParticipants st) with
          | Some participants =>
              let remaining := JSSet.delete sessionId participants in
              let index := JSMap.set roomId remaining (roomParticipants st) in
              (* If room is empty, remove it entirely *)
              if bool_decide (JSSet.size remaining = 0)
              then with_roomParticipants (JSMap.delete roomId index) st
              else with_roomParticipants index st
          | None => st
          end)) () ;;;
      modify (λ st,
        with_activeConnections (JSMap.delete sessionId (activeConnections st)) st) ;;;
      saveState
  end.

(* one turn of the loop of [cleanupStaleConnections].  The Map iterator
   visits the entries present when it reaches them: a key deleted before its
   turn is skipped. *)
Definition sweep_turn (sessionId : string) (_ : unit) : Eff unit :=
  let* entry := read (λ st, JSMap.get sessionId (activeConnections st)) in
  match entry with
  | Some session =>
      if negb (is_open (socket session))
      then handleSessionClose sessionId
      else ret ()
  | None => ret ()
  end.

(* cleanupStaleConnections(): the periodic sweep *)
Definition cleanupStaleConnections : Eff unit :=
  let* sessionIds := read (λ st, JSMap.keys (activeConnections st)) in
  for_of sessionIds sweep_turn ().

(* handleRoomJoin(session, roomId); [sessionId] is the registry key under
   which the session object is stored. *)
Definition handleRoomJoin (sessionId : string) (session : ActiveSession)
    (roomId : StrOrNum) : Eff unit :=
  let roomKey := String_ roomId in
  (* session.rooms.add(roomKey) *)
  modify (λ st,
    with_activeConnections
      (JSMap.alter (λ s, with_rooms (JSSet.add roomKey (rooms s)) s)
                   sessionId (activeConnections st)) st) ;;;
  modify (λ st,
    if negb (JSMap.has roomKey (roomParticipants st))
    then with_roomParticipants (JSMap.set roomKey [] (roomParticipants st)) st
    else st) ;;;
  modify (λ st,
    with_roomParticipants
      (JSMap.alter (JSSet.add (id session)) roomKey (roomParticipants st)) st) ;;;
  saveState.

(* handleRoomLeave(session, roomId) *)
Definition handleRoomLeave (sessionId : string) (session : ActiveSession)
    (roomId : StrOrNum) : Eff unit :=
  let roomKey := String_ roomId in
  (* session.rooms.delete(roomKey) *)
  modify (λ st,
    with_activeConnections
      (JSMap.alter (λ s, with_rooms (JSSet.delete roomKey (rooms s)) s)
                   sessionId (activeConnections st)) st) ;;;
  modify (λ st,
    with_roomParticipants
      (JSMap.alter (JSSet.delete (id session)) roomKey (roomParticipants st)) st) ;;;
  saveState.
End Methods.

(* The inbound control frames, as typed by [WebSocketMessage]. *)
Inductive WebSocketMessage :=
  | RoomJoin (roomId : StrOrNum)
  | RoomLeave (roomId : StrOrNum)
  | OtherEvent (type : string).

(* handleMessage(sessionId, message) *)
Definition handleMessage (sessionId : string) (message : WebSocketMessage) : Eff unit :=
  bind (read (λ st, JSMap.get sessionId (activeConnections st))) (λ entry,
    match entry with
    | None => ret ()
    | Some session =>
        match message with
        | RoomJoin roomId => handleRoomJoin sessionId session roomId
        | RoomLeave roomId => handleRoomLeave sessionId session roomId
        | OtherEvent _ => ret ()
        end
    end).

(** ** The internal broadcast endpoint *)

Record Request := {
  method : string;
  body : option json      (* None: request.json() rejects *)
}.

Inductive ResponseBody :=
  | Text (s : string)
  | Delivered (success : bool) (recipients : nat).

Record Response := {
  status : nat;
  content : ResponseBody
}.

Definition POST (rawMessage : json) : Request :=
  {| method := "POST"; body := Some rawMessage |}.

(* session.socket.send(JSON.stringify(validatedMessage)) *)
Definition send (session : ActiveSession) (frame : BroadcastMessage) : Eff unit :=
  modify (λ st, with_wire (wire st ++ [(id session, frame)]) st).

Definition is_global (type : string) : bool :=
  bool_decide (type = WS_EVENTS.NOTIFICATION_DELETED) ||
  bool_decide (type = WS_EVENTS.NOTIFICATION_CLEARED).

(* 'roomId' in payload ? payload.roomId : null; only the chat payload of
   the parsed union carries the key *)
Definition payload_roomId (p : Payload) : option StrOrNum :=
  match p with
  | PChat c => Some (roomId c)
  | _ => None
  end.

Section Broadcast.
Local Open Scope eff_scope.

(* one turn of the loop over all active connections *)
Definition global_turn (validatedMessage : BroadcastMessage)
    (key : string) (broadcastCount : nat) : Eff nat :=
  let* entry := read (λ st, JSMap.get key (activeConnections st)) in
  match entry with
  | Some session =>
      if is_open (socket session)
      then send session validatedMessage ;;; ret (S broadcastCount)
      else handleSessionClose (id session) ;;; ret broadcastCount
  | None => ret broadcastCount
  end.

(* Broadcast to all active connections *)
Definition broadcast_all (validatedMessage : BroadcastMessage) : Eff nat :=
  let* sessionIds := read (λ st, JSMap.keys (activeConnections st)) in
  for_of sessionIds (global_turn validatedMessage) 0.

(* one turn of the loop over the sessions of a room *)
Definition room_turn (validatedMessage : BroadcastMessage) (roomIdString : string)
    (sessionId : string) (broadcastCount : nat) : Eff nat :=
  let* entry := read (λ st, JSMap.get sessionId (activeConnections st)) in
  match entry with
  | None =>
      (* roomSessions.delete(sessionId); continue *)
      modify (λ st,
        with_roomParticipants
          (JSMap.alter (JSSet.delete sessionId) roomIdString (roomParticipants st))
          st) ;;;
      ret broadcastCount
  | Some session =>
      if is_open (socket session)
      then send session validatedMessage ;;; ret (S broadcastCount)
      else handleSessionClose sessionId ;;; ret broadcastCount
  end.

(* Broadcast to all active connections in the room.  [roomSessions] is the
   Set stored under [roomIdString]; only the element being visited is ever
   removed from it, so every element of the snapshot is visited. *)
Definition broadcast_room (validatedMessage : BroadcastMessage)
    (roomIdString : string) (roomSessions : list string) : Eff nat :=
  for_of roomSessions (room_turn validatedMessage roomIdString) 0.

Definition handleBroadcast (request : Request) : Eff Response :=
  initialize ;;;
  if negb (bool_decide (method request = "POST"))
  then ret {| status := 405; content := Text "Method not allowed" |}
  else
    try_catch
      (let* rawMessage :=
         match body request with
         | Some raw => ret raw
         | None => throw "SyntaxError"
         end in
       let* validatedMessage :=
         match BroadcastMessageSchema (Some rawMessage) with
         | Some m => ret m
         | None => throw "ZodError"
         end in
       (* For notification events, broadcast to all connected users *)
       if is_global (type validatedMessage)
       then
         let* broadcastCount := broadcast_all validatedMessage in
         ret {| status := 200; content := Delivered true broadcastCount |}
       else
         (* For chat messages and other room-specific events *)
         let roomId := payload_roomId (payload validatedMessage) in
         if negb (truthy roomId)
         then ret {| status := 400;
                     content := Text "Room ID required for this message type" |}
         else
           let roomIdString := String_or_null roomId in
           let* roomSessions :=
             read (λ st, JSMap.get roomIdString (roomParticipants st)) in
           match roomSessions with
           | None => ret {| status := 404; content := Text "Room not found" |}
           | Some roomSessions =>
               let* broadcastCount :=
                 broadcast_room validatedMessage roomIdString roomSessions in
               saveState ;;; (* Save cleaned up state *)
               ret {| status := 200; content := Delivered true broadcastCount |}
           end)
      (λ error, ret {| status := 500; content := Text "Internal server error" |}).
End Broadcast.

(** ** The token verifier ([src/lib/jwt.ts], [verifyToken]) *)

(* What the platform provides: base64 decoding of [Buffer], [JSON.parse],
   HMAC-SHA256 verification of [crypto.subtle] and the clock. *)
Class Runtime := {
  Buffer_base64 : string → string;   (* Buffer.from(s, 'base64').toString('utf8') *)
  JSON_parse : string → option json; (* None: throws SyntaxError *)
  hmac_verify : string → string → string → bool;  (* key, signature, data *)
  Date_now : Z                       (* milliseconds *)
}.

Record JWTPayload := {
  sub : string;
  name : option string;
  email : option string;
  iat : option Z;
  exp : option Z;
  jti : option string
}.

Definition payloadSchema : Zod.Schema JWTPayload := λ v,
  o ← Zod.object v;
  sub ← Zod.key "sub" Zod.string o;
  name ← Zod.key "name" (Zod.optional Zod.string) o;
  email ← Zod.key "email" (Zod.optional Zod.string) o;
  iat ← Zod.key "iat" (Zod.optional Zod.number) o;
  exp ← Zod.key "exp" (Zod.optional Zod.number) o;
  jti ← Zod.key "jti" (Zod.optional Zod.string) o;
  Some {| sub := sub; name := name; email := email; iat := iat; exp := exp;
          jti := jti |}.

Module Pure.
(* Completion of a function that has no coordinator state. *)
Definition bind {A B} (m : Completion A) (f : A → Completion B) : Completion B :=
  match m with
  | Normal a => f a
  | Throw e => Throw e
  end.

Definition try_catch {A} (m : Completion A) (h : string → Completion A) : Completion A :=
  match m with
  | Normal a => Normal a
  | Throw e => h e
  end.
End Pure.

Declare Scope pure_scope.
Delimit Scope pure_scope with pure.
Notation "'let*' x := m 'in' k" := (Pure.bind m (λ x, k))
  (at level 10, x name, m at level 100, k at level 200) : pure_scope.

Fixpoint replace_char (a b : Ascii.ascii) (s : string) : string :=
  match s with
  | EmptyString => EmptyString
  | String c s' => String (if Ascii.eqb c a then b else c) (replace_char a b s')
  end.

(* '='.repeat(n) *)
Fixpoint repeat_eq (n : nat) : string :=
  match n with
  | O => ""
  | S n' => String "="%char (repeat_eq n')
  end.

(* token.split('.') *)
Fixpoint split_dot (s : string) : list string :=
  match s with
  | EmptyString => [""]
  | String c s' =>
      if Ascii.eqb c "."%char then "" :: split_dot s'
      else match split_dot s' with
           | w :: ws => String c w :: ws
           | [] => [String c ""]
           end
  end.

(* the truthiness test [x && ...] on an optional number *)
Definition truthy_number (x : option Z) : bool :=
  match x with
  | Some n => negb (bool_decide (n = 0%Z))
  | None => false
  end.

Section Jwt.
Context `{Runtime}.
Local Open Scope pure_scope.

Definition validateSecret (secret : string) : Completion string :=
  if bool_decide (secret = "") then Throw "Invalid JWT secret" else Normal secret.

Definition base64UrlDecode (str : string) : Completion string :=
  if bool_decide (str = "") then Throw "Invalid base64url string"
  else
    Pure.try_catch
      ((* Add padding if needed *)
       let pad := (String.length str mod 4)%nat in
       let padded := if bool_decide (pad = 0%nat) then str
                     else str ++ repeat_eq (4 - pad) in
       (* Replace URL-safe chars and decode *)
       let normalized := replace_char "_" "/" (replace_char "-" "+" padded) in
       let decoded := Buffer_base64 normalized in
       if bool_decide (decoded = "")
       then Throw "Failed to decode base64url string"
       else Normal decoded)
      (λ error, Throw ("Base64url decode failed: " ++ error)).

(* the expiry test of [decode], at its reading of the clock:
   exp && exp < Math.floor(Date.now() / 1000) *)
Definition expired (exp : option Z) : bool :=
  truthy_number exp && bool_decide (default 0 exp < Date_now `div` 1000)%Z.

(* the same test against a given reading [now] of Date.now() *)
Definition expired_at (now : Z) (exp : option Z) : bool :=
  truthy_number exp && bool_decide (default 0 exp < now `div` 1000)%Z.

(* decode(token, secret): verify and decode a JWT *)
Definition decode (token : option string) (secret : string) : Completion JWTPayload :=
  match token with
  | None | Some "" => Throw "No token provided"
  | Some token =>
    let* validSecret := validateSecret secret in
    Pure.try_catch
      (match split_dot token with
       | [headerSegment; payloadSegment; signatureSegment] =>
         (* Decode and parse header *)
         let* headerStr := base64UrlDecode headerSegment in
         let* header :=
           match JSON_parse headerStr with
           | Some j => Normal j
           | None => Throw "SyntaxError"
           end in
         let* _ :=
           match header with
           | JNull => Throw "TypeError"
           | JObj fields =>
               match JSMap.get "alg" fields with
               | Some (JStr "HS256") => Normal ()
               | _ => Throw "Invalid token algorithm"
               end
           | _ => Throw "Invalid token algorithm"
           end in
         (* Decode and validate payload *)
         let* payloadStr := base64UrlDecode payloadSegment in
         let* payload :=
           match JSON_parse payloadStr with
           | Some j => Normal j
           | None => Throw "SyntaxError"
           end in
         let* validatedPayload :=
           match payloadSchema (Some payload) with
           | Some p => Normal p
           | None => Throw "ZodError"
           end in
         (* Verify signature *)
         let dataToVerify := headerSegment ++ "." ++ payloadSegment in
         let* signatureData := base64UrlDecode signatureSegment in
         let isValid := hmac_verify validSecret signatureData dataToVerify in
         if negb isValid then Throw "Invalid signature"
         else
           (* Check expiration *)
           if expired (exp validatedPayload) then Throw "Token has expired"
           else Normal validatedPayload
       | _ => Throw "Invalid token format"
       end)
      (λ baseError, Throw ("JWT verification failed: " ++ baseError))
  end.

(* verifyToken(token, env) of the socket worker; [JWT_SECRET] is
   env.JWT_SECRET.  Its expiry test reads Date.now() again, after decode has
   been awaited: [later] is that second reading, [Date_now] the one of
   decode. *)
Definition verifyToken (token : string) (JWT_SECRET : string) (later : Z) :
    Completion JWTPayload :=
  if bool_decide (JWT_SECRET = "") then Throw "JWT_SECRET is not configured"
  else
    Pure.try_catch
      (let* payload := decode (Some token) JWT_SECRET in
       (* Ensure required fields are present *)
       if bool_decide (sub payload = "")
       then Throw "Invalid token: missing subject (sub)"
       else
         (* Check token expiration *)
         if expired_at later (exp payload) then Throw "Token has expired"
         else Normal payload)
      (λ message, Throw ("WebSocket authentication failed: " ++ message)).
End Jwt.

(** ** Predicates on coordinator states *)

(* the session object stored under key [k] *)
Definition registered (st : WebSocketConnection) (k : string) (s : ActiveSession) : Prop :=
  JSMap.get k (activeConnections st) = Some s.

(* [sid] is listed in the membership set of [room] *)
Definition member (index : list (string * list string)) (room sid : string) : Prop :=
  ∃ sessions, JSMap.get room index = Some sessions ∧ sid ∈ sessions.

Definition in_room (st : WebSocketConnection) (room sid : string) : Prop :=
  member (roomParticipants st) room sid.

Definition in_roomb (st : WebSocketConnection) (room sid : string) : bool :=
  match JSMap.get room (roomParticipants st) with
  | Some sessions => JSSet.has sid sessions
  | None => false
  end.

(* Bidirectional consistency of the data model, for the registered sessions. *)
Definition consistent (st : WebSocketConnection) : Prop :=
  ∀ k s, registered st k s → ∀ room, in_room st room k ↔ room ∈ rooms s.

Definition consistentb (st : WebSocketConnection) : bool :=
  forallb (λ entry : string * ActiveSession,
    forallb (λ room, in_roomb st room entry.1) (rooms entry.2) &&
    forallb (λ room, implb (in_roomb st room entry.1)
                           (JSSet.has room (rooms entry.2)))
            (JSMap.keys (roomParticipants st)))
    (activeConnections st).

(* What [handleSession] establishes: a session is stored under its own id,
   and sessions are only registered once the coordinator is initialized. *)
Definition well_formed (st : WebSocketConnection) : Prop :=
  (initialized st = false → activeConnections st = []) ∧
  ∀ k s, registered st k s → id s = k.

Definition well_formedb (st : WebSocketConnection) : bool :=
  (initialized st || bool_decide (activeConnections st = [])) &&
  forallb (λ entry : string * ActiveSession, bool_decide (id entry.2 = entry.1))
          (activeConnections st).

Definition invariant (st : WebSocketConnection) : Prop :=
  well_formed st ∧ consistent st.

(* [st1] to [st2] adds neither a session nor a membership, as every turn of a loop *)
Definition shrinks (st st' : WebSocketConnection) : Prop :=
  (∀ x, JSMap.get x (activeConnections st) = None →
        JSMap.get x (activeConnections st') = None) ∧
  (∀ r x, in_room st' r x → in_room st r x).

(* every scripted storage write succeeds *)
Definition reliable (st : WebSocketConnection) : Prop :=
  Forall (λ fault, fault = false) (putFaults st).

(* the in-memory membership state: registry (with each session's rooms) and index *)
Definition membership (st : WebSocketConnection) :=
  (activeConnections st, roomParticipants st).

(* registered session under [k] whose socket is not open *)
Definition stale (st : WebSocketConnection) (k : string) : bool :=
  match JSMap.get k (activeConnections st) with
  | Some s => negb (is_open (socket s))
  | None => false
  end.

(* the registered session under [k], when its socket is open *)
Definition live (st : WebSocketConnection) (k : string) : option ActiveSession :=
  match JSMap.get k (activeConnections st) with
  | Some s => if is_open (socket s) then Some s else None
  | None => None
  end.

(* the targeted sessions whose connection handle reports the open state *)
Definition open_targets (st : WebSocketConnection) (targets : list string) : list ActiveSession :=
  omap (live st) targets.

(* one turn of the room loop of [handleSessionClose], on the index *)
Definition leave_step (sessionId : string) (index : list (string * list string))
    (roomId : string) : list (string * list string) :=
  match JSMap.get roomId index with
  | Some participants =>
      let remaining := JSSet.delete sessionId participants in
      if bool_decide (JSSet.size remaining = 0)
      then JSMap.delete roomId (JSMap.set roomId remaining index)
      else JSMap.set roomId remaining index
  | None => index
  end.

Definition leave_all (sessionId : string) (rooms : list string)
    (index : list (string * list string)) : list (string * list string) :=
  foldl (leave_step sessionId) index rooms.

(* what [leave_step] does to the entry of the room it visits *)
Definition vacate (sessionId : string) (entry : option (list string)) : option (list string) :=
  match entry with
  | Some participants =>
      let remaining := JSSet.delete sessionId participants in
      if bool_decide (JSSet.size remaining = 0) then None else Some remaining
  | None => None
  end.

(* the in-memory effect of [handleSessionClose] on a registered session *)
Definition evict (sessionId : string) (session : ActiveSession)
    (st : WebSocketConnection) : WebSocketConnection :=
  with_activeConnections (JSMap.delete sessionId (activeConnections st))
    (with_roomParticipants
       (leave_all sessionId (rooms session) (roomParticipants st)) st).

(* the in-memory effect of [handleRoomJoin] *)
Definition joined (sessionId : string) (session : ActiveSession) (roomId : StrOrNum)
    (st : WebSocketConnection) : WebSocketConnection :=
  let roomKey := String_ roomId in
  let st1 :=
    with_activeConnections
      (JSMap.alter (λ s, with_rooms (JSSet.add roomKey (rooms s)) s)
                   sessionId (activeConnections st)) st in
  let st2 :=
    if negb (JSMap.has roomKey (roomParticipants st1))
    then with_roomParticipants (JSMap.set roomKey [] (roomParticipants st1)) st1
    else st1 in
  with_roomParticipants
    (JSMap.alter (JSSet.add (id session)) roomKey (roomParticipants st2)) st2.

(* the in-memory effect of [handleRoomLeave] *)
Definition left (sessionId : string) (session : ActiveSession) (roomId : StrOrNum)
    (st : WebSocketConnection) : WebSocketConnection :=
  let roomKey := String_ roomId in
  let st1 :=
    with_activeConnections
      (JSMap.alter (λ s, with_rooms (JSSet.delete roomKey (rooms s)) s)
                   sessionId (activeConnections st)) st in
  with_roomParticipants
    (JSMap.alter (JSSet.delete (id session)) roomKey (roomParticipants st1)) st1.

(* the state in which [handleBroadcast] does its work: initialize() has run *)
Definition ready (st : WebSocketConnection) : WebSocketConnection :=
  exec initialize st.

(* a validated envelope that takes the room path of [handleBroadcast],
   aimed at [room] *)
Definition room_scoped (m : BroadcastMessage) (room : string) : Prop :=
  is_global (type m) = false ∧
  truthy (payload_roomId (payload m)) = true ∧
  String_or_null (payload_roomId (payload m)) = room.

Definition OK (recipients : nat) : Response :=
  {| status := 200; content := Delivered true recipients |}.

Definition RoomNotFound : Response :=
  {| status := 404; content := Text "Room not found" |}.

Definition InternalServerError : Response :=
  {| status := 500; content := Text "Internal server error" |}.

Definition RoomIdRequired : Response :=
  {| status := 400; content := Text "Room ID required for this message type" |}.

(* the closed set of wire tags of [WS_EVENTS] *)
Definition wire_tags : list string :=
  [WS_EVENTS.CONNECT; WS_EVENTS.DISCONNECT; WS_EVENTS.MESSAGE;
   WS_EVENTS.ROOM_JOIN; WS_EVENTS.ROOM_LEAVE; WS_EVENTS.CHAT_MESSAGE;
   WS_EVENTS.ERROR; WS_EVENTS.NOTIFICATIONS_READ; WS_EVENTS.POINTS_AWARDED;
   WS_EVENTS.NOTIFICATION_CREATED; WS_EVENTS.NOTIFICATION_DELETED;
   WS_EVENTS.NOTIFICATION_CLEARED].

(* The rejection rule as the spec words it: an envelope with an unknown tag,
   or with a payload of no known shape, gets a 400 and reaches nobody. *)
Definition invalid_envelope_rejected (st : WebSocketConnection) (raw : json) : Prop :=
  (∀ m, BroadcastMessageSchema (Some raw) = Some m → type m ∉ wire_tags) →
  (∃ r, outcome (handleBroadcast (POST raw)) st = Normal r ∧ status r = 400) ∧
  wire (exec (handleBroadcast (POST raw)) st) = wire st.


(* a JWT whose three segments decode, whose header names HS256, whose
   payload validates as [p] and whose signature verifies under [secret] *)
Definition well_signed `{Runtime} (token secret : string) (p : JWTPayload) : Prop :=
  secret ≠ "" ∧
  ∃ h b s headerStr fields payloadStr payloadJson signatureData,
    split_dot token = [h; b; s] ∧
    base64UrlDecode h = Normal headerStr ∧
    JSON_parse headerStr = Some (JObj fields) ∧
    JSMap.get "alg" fields = Some (JStr "HS256") ∧
    base64UrlDecode b = Normal payloadStr ∧
    JSON_parse payloadStr = Some payloadJson ∧
    payloadSchema (Some payloadJson) = Some p ∧
    base64UrlDecode s = Normal signatureData ∧
    hmac_verify secret signatureData (h ++ "." ++ b) = true.

(** ** Sample data *)

Module Sample.
Definition session (i : string) (state : ReadyState) (joined : list string) : ActiveSession :=
  {| id := i; userId := "user-of-" ++ i; userName := None;
     socket := state; rooms := joined |}.

(* room "42" with S1 open, S2 closed, S3 open *)
Definition three : WebSocketConnection :=
  {| activeConnections :=
       [("S1", session "S1" OPEN ["42"]); ("S2", session "S2" CLOSED ["42"]);
        ("S3", session "S3" OPEN ["42"])];
     roomParticipants := [("42", ["S1"; "S2"; "S3"])];
     initialized := true; storedRooms := None; putFaults := []; wire := [] |}.

(* a single session, alone in room "42" *)
Definition alone : WebSocketConnection :=
  {| activeConnections := [("S1", session "S1" OPEN ["42"])];
     roomParticipants := [("42", ["S1"])];
     initialized := true; storedRooms := None; putFaults := []; wire := [] |}.

(* an index entry left empty by a leave *)
Definition emptied : WebSocketConnection :=
  {| activeConnections := [("S1", session "S1" OPEN [])];
     roomParticipants := [("42", [])];
     initialized := true; storedRooms := None; putFaults := []; wire := [] |}.

(* a session that has joined room "42" and a room named "__proto__" *)
Definition proto : WebSocketConnection :=
  {| activeConnections := [("S1", session "S1" OPEN ["42"; "__proto__"])];
     roomParticipants := [("42", ["S1"]); ("__proto__", ["S1"])];
     initialized := true; storedRooms := None; putFaults := []; wire := [] |}.


Definition chat_message : json :=
  JObj [("id", JNum 1); ("conversation_id", JNum 42); ("user_id", JNum 7);
        ("content", JStr "hello"); ("is_ai", JBool false);
        ("sender_name", JStr "Ann"); ("created_at", JStr "2024-05-01 10:00:00");
        ("eligibility_status", JStr "pending"); ("eligibility_reasons", JArr []);
        ("heart_points_received", JNum 0); ("heart_points_awarded_at", JNull);
        ("heart_points_awarded_by", JNull)].

Definition envelope (tag : string) (pl : json) : json :=
  JObj [("type", JStr tag); ("payload", pl)].

Definition chat_envelope : json :=
  envelope "chat:message" (JObj [("roomId", JStr "42"); ("message", chat_message)]).

(* [chat_envelope] once validated *)
Definition chat_frame : BroadcastMessage :=
  {| type := "chat:message";
     payload := PChat
       {| roomId := Str "42";
          message :=
            {| cm_id := 1; conversation_id := 42; user_id := Some 7%Z;
               cm_content := "hello"; is_ai := inl false;
               sender_name := Some "Ann"; created_at := "2024-05-01 10:00:00";
               eligibility_status := "pending"; eligibility_reasons := inr [];
               heart_points_received := 0; heart_points_awarded_at := None;
               heart_points_awarded_by := None |} |} |}.

(* an unknown tag on a chat-shaped payload *)
Definition unknown_tag_envelope : json :=
  envelope "not:a:real:tag" (JObj [("roomId", JStr "42"); ("message", chat_message)]).

(* the spec's own example of an invalid envelope *)
Definition empty_payload_envelope : json :=
  envelope "not:a:real:tag" (JObj []).

Definition notification : json :=
  JObj [("id", JNum 5); ("userId", JNum 7); ("type", JStr "announcement");
        ("title", JStr "News"); ("content", JStr "Hello all"); ("link", JNull);
        ("isRead", JBool false); ("createdAt", JStr "2024-05-01T10:00:00.000Z");
        ("metadata", JObj [])].

Definition notification_created_envelope : json :=
  envelope "notification:created" notification.

(* A stand-in platform: base64 decoding returns the padded segment as it
   is, "H===" parses as the header, "P===" as a payload without exp, and
   every signature verifies. *)
Definition toy_runtime : Runtime :=
  {| Buffer_base64 := λ s, s;
     JSON_parse := λ s,
       if bool_decide (s = "H===") then Some (JObj [("alg", JStr "HS256"); ("typ", JStr "JWT")])
       else if bool_decide (s = "P===") then Some (JObj [("sub", JStr "7"); ("name", JStr "Ann")])
       else None;
     hmac_verify := λ _ _ _, true;
     Date_now := 1900000000000 |}.

Definition token_payload : JWTPayload :=
  {| sub := "7"; name := Some "Ann"; email := None; iat := None; exp := None;
     jti := None |}.
End Sample.

(** ** Accepting connections and routing ([handleSession], [fetch]) *)

(* a computation of the token verifier, run inside a method *)
Definition lift {A} (c : Completion A) : Eff A := λ st, (c, st).

(* payload.name || null *)
Definition or_null (x : option string) : option string :=
  match x with
  | Some "" | None => None
  | Some s => Some s
  end.

(* str.includes(needle) *)
Fixpoint includes (needle str : string) : bool :=
  String.prefix needle str ||
  match str with
  | EmptyString => false
  | String _ rest => includes needle rest
  end.

(* What [fetch] reads of a request: the Upgrade header, the URL, its token
   query parameter, and the method and body that [handleBroadcast] reads. *)
Record FetchRequest := {
  Upgrade : option string;        (* request.headers.get('Upgrade') *)
  url : string;                   (* request.url *)
  token_param : option string;    (* new URL(request.url).searchParams.get('token') *)
  request : Request
}.

Inductive FetchResponse :=
  | SwitchingProtocols (sessionId : string)   (* status 101, with the client socket *)
  | Plain (r : Response).

Section Connect.
Context `{Runtime}.
Local Open Scope eff_scope.

(* handleSession(webSocket, token).  [JWT_SECRET] is this.env.JWT_SECRET and
   [sessionId] the value crypto.randomUUID() returns.  The socket handed in
   is accepted, hence open, when the method returns; when the method throws,
   the socket has been closed with code 1008. *)
Definition handleSession (JWT_SECRET sessionId token : string) : Eff string :=
  initialize ;;;
  try_catch
    ((* Verify token and get user info *)
     let* payload := lift (decode (Some token) JWT_SECRET) in
     let session :=
       {| id := sessionId; userId := sub payload;
          userName := or_null (name payload);
          socket := OPEN; rooms := [] |} in
     modify (λ st,
       with_activeConnections
         (JSMap.set sessionId session (activeConnections st)) st) ;;;
     ret sessionId)
    (λ error, throw error).

(* fetch(request) of the Durable Object *)
Definition fetch (JWT_SECRET sessionId : string) (req : FetchRequest) : Eff FetchResponse :=
  if bool_decide (Upgrade req = Some "websocket")
  then
    match token_param req with
    | None | Some "" =>
        ret (Plain {| status := 401; content := Text "Unauthorized" |})
    | Some token =>
        handleSession JWT_SECRET sessionId token ;;;
        ret (SwitchingProtocols sessionId)
    end
  else if includes "/broadcast" (url req)
  then let* r := handleBroadcast (request req) in ret (Plain r)
  else ret (Plain {| status := 404; content := Text "Not found" |}).
End Connect.

(* A new instance of the class over the same durable storage, as the
   constructor builds it: empty maps, not initialized.  (In the stored
   record only the lookups of the index are meaningful: a JavaScript object
   does not keep the insertion order of integer-like keys.) *)
Definition restart (st : WebSocketConnection) : WebSocketConnection :=
  {| activeConnections := []; roomParticipants := []; initialized := false;
     storedRooms := storedRooms st; putFaults := putFaults st; wire := wire st |}.

(* [st'] has only sessions that [st] has, unchanged *)
Definition registry_kept (st st' : WebSocketConnection) : Prop :=
  ∀ k s, registered st' k s → registered st k s.

(* the frames sent between [st] and [st'] *)
Definition sent_since (st st' : WebSocketConnection)
    (frames : list (string * BroadcastMessage)) : Prop :=
  wire st' = (wire st ++ frames)%list.

(* the session object that [handleSession] builds from a verified payload *)
Definition new_session (sessionId : string) (p : JWTPayload) : ActiveSession :=
  {| id := sessionId; userId := sub p; userName := or_null (name p);
     socket := OPEN; rooms := [] |}.

(* every frame of [frames] went to a session registered and open in [st] *)
Definition to_open_sessions (st : WebSocketConnection)
    (frames : list (string * BroadcastMessage)) : Prop :=
  ∀ recipient frame, (recipient, frame) ∈ frames →
    ∃ k s, registered st k s ∧ is_open (socket s) = true ∧ recipient = id s.

(* from [st] to [st'] no session was added, and the frames sent went to
   sessions registered and open in [st] *)
Definition only_to_open (st st' : WebSocketConnection) : Prop :=
  registry_kept st st' ∧
  ∃ frames, sent_since st st' frames ∧ to_open_sessions st frames.

(** ** Issuing tokens ([sign], [createSessionToken]) and the worker's gate *)

(* What the platform provides to the signing side. *)
Class Signing := {
  Buffer_to_base64 : string → string;  (* Buffer.from(s, 'utf8').toString('base64') *)
  JSON_stringify : json → string;
  hmac_sign : string → string → string; (* key, data; the signature bytes as a string *)
  randomUUID : string                   (* crypto.randomUUID() *)
}.

(* str.replace(/=+$/, '') *)
Fixpoint strip_trailing_eq (s : string) : string :=
  match s with
  | EmptyString => EmptyString
  | String c rest =>
      match strip_trailing_eq rest with
      | EmptyString => if Ascii.eqb c "=" then EmptyString else String c EmptyString
      | kept => String c kept
      end
  end.

(* str.slice(n) *)
Fixpoint slice (n : nat) (s : string) : string :=
  match n, s with
  | O, _ => s
  | S n', String _ rest => slice n' rest
  | S _, EmptyString => EmptyString
  end.

(* the characters of standard base64, padding apart *)
Definition is_base64_char (c : Ascii.ascii) : bool :=
  let n := Ascii.nat_of_ascii c in
  ((65 <=? n)%nat && (n <=? 90)%nat) || ((97 <=? n)%nat && (n <=? 122)%nat) ||
  ((48 <=? n)%nat && (n <=? 57)%nat) || Ascii.eqb c "+" || Ascii.eqb c "/".

Fixpoint all_chars (f : Ascii.ascii → bool) (s : string) : bool :=
  match s with
  | EmptyString => true
  | String c rest => f c && all_chars f rest
  end.

(* a non-empty standard base64 text: base64 characters, then at most two
   '=', a multiple of four characters in all *)
Definition base64_text (b : string) : bool :=
  let body := strip_trailing_eq b in
  negb (bool_decide (body = "")) &&
  all_chars is_base64_char body &&
  (String.length b - String.length body <=? 2)%nat &&
  (String.length b mod 4 =? 0)%nat.

(* the header object of [sign] *)
Definition header_json : json := JObj [("alg", JStr "HS256"); ("typ", JStr "JWT")].

(* a [JWTPayload] object as JSON.stringify sees it: undefined members are
   left out *)
Definition to_json (p : JWTPayload) : json :=
  JObj ([("sub", JStr (sub p))]
        ++ from_option (λ v, [("name", JStr v)]) [] (name p)
        ++ from_option (λ v, [("email", JStr v)]) [] (email p)
        ++ from_option (λ v, [("iat", JNum v)]) [] (iat p)
        ++ from_option (λ v, [("exp", JNum v)]) [] (exp p)
        ++ from_option (λ v, [("jti", JStr v)]) [] (jti p))%list.

Section Issue.
Context `{Runtime} `{Signing}.
Local Open Scope pure_scope.

(* Base64Url encode with UTF-8 support *)
Definition base64UrlEncode (str : string) : string :=
  strip_trailing_eq
    (replace_char "/" "_" (replace_char "+" "-" (Buffer_to_base64 str))).

(* sign(payload, secret) *)
Definition sign (payload : JWTPayload) (secret : string) : Completion string :=
  Pure.try_catch
    ((* Validate payload *)
     let* _ :=
       match payloadSchema (Some (to_json payload)) with
       | Some p => Normal p
       | None => Throw "ZodError"
       end in
     (* Create segments *)
     let headerSegment := base64UrlEncode (JSON_stringify header_json) in
     let payloadSegment := base64UrlEncode (JSON_stringify (to_json payload)) in
     (* Sign the data *)
     let signature := hmac_sign secret (headerSegment ++ "." ++ payloadSegment) in
     (* Convert signature to base64url *)
     let signatureSegment := base64UrlEncode signature in
     (* Combine segments *)
     Normal (headerSegment ++ "." ++ payloadSegment ++ "." ++ signatureSegment))
    (λ error, Throw error).

(* createSessionToken(userId, secret, name?, email?, expiresIn = 30 days) *)
Definition createSessionToken (userId secret : string) (name email : option string)
    (expiresIn : option Z) : Completion string :=
  let expiresIn := default (30 * 24 * 60 * 60)%Z expiresIn in
  let now := (Date_now `div` 1000)%Z in
  let payload :=
    {| sub := userId; name := name; email := email; iat := Some now;
       exp := Some (now + expiresIn)%Z; jti := Some randomUUID |} in
  sign payload secret.

(* getUserIdFromRequest(request, env) of the socket worker; [Authorization]
   is request.headers.get('Authorization'), [later] the clock reading of
   verifyToken's own expiry test *)
Definition getUserIdFromRequest (Authorization : option string)
    (JWT_SECRET : string) (later : Z) : option string :=
  match Authorization with
  | Some authHeader =>
      if negb (String.prefix "Bearer " authHeader) then None
      else
        let token := slice 7 authHeader in
        match verifyToken token JWT_SECRET later with
        | Normal payload => Some (sub payload)
        | Throw _ => None
        end
  | None => None
  end.
End Issue.

(* the payload that [createSessionToken] signs when the clock shows [now] *)
Definition session_payload `{Signing} (userId : string) (name email : option string)
    (expiresIn : option Z) (now : Z) : JWTPayload :=
  {| sub := userId; name := name; email := email;
     iat := Some (now `div` 1000)%Z;
     exp := Some (now `div` 1000 + default (30 * 24 * 60 * 60) expiresIn)%Z;
     jti := Some randomUUID |}.

(* the platform with the clock at [now] milliseconds *)
Definition at_time (now : Z) (rt : Runtime) : Runtime :=
  {| Buffer_base64 := @Buffer_base64 rt; JSON_parse := @JSON_parse rt;
     hmac_verify := @hmac_verify rt; Date_now := now |}.

(* [x] survives base64 encoding and decoding on the platform *)
Definition base64_round_trip `{Runtime} `{Signing} (x : string) : Prop :=
  x ≠ "" ∧
  base64_text (Buffer_to_base64 x) = true ∧
  Buffer_base64 (Buffer_to_base64 x) = x.

(* the laws of the platform that signing [p] under [secret] relies on:
   base64 and JSON round trips of the segments, and a signature that its
   own key verifies *)
Definition platform_round_trips `{Runtime} `{Signing} (p : JWTPayload) (secret : string) : Prop :=
  let headerSegment := base64UrlEncode (JSON_stringify header_json) in
  let payloadSegment := base64UrlEncode (JSON_stringify (to_json p)) in
  let data := headerSegment ++ "." ++ payloadSegment in
  base64_round_trip (JSON_stringify header_json) ∧
  base64_round_trip (JSON_stringify (to_json p)) ∧
  base64_round_trip (hmac_sign secret data) ∧
  JSON_parse (JSON_stringify header_json) = Some header_json ∧
  JSON_parse (JSON_stringify (to_json p)) = Some (to_json p) ∧
  hmac_verify secret (hmac_sign secret data) data = true.

(** ** A small platform for examples *)

Module Demo.
Definition payload : JWTPayload :=
  {| sub := "7"; name := Some "Ann"; email := None; iat := Some 1700000000%Z;
     exp := Some 1700003600%Z; jti := Some "id-1" |}.

(* "H" stands for the header text, "P" for the payload text and "S" for the
   signature bytes; their base64 forms are the real ones. *)
Definition signing : Signing :=
  {| Buffer_to_base64 := λ s,
       if bool_decide (s = "H") then "SA=="
       else if bool_decide (s = "P") then "UA=="
       else if bool_decide (s = "S") then "Uw=="
       else "";
     JSON_stringify := λ j,
       match j with
       | JObj (("alg", _) :: _) => "H"
       | _ => "P"
       end;
     hmac_sign := λ _ _, "S";
     randomUUID := "id-1" |}.

Definition runtime (now : Z) : Runtime :=
  {| Buffer_base64 := λ b,
       if bool_decide (b = "SA==") then "H"
       else if bool_decide (b = "UA==") then "P"
       else if bool_decide (b = "Uw==") then "S"
       else "";
     JSON_parse := λ s,
       if bool_decide (s = "H") then Some header_json
       else if bool_decide (s = "P") then Some (to_json payload)
       else None;
     hmac_verify := λ _ signature _, bool_decide (signature = "S");
     Date_now := now |}.
End Demo.

(** ** The envelopes that the handlers post to the broadcast endpoint *)

Module Callers.
(* handleDeleteNotifications (src/handlers/notifications.ts) *)
Definition deleted_notifications (notificationIds : list Z) : Request :=
  POST (JObj [("type", JStr WS_EVENTS.NOTIFICATION_DELETED);
              ("payload", JObj [("notificationIds", JArr (JNum <$> notificationIds))])]).

(* handleDeleteChatNotifications (src/handlers/notifications.ts) *)
Definition cleared_chat (chatIdNum : Z) : Request :=
  POST (JObj [("type", JStr WS_EVENTS.NOTIFICATION_CLEARED);
              ("payload", JObj [("chatIds", JArr [JNum chatIdNum])])]).

(* handleAwardPoints (src/handlers/points.ts) *)
Definition points_awarded (messageId points : Z) (type awardedBy awardedAt : string) : Request :=
  POST (JObj [("type", JStr WS_EVENTS.POINTS_AWARDED);
              ("payload", JObj [("messageId", JNum messageId); ("points", JNum points);
                                ("type", JStr type); ("awardedBy", JStr awardedBy);
                                ("awardedAt", JStr awardedAt)])]).
End Callers.

(** * Properties *)

(** ** Containers *)

Section SetFacts.
Implicit Types (x y : string) (s : list string).

Lemma has_true x s : JSSet.has x s = true ↔ x ∈ s.
Proof. unfold JSSet.has. apply bool_decide_eq_true. Qed.

Lemma elem_of_add y x s : y ∈ JSSet.add x s ↔ y = x ∨ y ∈ s.
Proof.
  unfold JSSet.add, JSSet.has. case_bool_decide as Hx.
  - split; [tauto | intros [-> | ?]; assumption].
  - rewrite elem_of_app, list_elem_of_singleton. tauto.
Qed.

Lemma add_present x s : x ∈ s → JSSet.add x s = s.
Proof. intros Hx. unfold JSSet.add, JSSet.has. by rewrite bool_decide_eq_true_2. Qed.

Lemma add_add x s : JSSet.add x (JSSet.add x s) = JSSet.add x s.
Proof. apply add_present, elem_of_add. by left. Qed.

Lemma elem_of_delete y x s : y ∈ JSSet.delete x s ↔ y ≠ x ∧ y ∈ s.
Proof. unfold JSSet.delete. by rewrite list_elem_of_filter. Qed.

Lemma delete_absent x s : x ∉ s → JSSet.delete x s = s.
Proof.
  unfold JSSet.delete. induction s as [|a s IH]; intros Hx; [done|].
  rewrite not_elem_of_cons in Hx. destruct Hx as [Hne Hx].
  rewrite filter_cons_True by congruence. by rewrite IH.
Qed.

Lemma delete_delete x s : JSSet.delete x (JSSet.delete x s) = JSSet.delete x s.
Proof. apply delete_absent. rewrite elem_of_delete. tauto. Qed.

Lemma size_0_nil s : JSSet.size s = 0 ↔ s = [].
Proof. unfold JSSet.size. destruct s; simpl; split; (done || lia). Qed.
End SetFacts.

Section MapFacts.
Context {V : Type}.
Implicit Types (k : string) (v : V) (m : list (string * V)).

Lemma get_set_eq k v m : JSMap.get k (JSMap.set k v m) = Some v.
Proof.
  induction m as [|[k' v'] m IH]; simpl.
  - by rewrite decide_True.
  - destruct (decide (k = k')); simpl.
    + by rewrite decide_True.
    + by rewrite decide_False.
Qed.

Lemma get_set_ne k k' v m : k ≠ k' → JSMap.get k' (JSMap.set k v m) = JSMap.get k' m.
Proof.
  intros Hne. induction m as [|[k0 v0] m IH]; simpl.
  - by rewrite decide_False.
  - destruct (decide (k = k0)) as [->|]; simpl.
    + by rewrite !decide_False.
    + destruct (decide (k' = k0)); done.
Qed.

Lemma get_delete_eq k m : JSMap.get k (JSMap.delete k m) = None.
Proof.
  unfold JSMap.delete. induction m as [|[k' v'] m IH]; [done|].
  destruct (decide (k' = k)) as [->|Hne].
  - by rewrite filter_cons_False by (simpl; tauto).
  - rewrite filter_cons_True by done. simpl. by rewrite decide_False.
Qed.

Lemma get_delete_ne k k' m : k ≠ k' → JSMap.get k' (JSMap.delete k m) = JSMap.get k' m.
Proof.
  intros Hne. unfold JSMap.delete. induction m as [|[k0 v0] m IH]; [done|].
  destruct (decide (k0 = k)) as [->|Hne0].
  - rewrite filter_cons_False by (simpl; tauto). simpl. by rewrite decide_False.
  - rewrite filter_cons_True by done. simpl. by rewrite IH.
Qed.

Lemma set_same k v m : JSMap.get k m = Some v → JSMap.set k v m = m.
Proof.
  induction m as [|[k' v'] m IH]; simpl; [done|].
  destruct (decide (k = k')) as [->|]; [by intros [= ->]|].
  intros Hg. by rewrite IH.
Qed.

Lemma set_set k v w m : JSMap.set k v (JSMap.set k w m) = JSMap.set k v m.
Proof.
  induction m as [|[k' v'] m IH]; simpl.
  - by rewrite decide_True.
  - destruct (decide (k = k')) as [->|]; simpl.
    + by rewrite decide_True.
    + by rewrite decide_False, IH.
Qed.

Lemma get_alter_eq (f : V → V) k m :
  JSMap.get k (JSMap.alter f k m) = f <$> JSMap.get k m.
Proof.
  unfold JSMap.alter. destruct (JSMap.get k m) eqn:Hg; simpl.
  - apply get_set_eq.
  - done.
Qed.

Lemma get_alter_ne (f : V → V) k k' m :
  k ≠ k' → JSMap.get k' (JSMap.alter f k m) = JSMap.get k' m.
Proof.
  intros Hne. unfold JSMap.alter. destruct (JSMap.get k m); [|done].
  by apply get_set_ne.
Qed.

Lemma alter_alter (f : V → V) k m :
  (∀ v, f (f v) = f v) → JSMap.alter f k (JSMap.alter f k m) = JSMap.alter f k m.
Proof.
  intros Hf. unfold JSMap.alter at 1. rewrite get_alter_eq.
  destruct (JSMap.get k m) eqn:Hg; simpl; [|done].
  unfold JSMap.alter. rewrite Hg, Hf. apply set_set.
Qed.

Lemma get_Some_elem_of k v m : JSMap.get k m = Some v → (k, v) ∈ m.
Proof.
  induction m as [|[k' v'] m IH]; simpl; [done|].
  destruct (decide (k = k')) as [->|].
  - intros [= ->]. apply elem_of_cons. by left.
  - intros Hg. apply elem_of_cons. right. by apply IH.
Qed.

Lemma get_Some_keys k v m : JSMap.get k m = Some v → k ∈ JSMap.keys m.
Proof.
  intros Hg. unfold JSMap.keys. apply list_elem_of_fmap.
  exists (k, v). split; [done|]. by apply get_Some_elem_of.
Qed.

Lemma has_true_get k m : JSMap.has k m = true ↔ is_Some (JSMap.get k m).
Proof.
  unfold JSMap.has. destruct (JSMap.get k m); split; intros Hx;
    (done || by eexists || by destruct Hx).
Qed.
End MapFacts.

(** ** The storage write and the disconnect handler *)

Lemma saveState_frame st :
  activeConnections (saveState st).2 = activeConnections st ∧
  roomParticipants (saveState st).2 = roomParticipants st ∧
  initialized (saveState st).2 = initialized st ∧
  wire (saveState st).2 = wire st.
Proof. unfold saveState. destruct (putFaults st) as [|[] ?]; done. Qed.

Lemma saveState_reliable st :
  reliable st → (saveState st).1 = Normal () ∧ reliable (saveState st).2.
Proof.
  unfold reliable, saveState. intros Hr.
  destruct (putFaults st) as [|b later] eqn:Hf; simpl; [by rewrite Hf|].
  apply Forall_cons in Hr as [-> Hr]. done.
Qed.

Lemma reliable_frame st st' : putFaults st' = putFaults st → reliable st → reliable st'.
Proof. unfold reliable. by intros ->. Qed.

Lemma for_of_modify {A} (g : A → WebSocketConnection → WebSocketConnection) l st :
  for_of l (λ x _, modify (g x)) () st = (Normal (), foldl (λ st x, g x st) st l).
Proof.
  revert st. induction l as [|x l IH]; intros st; [done|].
  simpl. unfold bind at 1. simpl. apply IH.
Qed.

Lemma leave_loop sessionId (f : WebSocketConnection → string → WebSocketConnection) l st :
  (∀ st r, f st r =
     with_roomParticipants (leave_step sessionId (roomParticipants st) r) st) →
  foldl f st l = with_roomParticipants (leave_all sessionId l (roomParticipants st)) st.
Proof.
  intros Hf. revert st. induction l as [|r l IH]; intros st.
  - by destruct st.
  - cbn [foldl]. rewrite IH, Hf. done.
Qed.

Lemma handleSessionClose_unregistered k st :
  JSMap.get k (activeConnections st) = None → handleSessionClose k st = (Normal (), st).
Proof. intros Hg. unfold handleSessionClose, bind, read. by rewrite Hg. Qed.

Lemma handleSessionClose_registered k s st :
  registered st k s → handleSessionClose k st = saveState (evict k s st).
Proof.
  intros Hg. unfold handleSessionClose, bind at 1, read. rewrite Hg.
  unfold bind at 1. rewrite for_of_modify, (leave_loop k).
  - unfold bind, modify. done.
  - intros st' r. unfold leave_step.
    destruct (JSMap.get r (roomParticipants st')); [|by destruct st'].
    simpl. by case_bool_decide.
Qed.

Lemma vacate_vacate k entry : vacate k (vacate k entry) = vacate k entry.
Proof.
  destruct entry as [m|]; simpl; [|done].
  case_bool_decide as Hs; simpl; [done|].
  rewrite delete_delete. by rewrite bool_decide_eq_false_2.
Qed.

Lemma get_leave_step k index r0 r :
  JSMap.get r (leave_step k index r0)
  = if bool_decide (r = r0) then vacate k (JSMap.get r index) else JSMap.get r index.
Proof.
  unfold leave_step. case_bool_decide as Hr.
  - subst r0. destruct (JSMap.get r index) as [m|] eqn:Hg; simpl; [|by rewrite Hg].
    case_bool_decide.
    + apply get_delete_eq.
    + apply get_set_eq.
  - destruct (JSMap.get r0 index) as [m|] eqn:Hg; simpl; [|done].
    case_bool_decide.
    + rewrite get_delete_ne by done. by apply get_set_ne.
    + by apply get_set_ne.
Qed.

Lemma get_leave_all k l index r :
  JSMap.get r (leave_all k l index)
  = if bool_decide (r ∈ l) then vacate k (JSMap.get r index) else JSMap.get r index.
Proof.
  unfold leave_all. revert index. induction l as [|a l IH]; intros index.
  - cbn [foldl]. rewrite bool_decide_eq_false_2; [done | apply not_elem_of_nil].
  - cbn [foldl]. rewrite IH, get_leave_step.
    destruct (decide (r = a)) as [->|Hne].
    + rewrite (bool_decide_eq_true_2 (a = a)) by done.
      rewrite (bool_decide_eq_true_2 (a ∈ a :: l)) by (apply elem_of_cons; by left).
      case_bool_decide; [apply vacate_vacate | done].
    + rewrite (bool_decide_eq_false_2 (r = a)) by done.
      apply (f_equal (λ b : bool, if b then _ else _)).
      apply bool_decide_ext. rewrite elem_of_cons. tauto.
Qed.

Lemma member_vacate k index' index r x :
  JSMap.get r index' = vacate k (JSMap.get r index) →
  member index' r x ↔ member index r x ∧ x ≠ k.
Proof.
  intros Hg. unfold member. rewrite Hg.
  destruct (JSMap.get r index) as [m|]; simpl.
  - case_bool_decide as Hs.
    + apply size_0_nil in Hs. split.
      * intros (? & [=] & _).
      * intros [(m' & [= <-] & Hx) Hne].
        assert (x ∈ JSSet.delete k m) as Hin by (apply elem_of_delete; done).
        rewrite Hs in Hin. by apply elem_of_nil in Hin.
    + split.
      * intros (m' & [= <-] & Hx). apply elem_of_delete in Hx as [? ?]. eauto.
      * intros [(m' & [= <-] & Hx) Hne]. eexists. split; [done|].
        by apply elem_of_delete.
  - split; [intros (? & [=] & _) | intros [(? & [=] & _) _]].
Qed.

Lemma member_leave_all k l index r x :
  member (leave_all k l index) r x ↔ member index r x ∧ ¬ (x = k ∧ r ∈ l).
Proof.
  pose proof (get_leave_all k l index r) as Hg. case_bool_decide as Hr.
  - rewrite (member_vacate k _ index) by done. tauto.
  - unfold member. rewrite Hg. tauto.
Qed.

(** ** Join and leave *)

Lemma handleMessage_unregistered k message st :
  JSMap.get k (activeConnections st) = None → handleMessage k message st = (Normal (), st).
Proof. intros Hg. unfold handleMessage, bind, read. by rewrite Hg. Qed.

Lemma handleMessage_join k s r st :
  registered st k s → handleMessage k (RoomJoin r) st = saveState (joined k s r st).
Proof. intros Hg. unfold handleMessage, bind at 1, read. by rewrite Hg. Qed.

Lemma handleMessage_leave k s r st :
  registered st k s → handleMessage k (RoomLeave r) st = saveState (left k s r st).
Proof. intros Hg. unfold handleMessage, bind at 1, read. by rewrite Hg. Qed.

Lemma membership_saveState st : membership (saveState st).2 = membership st.
Proof.
  unfold membership. destruct (saveState_frame st) as (-> & -> & _). done.
Qed.

Lemma joined_conns k s r st :
  activeConnections (joined k s r st)
  = JSMap.alter (λ s, with_rooms (JSSet.add (String_ r) (rooms s)) s) k (activeConnections st).
Proof. unfold joined. simpl. by destruct (JSMap.has _ _). Qed.

Lemma joined_rooms k s r st :
  roomParticipants (joined k s r st)
  = JSMap.alter (JSSet.add (id s)) (String_ r)
      (if JSMap.has (String_ r) (roomParticipants st) then roomParticipants st
       else JSMap.set (String_ r) [] (roomParticipants st)).
Proof. unfold joined. simpl. by destruct (JSMap.has _ _). Qed.

Lemma left_conns k s r st :
  activeConnections (left k s r st)
  = JSMap.alter (λ s, with_rooms (JSSet.delete (String_ r) (rooms s)) s) k
      (activeConnections st).
Proof. done. Qed.

Lemma left_rooms k s r st :
  roomParticipants (left k s r st)
  = JSMap.alter (JSSet.delete (id s)) (String_ r) (roomParticipants st).
Proof. done. Qed.

Lemma get_joined_room k s r st :
  JSMap.get (String_ r) (roomParticipants (joined k s r st))
  = Some (JSSet.add (id s) (default [] (JSMap.get (String_ r) (roomParticipants st)))).
Proof.
  rewrite joined_rooms, get_alter_eq. unfold JSMap.has.
  destruct (JSMap.get (String_ r) (roomParticipants st)) as [m|] eqn:Hg.
  - by rewrite Hg.
  - by rewrite get_set_eq.
Qed.

Lemma get_joined_room_ne k s r st room :
  room ≠ String_ r →
  JSMap.get room (roomParticipants (joined k s r st)) = JSMap.get room (roomParticipants st).
Proof.
  intros Hne. rewrite joined_rooms, get_alter_ne by done.
  destruct (JSMap.has _ _); [done|]. by apply get_set_ne.
Qed.

(** ** The data-model invariant *)

Lemma invariant_ext st st' :
  activeConnections st' = activeConnections st →
  roomParticipants st' = roomParticipants st →
  initialized st' = initialized st →
  invariant st → invariant st'.
Proof.
  unfold invariant, well_formed, consistent, registered, in_room.
  intros -> -> ->. done.
Qed.

Lemma invariant_saveState st : invariant st → invariant (saveState st).2.
Proof.
  destruct (saveState_frame st) as (Hc & Hr & Hi & _).
  by apply invariant_ext.
Qed.

Lemma registered_initialized st k s :
  well_formed st → registered st k s → initialized st = true.
Proof.
  intros [Hinit _] Hreg. destruct (initialized st); [done|].
  unfold registered in Hreg. by rewrite Hinit in Hreg.
Qed.

Lemma invariant_evict k s st :
  registered st k s → invariant st → invariant (evict k s st).
Proof.
  intros Hreg [Hwf Hcons]. pose proof (registered_initialized _ _ _ Hwf Hreg) as Hinit.
  destruct Hwf as [_ Hids].
  assert (∀ k' s', registered (evict k s st) k' s' → k' ≠ k ∧ registered st k' s') as Hback.
  { unfold registered, evict. simpl. intros k' s' Hg.
    destruct (decide (k = k')) as [->|Hne].
    - by rewrite get_delete_eq in Hg.
    - rewrite get_delete_ne in Hg by done. split; [congruence | done]. }
  split; [split|].
  - unfold evict. simpl. congruence.
  - intros k' s' Hg. apply Hback in Hg as [_ Hg]. by apply Hids.
  - intros k' s' Hg room. apply Hback in Hg as [Hne Hg].
    unfold in_room, evict. simpl. rewrite member_leave_all.
    rewrite <- (Hcons k' s' Hg room). unfold in_room. tauto.
Qed.

Lemma invariant_handleSessionClose k st :
  invariant st → invariant (handleSessionClose k st).2.
Proof.
  intros Hinv. destruct (JSMap.get k (activeConnections st)) as [s|] eqn:Hg.
  - rewrite (handleSessionClose_registered k s) by done.
    by apply invariant_saveState, invariant_evict.
  - by rewrite handleSessionClose_unregistered.
Qed.

Lemma invariant_joined k s r st :
  registered st k s → invariant st → invariant (joined k s r st).
Proof.
  intros Hreg [Hwf Hcons]. pose proof (registered_initialized _ _ _ Hwf Hreg) as Hinit.
  destruct Hwf as [_ Hids]. pose proof (Hids k s Hreg) as Hid.
  assert (∀ k' s', registered (joined k s r st) k' s' →
            (k' = k ∧ s' = with_rooms (JSSet.add (String_ r) (rooms s)) s) ∨
            (k' ≠ k ∧ registered st k' s')) as Hback.
  { unfold registered. intros k' s'. rewrite joined_conns.
    destruct (decide (k = k')) as [<-|Hne].
    - rewrite get_alter_eq, Hreg. simpl. intros [= <-]. by left.
    - rewrite get_alter_ne by done. right. split; [congruence | done]. }
  split; [split|].
  - unfold joined. simpl. destruct (negb _); simpl; congruence.
  - intros k' s' Hg. apply Hback in Hg as [[-> ->] | [_ Hg]]; [done | by apply Hids].
  - intros k' s' Hg room. unfold in_room, member.
    destruct (decide (room = String_ r)) as [->|Hroom].
    + rewrite get_joined_room, Hid.
      apply Hback in Hg as [[-> ->] | [Hne Hg]].
      * simpl. split.
        -- intros _. apply elem_of_add. by left.
        -- intros _. eexists. split; [done|]. apply elem_of_add. by left.
      * rewrite <- (Hcons k' s' Hg (String_ r)). unfold in_room, member.
        destruct (JSMap.get (String_ r) (roomParticipants st)) as [m|]; simpl.
        -- split.
           ++ intros (? & [= <-] & Hx). apply elem_of_add in Hx as [? | ?]; [done|].
              by eexists.
           ++ intros (? & [= <-] & Hx). eexists. split; [done|].
              apply elem_of_add. by right.
        -- split.
           ++ intros (? & [= <-] & Hx). apply elem_of_add in Hx as [? | Hx]; [done|].
              by apply elem_of_nil in Hx.
           ++ intros (? & [=] & _).
    + rewrite get_joined_room_ne by done.
      apply Hback in Hg as [[-> ->] | [Hne Hg]].
      * simpl. rewrite elem_of_add. specialize (Hcons k s Hreg room).
        unfold in_room, member in Hcons. rewrite Hcons. tauto.
      * apply (Hcons k' s' Hg room).
Qed.

Lemma member_alter_delete index room sid r x :
  member (JSMap.alter (JSSet.delete sid) room index) r x
  ↔ member index r x ∧ ¬ (x = sid ∧ r = room).
Proof.
  unfold member. destruct (decide (room = r)) as [->|Hne].
  - rewrite get_alter_eq. destruct (JSMap.get r index) as [m|]; simpl.
    + split.
      * intros (? & [= <-] & Hx). apply elem_of_delete in Hx as [? ?].
        split; [by eexists | tauto].
      * intros [(? & [= <-] & Hx) Hno]. eexists. split; [done|].
        apply elem_of_delete. split; [|done]. intros ->. tauto.
    + split; [intros (? & [=] & _) | intros [(? & [=] & _) _]].
  - rewrite get_alter_ne by done. split; [|tauto].
    intros Hm. split; [done|]. intros [_ ->]. done.
Qed.

Lemma invariant_left k s r st :
  registered st k s → invariant st → invariant (left k s r st).
Proof.
  intros Hreg [Hwf Hcons]. pose proof (registered_initialized _ _ _ Hwf Hreg) as Hinit.
  destruct Hwf as [_ Hids]. pose proof (Hids k s Hreg) as Hid.
  assert (∀ k' s', registered (left k s r st) k' s' →
            (k' = k ∧ s' = with_rooms (JSSet.delete (String_ r) (rooms s)) s) ∨
            (k' ≠ k ∧ registered st k' s')) as Hback.
  { unfold registered, left. simpl. intros k' s'.
    destruct (decide (k = k')) as [<-|Hne].
    - rewrite get_alter_eq, Hreg. simpl. intros [= <-]. by left.
    - rewrite get_alter_ne by done. right. split; [congruence | done]. }
  split; [split|].
  - unfold left. simpl. congruence.
  - intros k' s' Hg. apply Hback in Hg as [[-> ->] | [_ Hg]]; [done | by apply Hids].
  - intros k' s' Hg room. unfold in_room, left. simpl.
    rewrite member_alter_delete, Hid.
    apply Hback in Hg as [[-> ->] | [Hne Hg]].
    + simpl. rewrite elem_of_delete. specialize (Hcons k s Hreg room).
      unfold in_room in Hcons. rewrite Hcons. tauto.
    + specialize (Hcons k' s' Hg room). unfold in_room in Hcons.
      rewrite <- Hcons. tauto.
Qed.

Lemma invariant_handleMessage k message st :
  invariant st → invariant (handleMessage k message st).2.
Proof.
  intros Hinv. destruct (JSMap.get k (activeConnections st)) as [s|] eqn:Hg.
  - destruct message as [r|r|t].
    + rewrite (handleMessage_join k s) by done.
      by apply invariant_saveState, invariant_joined.
    + rewrite (handleMessage_leave k s) by done.
      by apply invariant_saveState, invariant_left.
    + unfold handleMessage, bind, read. by rewrite Hg.
  - by rewrite handleMessage_unregistered.
Qed.

(** ** Loops *)

Lemma for_of_preserves {A S} (P : WebSocketConnection → Prop)
    (body : A → S → Eff S) l acc st :
  (∀ x acc st, P st → P (body x acc st).2) → P st → P (for_of l body acc st).2.
Proof.
  intros Hbody. revert acc st. induction l as [|x l IH]; intros acc st HP; [done|].
  simpl. unfold bind. specialize (Hbody x acc st HP).
  destruct (body x acc st) as [[acc'|e] st1]; simpl in *; [by apply IH | done].
Qed.

Lemma invariant_initialize st : invariant st → invariant (initialize st).2.
Proof.
  intros Hinv. unfold initialize.
  destruct (initialized st) eqn:Hi; [done|].
  destruct Hinv as [[Hinit Hids] Hcons]. specialize (Hinit Hi).
  split; [split|]; simpl.
  - done.
  - unfold registered. simpl. rewrite Hinit. done.
  - unfold consistent, registered. simpl. rewrite Hinit. done.
Qed.

Lemma invariant_send session frame st : invariant st → invariant (send session frame st).2.
Proof. by apply invariant_ext. Qed.

Lemma invariant_broadcast_all frame st :
  invariant st → invariant (broadcast_all frame st).2.
Proof.
  intros Hinv. unfold broadcast_all, bind at 1, read. simpl.
  apply (for_of_preserves invariant); [|done].
  clear. intros key count st Hinv. unfold global_turn, bind at 1. simpl.
  destruct (JSMap.get key (activeConnections st)) as [session|]; [|done].
  destruct (is_open (socket session)).
  - unfold bind. simpl. by apply invariant_send.
  - unfold bind. pose proof (invariant_handleSessionClose (id session) st Hinv) as H.
    by destruct (handleSessionClose (id session) st) as [[[]|e] st1].
Qed.

Lemma invariant_forget sid room st :
  JSMap.get sid (activeConnections st) = None →
  invariant st →
  invariant (with_roomParticipants
               (JSMap.alter (JSSet.delete sid) room (roomParticipants st)) st).
Proof.
  intros Hnone [Hwf Hcons]. split; [done|].
  intros k s Hreg r. unfold in_room. simpl. rewrite member_alter_delete.
  unfold registered in Hreg. simpl in Hreg.
  rewrite <- (Hcons k s Hreg r). unfold in_room.
  split; [tauto|]. intros Hm. split; [done|]. intros [-> _]. congruence.
Qed.

Lemma invariant_broadcast_room frame room targets st :
  invariant st → invariant (broadcast_room frame room targets st).2.
Proof.
  intros Hinv. unfold broadcast_room.
  apply (for_of_preserves invariant); [|done].
  clear. intros sid count st Hinv. unfold room_turn, bind at 1. simpl.
  destruct (JSMap.get sid (activeConnections st)) as [session|] eqn:Hg.
  - destruct (is_open (socket session)).
    + unfold bind. simpl. by apply invariant_send.
    + unfold bind. pose proof (invariant_handleSessionClose sid st Hinv) as H.
      by destruct (handleSessionClose sid st) as [[[]|e] st1].
  - unfold bind. simpl. by apply invariant_forget.
Qed.

Lemma invariant_handleBroadcast request st :
  invariant st → invariant (handleBroadcast request st).2.
Proof.
  intros Hinv. apply invariant_initialize in Hinv.
  unfold handleBroadcast, bind at 1.
  destruct (initialize st) as [[[]|e] st0]; simpl in *; [|done].
  destruct (negb _); [done|].
  unfold try_catch, bind at 1.
  destruct (body request) as [raw|]; simpl; [|done].
  unfold bind at 1.
  destruct (BroadcastMessageSchema (Some raw)) as [m|]; simpl; [|done].
  destruct (is_global (type m)).
  - unfold bind. pose proof (invariant_broadcast_all m st0 Hinv) as H.
    by destruct (broadcast_all m st0) as [[n|e] st1].
  - destruct (negb (truthy _)); [done|].
    unfold bind at 1, read. simpl.
    destruct (JSMap.get _ (roomParticipants st0)) as [targets|]; [|done].
    unfold bind at 1.
    pose proof (invariant_broadcast_room m (String_or_null (payload_roomId (payload m)))
                  targets st0 Hinv) as H.
    destruct (broadcast_room _ _ _ st0) as [[n|e] st1]; simpl in *; [|done].
    unfold bind. apply invariant_saveState in H.
    by destruct (saveState st1) as [[[]|e] st2].
Qed.

(** ** The room loop of the broadcast *)

Lemma room_turn_unregistered frame room sid c st :
  JSMap.get sid (activeConnections st) = None →
  room_turn frame room sid c st
  = (Normal c, with_roomParticipants
                 (JSMap.alter (JSSet.delete sid) room (roomParticipants st)) st).
Proof. intros Hg. unfold room_turn, bind at 1, read. by rewrite Hg. Qed.

Lemma room_turn_open frame room sid s c st :
  registered st sid s → is_open (socket s) = true →
  room_turn frame room sid c st
  = (Normal (S c), with_wire (wire st ++ [(id s, frame)]) st).
Proof. intros Hg Ho. unfold room_turn, bind at 1, read. by rewrite Hg, Ho. Qed.

Lemma room_turn_stale frame room sid s c st :
  registered st sid s → is_open (socket s) = false →
  room_turn frame room sid c st
  = match saveState (evict sid s st) with
    | (Normal _, st1) => (Normal c, st1)
    | (Throw e, st1) => (Throw e, st1)
    end.
Proof.
  intros Hg Ho. unfold room_turn, bind at 1, read. rewrite Hg, Ho.
  unfold bind. rewrite (handleSessionClose_registered sid s) by done.
  by destruct (saveState _) as [[[]|e] st1].
Qed.

Lemma evict_shrinks k s st :
  (∀ x, JSMap.get x (activeConnections st) = None →
        JSMap.get x (activeConnections (evict k s st)) = None) ∧
  (∀ r x, in_room (evict k s st) r x → in_room st r x).
Proof.
  split.
  - intros x Hx. unfold evict. simpl. destruct (decide (k = x)) as [->|Hne].
    + apply get_delete_eq.
    + by rewrite get_delete_ne.
  - intros r x. unfold in_room, evict. simpl. rewrite member_leave_all. tauto.
Qed.

Lemma shrinks_refl st : shrinks st st.
Proof. by split. Qed.

Lemma shrinks_trans st1 st2 st3 : shrinks st1 st2 → shrinks st2 st3 → shrinks st1 st3.
Proof. intros [H1 H2] [H3 H4]. split; eauto. Qed.

Lemma shrinks_saveState st : shrinks st (saveState st).2.
Proof.
  destruct (saveState_frame st) as (Hc & Hr & _).
  unfold shrinks, in_room. rewrite Hc, Hr. by split.
Qed.

Lemma room_turn_shrinks frame room sid c st :
  shrinks st (room_turn frame room sid c st).2.
Proof.
  destruct (JSMap.get sid (activeConnections st)) as [s|] eqn:Hg.
  - destruct (is_open (socket s)) eqn:Ho.
    + rewrite (room_turn_open frame room sid s) by done. by split.
    + rewrite (room_turn_stale frame room sid s) by done.
      pose proof (shrinks_saveState (evict sid s st)) as Hs.
      assert (shrinks st (evict sid s st)) as He by apply evict_shrinks.
      destruct (saveState _) as [[[]|e] st1]; simpl in *; by eapply shrinks_trans.
  - rewrite room_turn_unregistered by done. split; [done|].
    intros r x. unfold in_room. simpl. rewrite member_alter_delete. tauto.
Qed.

Lemma room_loop_shrinks frame room targets c st :
  shrinks st (for_of targets (room_turn frame room) c st).2.
Proof.
  apply (for_of_preserves (shrinks st)); [|apply shrinks_refl].
  intros x acc st' Hs. eapply shrinks_trans; [done | apply room_turn_shrinks].
Qed.

Lemma live_evict k s st x :
  registered st k s → is_open (socket s) = false →
  live (evict k s st) x = live st x.
Proof.
  intros Hg Ho. unfold live, evict. simpl. destruct (decide (k = x)) as [<-|Hne].
  - by rewrite get_delete_eq, Hg, Ho.
  - by rewrite get_delete_ne.
Qed.

Lemma live_saveState st x : live (saveState st).2 x = live st x.
Proof. unfold live. by destruct (saveState_frame st) as (-> & _). Qed.

Lemma room_turn_reliable frame room sid c st :
  reliable st →
  ∃ st1,
    room_turn frame room sid c st = (Normal (c + length (open_targets st [sid])), st1) ∧
    reliable st1 ∧
    wire st1 = (wire st ++ ((λ s, (id s, frame)) <$> open_targets st [sid]))%list ∧
    (∀ x, live st1 x = live st x) ∧
    (∀ x, x ≠ sid → JSMap.get x (activeConnections st1) = JSMap.get x (activeConnections st)) ∧
    (stale st sid = true →
       JSMap.get sid (activeConnections st1) = None ∧
       ∀ s r, registered st sid s → r ∈ rooms s → ¬ in_room st1 r sid).
Proof.
  intros Hrel. unfold stale.
  destruct (JSMap.get sid (activeConnections st)) as [s|] eqn:Hg.
  - destruct (is_open (socket s)) eqn:Ho; cbn [negb].
    + assert (open_targets st [sid] = [s]) as ->.
      { unfold open_targets, live. simpl. by rewrite Hg, Ho. }
      rewrite (room_turn_open frame room sid s) by done.
      eexists. split; [f_equal; f_equal; simpl; lia|].
      repeat split; try done.
    + assert (open_targets st [sid] = []) as ->.
      { unfold open_targets, live. simpl. by rewrite Hg, Ho. }
      rewrite (room_turn_stale frame room sid s) by done.
      assert (reliable (evict sid s st)) as Hrel' by done.
      destruct (saveState_reliable _ Hrel') as [Hn Hr].
      destruct (saveState_frame (evict sid s st)) as (Hc & Hrp & _ & Hw).
      pose proof (live_saveState (evict sid s st)) as Hl.
      destruct (saveState (evict sid s st)) as [r st1]. simpl in *. subst r.
      exists st1. split; [f_equal; f_equal; lia|].
      split; [done|]. split; [by rewrite Hw, app_nil_r|].
      split; [intros x; rewrite Hl; by apply live_evict|].
      split.
      * intros x Hx. rewrite Hc. by apply get_delete_ne.
      * intros _. split; [rewrite Hc; apply get_delete_eq|].
        intros s' r Hreg Hr'. unfold registered in Hreg. rewrite Hg in Hreg.
        injection Hreg as <-. unfold in_room. rewrite Hrp.
        rewrite member_leave_all. tauto.
  - assert (open_targets st [sid] = []) as ->.
    { unfold open_targets, live. simpl. by rewrite Hg. }
    rewrite room_turn_unregistered by done.
    eexists. split; [f_equal; f_equal; simpl; lia|].
    repeat split; try done. simpl. by rewrite app_nil_r.
Qed.

Lemma open_targets_ext st st' targets :
  (∀ x, live st' x = live st x) → open_targets st' targets = open_targets st targets.
Proof.
  intros Hl. unfold open_targets. induction targets as [|a l IH]; [done|].
  cbn [omap list_omap]. by rewrite Hl, IH.
Qed.

Lemma broadcast_room_reliable frame room targets c st :
  reliable st →
  ∃ st',
    for_of targets (room_turn frame room) c st
      = (Normal (c + length (open_targets st targets)), st') ∧
    reliable st' ∧
    wire st' = (wire st ++ ((λ s, (id s, frame)) <$> open_targets st targets))%list ∧
    (∀ k, k ∈ targets → stale st k = true →
       JSMap.get k (activeConnections st') = None ∧
       ∀ s r, registered st k s → r ∈ rooms s → ¬ in_room st' r k).
Proof.
  revert c st. induction targets as [|a l IH]; intros c st Hrel.
  - exists st. simpl. unfold ret. split; [f_equal; f_equal; lia|].
    split; [done|]. split; [by rewrite app_nil_r|].
    intros k Hk. by apply elem_of_nil in Hk.
  - destruct (room_turn_reliable frame room a c st Hrel)
      as (st1 & Hstep & Hrel1 & Hw1 & Hl1 & Hother & Hgone).
    destruct (IH (c + length (open_targets st [a])) st1 Hrel1)
      as (st' & Hloop & Hrel' & Hw' & Hrest).
    pose proof (room_loop_shrinks frame room l (c + length (open_targets st [a])) st1)
      as [Hs1 Hs2].
    rewrite Hloop in Hs1, Hs2. simpl in Hs1, Hs2.
    rewrite (open_targets_ext st st1) in Hloop, Hw' by done.
    assert (open_targets st (a :: l) = (open_targets st [a] ++ open_targets st l)%list) as Happ.
    { unfold open_targets. simpl. by destruct (live st a). }
    exists st'. split.
    { cbn [for_of]. unfold bind. rewrite Hstep, Hloop, Happ, length_app.
      f_equal. f_equal. lia. }
    split; [done|]. split.
    { rewrite Hw', Hw1, Happ, fmap_app. by rewrite app_assoc. }
    intros k Hk Hstale. destruct (decide (k = a)) as [->|Hne].
    + destruct (Hgone Hstale) as [Hnone Hout]. split; [by apply Hs1|].
      intros s r Hreg Hr Hin. by eapply Hout, Hs2.
    + apply elem_of_cons in Hk as [?|Hk]; [done|].
      assert (stale st1 k = true) as Hstale1.
      { unfold stale in *. by rewrite Hother. }
      destruct (Hrest k Hk Hstale1) as [Hnone Hout]. split; [done|].
      intros s r Hreg. apply Hout. unfold registered in *. by rewrite Hother.
Qed.

(** ** The broadcast endpoint *)

Lemma initialize_initialized st : initialized st = true → initialize st = (Normal (), st).
Proof. intros Hi. unfold initialize. by rewrite Hi. Qed.

Lemma initialize_frame st :
  (initialize st).1 = Normal () ∧
  activeConnections (initialize st).2 = activeConnections st ∧
  wire (initialize st).2 = wire st ∧
  putFaults (initialize st).2 = putFaults st.
Proof. unfold initialize. by destruct (initialized st). Qed.

Lemma ready_frame st :
  initialized (ready st) = true ∧
  activeConnections (ready st) = activeConnections st ∧
  wire (ready st) = wire st ∧
  putFaults (ready st) = putFaults st.
Proof. unfold ready, exec, initialize. by destruct (initialized st) eqn:Hi. Qed.

Lemma ready_initialized st : initialized st = true → ready st = st.
Proof. intros Hi. unfold ready, exec. by rewrite initialize_initialized. Qed.

Lemma handleBroadcast_ready request st :
  handleBroadcast request st = handleBroadcast request (ready st).
Proof.
  destruct (ready_frame st) as (Hi & _).
  pose proof (initialize_initialized (ready st) Hi) as Hready.
  destruct (initialize_frame st) as (Hn & _).
  unfold handleBroadcast, bind. rewrite Hready.
  unfold ready, exec. destruct (initialize st) as [res st0]. simpl in Hn. by subst res.
Qed.

Lemma handleBroadcast_invalid raw st :
  BroadcastMessageSchema (Some raw) = None →
  handleBroadcast (POST raw) st = (Normal InternalServerError, (initialize st).2).
Proof.
  intros Hbad. unfold handleBroadcast, bind at 1.
  destruct (initialize_frame st) as (Hn & _).
  destruct (initialize st) as [r st0]. simpl in Hn. subst r. simpl.
  unfold try_catch, bind at 1. simpl. unfold bind at 1. by rewrite Hbad.
Qed.

(* The schema asks of the tag only that it is a string. *)
Lemma any_string_tag_validates tag pl p :
  PayloadSchema (Some pl) = Some p →
  BroadcastMessageSchema (Some (Sample.envelope tag pl))
  = Some {| type := tag; payload := p |}.
Proof.
  intros Hp. unfold BroadcastMessageSchema, Sample.envelope, Zod.key. simpl.
  by rewrite Hp.
Qed.

Lemma handleBroadcast_room raw m room st :
  initialized st = true →
  BroadcastMessageSchema (Some raw) = Some m →
  room_scoped m room →
  handleBroadcast (POST raw) st
  = match JSMap.get room (roomParticipants st) with
    | None => (Normal RoomNotFound, st)
    | Some targets =>
        match broadcast_room m room targets st with
        | (Normal n, st1) =>
            match saveState st1 with
            | (Normal _, st2) => (Normal (OK n), st2)
            | (Throw _, st2) => (Normal InternalServerError, st2)
            end
        | (Throw _, st1) => (Normal InternalServerError, st1)
        end
    end.
Proof.
  intros Hi Hm (Hg & Ht & <-). unfold handleBroadcast, bind at 1.
  rewrite initialize_initialized by done. simpl.
  unfold try_catch, bind at 1. simpl. unfold bind at 1. rewrite Hm. simpl.
  rewrite Hg, Ht. simpl. unfold bind at 1, read. simpl.
  destruct (JSMap.get _ (roomParticipants st)) as [targets|]; [|done].
  unfold bind at 1.
  destruct (broadcast_room m _ targets st) as [[n|e] st1]; [|done].
  unfold bind. by destruct (saveState st1) as [[[]|e] st2].
Qed.

Lemma handleBroadcast_no_room raw m st :
  BroadcastMessageSchema (Some raw) = Some m →
  is_global (type m) = false →
  payload_roomId (payload m) = None →
  handleBroadcast (POST raw) st = (Normal RoomIdRequired, (initialize st).2).
Proof.
  intros Hm Hg Hno. unfold handleBroadcast, bind at 1.
  destruct (initialize_frame st) as (Hn & _).
  destruct (initialize st) as [r st0]. simpl in Hn. subst r. simpl.
  unfold try_catch, bind at 1. simpl. unfold bind at 1. rewrite Hm. simpl.
  by rewrite Hg, Hno.
Qed.

(** ** The sweep *)

Lemma sweep_turn_keep k st :
  stale st k = false → sweep_turn k () st = (Normal (), st).
Proof.
  unfold stale, sweep_turn, bind, read.
  destruct (JSMap.get k (activeConnections st)) as [s|]; [|done].
  by intros ->.
Qed.

Lemma sweep_turn_evict k s st :
  registered st k s → is_open (socket s) = false →
  sweep_turn k () st = saveState (evict k s st).
Proof.
  intros Hg Ho. unfold sweep_turn, bind, read. rewrite Hg, Ho. simpl.
  by apply handleSessionClose_registered.
Qed.

Lemma sweep_turn_registry k st x :
  JSMap.get x (activeConnections (sweep_turn k () st).2)
  = if bool_decide (x = k) then live st k else JSMap.get x (activeConnections st).
Proof.
  unfold live. destruct (stale st k) eqn:Hs.
  - unfold stale in Hs. destruct (JSMap.get k (activeConnections st)) as [s|] eqn:Hg; [|done].
    apply negb_true_iff in Hs. rewrite (sweep_turn_evict k s) by done. rewrite Hs.
    destruct (saveState_frame (evict k s st)) as (-> & _).
    unfold evict. simpl. case_bool_decide as Hx.
    + subst. apply get_delete_eq.
    + by apply get_delete_ne.
  - rewrite sweep_turn_keep by done. simpl. case_bool_decide as Hx; [subst|done].
    unfold stale in Hs. destruct (JSMap.get k (activeConnections st)) as [s|]; [|done].
    apply negb_false_iff in Hs. by rewrite Hs.
Qed.



Lemma sweep_reliable l st :
  reliable st →
  ∃ st', for_of l sweep_turn () st = (Normal (), st') ∧
    reliable st' ∧
    ∀ k, JSMap.get k (activeConnections st')
         = if bool_decide (k ∈ l) then live st k else JSMap.get k (activeConnections st).
Proof.
  revert st. induction l as [|a l IH]; intros st Hrel.
  - exists st. split; [done|]. split; [done|]. intros k.
    rewrite bool_decide_eq_false_2; [done | apply not_elem_of_nil].
  - pose proof (sweep_turn_registry a st) as Hreg.
    assert (∃ st1, sweep_turn a () st = (Normal (), st1) ∧ reliable st1) as (st1 & Hturn & Hrel1).
    { destruct (stale st a) eqn:Hs.
      - unfold stale in Hs.
        destruct (JSMap.get a (activeConnections st)) as [s|] eqn:Hg; [|done].
        apply negb_true_iff in Hs. rewrite (sweep_turn_evict a s) by done.
        assert (reliable (evict a s st)) as Hrel' by done.
        destruct (saveState_reliable _ Hrel') as [Hn Hr].
        destruct (saveState (evict a s st)) as [r st1]. simpl in *. subst r. eauto.
      - rewrite sweep_turn_keep by done. eauto. }
    rewrite Hturn in Hreg. simpl in Hreg.
    destruct (IH st1 Hrel1) as (st' & Hloop & Hrel' & Hget).
    exists st'. split; [cbn [for_of]; unfold bind; by rewrite Hturn|].
    split; [done|]. intros k. rewrite Hget.
    assert (live st1 k = live st k) as Hlive.
    { unfold live at 1. rewrite Hreg. case_bool_decide as Hk; [|done].
      subst k. unfold live. destruct (JSMap.get a (activeConnections st)) as [s|]; [|done].
      destruct (is_open (socket s)) eqn:Ho; [by rewrite Ho | done]. }
    rewrite Hlive, Hreg.
    destruct (decide (k ∈ l)) as [Hin|Hnin].
    + rewrite !bool_decide_eq_true_2; [done | apply elem_of_cons; by right | done].
    + rewrite (bool_decide_eq_false_2 (k ∈ l)) by done.
      destruct (decide (k = a)) as [->|Hne].
      * rewrite !bool_decide_eq_true_2; [done | apply elem_of_cons; by left | done].
      * rewrite !bool_decide_eq_false_2; [done | | done].
        rewrite not_elem_of_cons. done.
Qed.

(* Without a failing write the sweep evicts exactly the non-open sessions. *)
Lemma sweep_without_failure st :
  reliable st →
  outcome cleanupStaleConnections st = Normal () ∧
  ∀ k, JSMap.get k (activeConnections (exec cleanupStaleConnections st)) = live st k.
Proof.
  intros Hrel. unfold outcome, exec, cleanupStaleConnections, bind, read. simpl.
  destruct (sweep_reliable (JSMap.keys (activeConnections st)) st Hrel)
    as (st' & -> & _ & Hget).
  split; [done|]. intros k. simpl. rewrite Hget. case_bool_decide as Hk; [done|].
  unfold live. destruct (JSMap.get k (activeConnections st)) as [s|] eqn:Hg; [|done].
  by apply get_Some_keys in Hg.
Qed.

(** ** The token verifier *)

Section JwtFacts.
Context `{Runtime}.

Lemma expired_without_exp (e : option Z) :
  e = None ∨ e = Some 0%Z → expired e = false.
Proof. by intros [-> | ->]. Qed.

Lemma expired_at_without_exp (now : Z) (e : option Z) :
  e = None ∨ e = Some 0%Z → expired_at now e = false.
Proof. by intros [-> | ->]. Qed.

Lemma decode_well_signed token secret p :
  well_signed token secret p → expired (exp p) = false →
  decode (Some token) secret = Normal p.
Proof.
  intros (Hsecret & h & b & s & headerStr & fields & payloadStr & payloadJson & sig &
          Hsplit & Hh & Hparse & Halg & Hb & Hpparse & Hschema & Hs & Hsig) Hexp.
  unfold decode. destruct token as [|c token]; [done|].
  unfold validateSecret. rewrite bool_decide_eq_false_2 by done. cbn [Pure.bind].
  rewrite Hsplit, Hh. cbn [Pure.bind]. rewrite Hparse. cbn [Pure.bind].
  rewrite Halg. cbn [Pure.bind]. rewrite Hb. cbn [Pure.bind].
  rewrite Hpparse. cbn [Pure.bind]. rewrite Hschema. cbn [Pure.bind].
  rewrite Hs. cbn [Pure.bind]. rewrite Hsig. cbn [negb]. by rewrite Hexp.
Qed.
End JwtFacts.

(** ** Checking the predicates on a given state *)

Lemma in_roomb_true st room sid : in_roomb st room sid = true ↔ in_room st room sid.
Proof.
  unfold in_roomb, in_room, member.
  destruct (JSMap.get room (roomParticipants st)) as [m|].
  - rewrite has_true. split; [by eexists | by intros (? & [= <-] & ?)].
  - split; [done | by intros (? & [=] & _)].
Qed.

Lemma consistentb_sound st : consistentb st = true → consistent st.
Proof.
  unfold consistentb. rewrite forallb_forall. intros Hall k s Hreg room.
  apply get_Some_elem_of, list_elem_of_In in Hreg.
  specialize (Hall _ Hreg). simpl in Hall.
  apply andb_true_iff in Hall as [Hfwd Hbwd].
  rewrite forallb_forall in Hfwd, Hbwd. split.
  - intros Hin. pose proof Hin as (m & Hm & _).
    apply get_Some_keys, list_elem_of_In in Hm. specialize (Hbwd _ Hm).
    apply in_roomb_true in Hin. rewrite Hin in Hbwd. by apply has_true.
  - intros Hin. apply in_roomb_true, Hfwd. by apply list_elem_of_In.
Qed.

Lemma well_formedb_sound st : well_formedb st = true → well_formed st.
Proof.
  unfold well_formedb. rewrite andb_true_iff, forallb_forall.
  intros [Hinit Hids]. split.
  - intros Hi. rewrite Hi in Hinit. simpl in Hinit.
    by apply bool_decide_eq_true in Hinit.
  - intros k s Hreg. apply get_Some_elem_of, list_elem_of_In in Hreg.
    specialize (Hids _ Hreg). by apply bool_decide_eq_true in Hids.
Qed.

(** * The claims *)

(** C1. A room-scoped broadcast to a room that has a Membership Index entry
    returns as recipient count the number of targeted sessions whose
    connection handle is open; the frame goes to exactly those sessions; each
    targeted session whose handle is not open is disconnected inline: it is
    gone from the Registry and from the room's membership, and is not
    counted.  (Storage writes succeed and the state satisfies the data-model
    consistency.) *)
Theorem broadcast_recipients_are_open_sessions st raw m room targets :
  reliable st →
  consistent (ready st) →
  BroadcastMessageSchema (Some raw) = Some m →
  room_scoped m room →
  JSMap.get room (roomParticipants (ready st)) = Some targets →
  outcome (handleBroadcast (POST raw)) st
    = Normal (OK (length (open_targets st targets))) ∧
  wire (exec (handleBroadcast (POST raw)) st)
    = (wire st ++ ((λ s, (id s, m)) <$> open_targets st targets))%list ∧
  ∀ k s, k ∈ targets → registered st k s → is_open (socket s) = false →
    JSMap.get k (activeConnections (exec (handleBroadcast (POST raw)) st)) = None ∧
    ¬ in_room (exec (handleBroadcast (POST raw)) st) room k.
Proof.
  intros Hrel Hcons Hm Hscoped Hroom. unfold outcome, exec.
  destruct (ready_frame st) as (Hi & Hconns & Hwire & Hfaults).
  assert (reliable (ready st)) as Hrel0 by (by apply (reliable_frame st)).
  assert (open_targets (ready st) targets = open_targets st targets) as Hopen.
  { apply open_targets_ext. intros x. unfold live. by rewrite Hconns. }
  rewrite handleBroadcast_ready, (handleBroadcast_room raw m room) by done.
  rewrite Hroom.
  destruct (broadcast_room_reliable m room targets 0 (ready st) Hrel0)
    as (st1 & Hloop & Hrel1 & Hw & Hgone).
  unfold broadcast_room. rewrite Hloop.
  destruct (saveState_reliable st1 Hrel1) as [Hn _].
  destruct (saveState_frame st1) as (Hc & Hrp & _ & Hw2).
  destruct (saveState st1) as [r st2]. simpl in *. subst r. simpl.
  rewrite Hopen in *.
  split; [done|]. split; [by rewrite Hw2, Hw, Hwire|].
  intros k s Hk Hreg Ho.
  assert (registered (ready st) k s) as Hreg0.
  { unfold registered in *. by rewrite Hconns. }
  assert (stale (ready st) k = true) as Hstale.
  { unfold stale. unfold registered in Hreg0. by rewrite Hreg0, Ho. }
  destruct (Hgone k Hk Hstale) as [Hnone Hout].
  split; [by rewrite Hc|].
  unfold in_room. rewrite Hrp. apply (Hout s room Hreg0).
  apply (Hcons k s Hreg0 room). by exists targets.
Qed.

Lemma broadcast_recipients_are_open_sessions_witness :
  outcome (handleBroadcast (POST Sample.chat_envelope)) Sample.three = Normal (OK 2) ∧
  JSMap.get "S2"
    (activeConnections (exec (handleBroadcast (POST Sample.chat_envelope)) Sample.three))
  = None ∧
  ¬ in_room (exec (handleBroadcast (POST Sample.chat_envelope)) Sample.three) "42" "S2".
Proof.
  destruct (broadcast_recipients_are_open_sessions
              Sample.three Sample.chat_envelope Sample.chat_frame
              "42" ["S1"; "S2"; "S3"])
    as (Hout & _ & Hgone).
  - constructor.
  - apply consistentb_sound. reflexivity.
  - reflexivity.
  - repeat split; reflexivity.
  - reflexivity.
  - split; [exact Hout|].
    apply (Hgone "S2" (Sample.session "S2" CLOSED ["42"])).
    + apply (bool_decide_unpack _). reflexivity.
    + reflexivity.
    + reflexivity.
Defined.

(** C2 (as the code has it). An envelope whose payload matches none of the
    known payload shapes, or that has no string tag, is answered with an
    error response, status 500, and reaches no session: nothing is sent and
    the Registry is untouched.  The tag itself is only required to be a
    string. *)
Theorem malformed_envelope_is_an_internal_error st raw :
  BroadcastMessageSchema (Some raw) = None →
  outcome (handleBroadcast (POST raw)) st = Normal InternalServerError ∧
  wire (exec (handleBroadcast (POST raw)) st) = wire st ∧
  activeConnections (exec (handleBroadcast (POST raw)) st) = activeConnections st.
Proof.
  intros Hbad. unfold outcome, exec. rewrite handleBroadcast_invalid by done.
  destruct (initialize_frame st) as (_ & Hc & Hw & _). done.
Qed.

Lemma malformed_envelope_is_an_internal_error_witness :
  outcome (handleBroadcast (POST Sample.empty_payload_envelope)) Sample.three
    = Normal InternalServerError ∧
  wire (exec (handleBroadcast (POST Sample.empty_payload_envelope)) Sample.three) = [].
Proof.
  destruct (malformed_envelope_is_an_internal_error
              Sample.three Sample.empty_payload_envelope) as (Hout & Hw & _).
  - reflexivity.
  - split; [exact Hout | exact Hw].
Defined.

(** C2, counterexample. The unknown tag "not:a:real:tag" on a chat-shaped
    payload for room "42" is not rejected: the call answers 200 and the
    frame is sent to the session in the room. *)
Lemma unknown_tag_is_delivered :
  ¬ invalid_envelope_rejected Sample.alone Sample.unknown_tag_envelope.
Proof.
  intros Hclaim. destruct Hclaim as [(r & Hout & Hstatus) _].
  - intros m Hm. vm_compute in Hm. injection Hm as <-.
    apply (bool_decide_unpack _). reflexivity.
  - vm_compute in Hout. injection Hout as <-. discriminate Hstatus.
Qed.

(** C3 (what the code does). A valid notification:created envelope is not
    treated as global: it takes the room path, carries no roomId, and is
    answered with status 400 "Room ID required for this message type"; no
    session receives it. *)
Theorem notification_created_is_refused st raw m n :
  BroadcastMessageSchema (Some raw) = Some m →
  type m = WS_EVENTS.NOTIFICATION_CREATED →
  payload m = PNotificationCreated n →
  outcome (handleBroadcast (POST raw)) st = Normal RoomIdRequired ∧
  wire (exec (handleBroadcast (POST raw)) st) = wire st.
Proof.
  intros Hm Htype Hpayload. unfold outcome, exec.
  rewrite (handleBroadcast_no_room raw m).
  - destruct (initialize_frame st) as (_ & _ & Hw & _). done.
  - done.
  - by rewrite Htype.
  - by rewrite Hpayload.
Qed.

Lemma notification_created_is_refused_witness :
  outcome (handleBroadcast (POST Sample.notification_created_envelope)) Sample.three
    = Normal RoomIdRequired ∧
  wire (exec (handleBroadcast (POST Sample.notification_created_envelope)) Sample.three) = [].
Proof.
  eapply (notification_created_is_refused Sample.three
            Sample.notification_created_envelope); reflexivity.
Defined.

(** C4 (what the code does). When the only member of a room leaves it, the
    Membership Index keeps the entry of the room, with an empty set. *)
Theorem leave_keeps_the_empty_room st k s r :
  registered st k s →
  JSMap.get (String_ r) (roomParticipants st) = Some [id s] →
  JSMap.get (String_ r)
    (roomParticipants (exec (handleMessage k (RoomLeave r)) st)) = Some [].
Proof.
  intros Hreg Hroom. unfold exec. rewrite (handleMessage_leave k s) by done.
  destruct (saveState_frame (left k s r st)) as (_ & -> & _).
  unfold left. simpl. rewrite get_alter_eq, Hroom. simpl.
  unfold JSSet.delete. by rewrite filter_cons_False, filter_nil by tauto.
Qed.

Lemma leave_keeps_the_empty_room_witness :
  roomParticipants (exec (handleMessage "S1" (RoomLeave (Str "42"))) Sample.alone)
    = [("42", [])] ∧
  JSMap.get "42"
    (roomParticipants (exec (handleMessage "S1" (RoomLeave (Str "42"))) Sample.alone))
    = Some [].
Proof.
  split; [reflexivity|].
  apply (leave_keeps_the_empty_room Sample.alone "S1"
           (Sample.session "S1" OPEN ["42"]) (Str "42")); reflexivity.
Defined.

(** C5. After handleSessionClose for a registered session S joined to
    rooms R1..Rn, S's id is in none of their membership sets, none of these
    rooms is left with an empty entry, S is no longer in the Registry, and a
    second call changes nothing. *)
Theorem disconnect_cleans_all_rooms st k s :
  registered st k s →
  (∀ room, room ∈ rooms s →
     ¬ in_room (exec (handleSessionClose k) st) room k ∧
     JSMap.get room (roomParticipants (exec (handleSessionClose k) st)) ≠ Some []) ∧
  JSMap.get k (activeConnections (exec (handleSessionClose k) st)) = None ∧
  handleSessionClose k (exec (handleSessionClose k) st)
    = (Normal (), exec (handleSessionClose k) st).
Proof.
  intros Hreg. unfold exec. rewrite (handleSessionClose_registered k s) by done.
  destruct (saveState_frame (evict k s st)) as (Hc & Hrp & _).
  assert (JSMap.get k (activeConnections (saveState (evict k s st)).2) = None) as Hnone.
  { rewrite Hc. unfold evict. simpl. apply get_delete_eq. }
  split; [|split; [done | by apply handleSessionClose_unregistered]].
  intros room Hroom. unfold in_room. rewrite Hrp. unfold evict. simpl. split.
  - rewrite member_leave_all. tauto.
  - rewrite get_leave_all, bool_decide_eq_true_2 by done.
    destruct (JSMap.get room (roomParticipants st)) as [members|]; simpl; [|done].
    case_bool_decide as Hsize; [done|].
    intros [= Hnil]. apply Hsize. by rewrite Hnil.
Qed.

Lemma disconnect_cleans_all_rooms_witness :
  JSMap.get "S2" (activeConnections (exec (handleSessionClose "S2") Sample.three)) = None ∧
  ¬ in_room (exec (handleSessionClose "S2") Sample.three) "42" "S2".
Proof.
  destruct (disconnect_cleans_all_rooms Sample.three "S2"
              (Sample.session "S2" CLOSED ["42"])) as (Hrooms & Hgone & _).
  - reflexivity.
  - split; [exact Hgone|]. apply (Hrooms "42").
    apply (bool_decide_unpack _). reflexivity.
Defined.

(** C6. From a state in which every registered session is listed in a
    room's membership set exactly when its rooms set contains the room, a
    join, a leave, a disconnect and a broadcast (global or room-scoped, with
    its inline cleanup, whatever the request and whether or not a storage
    write fails) each lead to a state with the same consistency for the
    sessions that remain registered. *)
Theorem operations_preserve_consistency st (k : string) (r : StrOrNum) (request : Request) :
  well_formed st →
  consistent st →
  invariant (exec (handleMessage k (RoomJoin r)) st) ∧
  invariant (exec (handleMessage k (RoomLeave r)) st) ∧
  invariant (exec (handleSessionClose k) st) ∧
  invariant (exec (handleBroadcast request) st).
Proof.
  intros Hwf Hcons. assert (invariant st) as Hinv by done. unfold exec.
  split; [by apply invariant_handleMessage|].
  split; [by apply invariant_handleMessage|].
  split; [by apply invariant_handleSessionClose|].
  by apply invariant_handleBroadcast.
Qed.

Lemma operations_preserve_consistency_witness :
  consistent (exec (handleMessage "S1" (RoomJoin (Num 7))) Sample.three) ∧
  consistent (exec (handleMessage "S1" (RoomLeave (Str "42"))) Sample.three) ∧
  consistent (exec (handleSessionClose "S2") Sample.three) ∧
  consistent (exec (handleBroadcast (POST Sample.chat_envelope)) Sample.three).
Proof.
  destruct (operations_preserve_consistency Sample.three "S1" (Num 7)
              (POST Sample.chat_envelope)) as ([_ Hjoin] & _ & _ & [_ Hcast]).
  { apply well_formedb_sound. reflexivity. }
  { apply consistentb_sound. reflexivity. }
  destruct (operations_preserve_consistency Sample.three "S1" (Str "42")
              (POST Sample.chat_envelope)) as (_ & [_ Hleave] & _ & _).
  { apply well_formedb_sound. reflexivity. }
  { apply consistentb_sound. reflexivity. }
  destruct (operations_preserve_consistency Sample.three "S2" (Str "42")
              (POST Sample.chat_envelope)) as (_ & _ & [_ Hclose] & _).
  { apply well_formedb_sound. reflexivity. }
  { apply consistentb_sound. reflexivity. }
  exact (conj Hjoin (conj Hleave (conj Hclose Hcast))).
Defined.

(** C7. A room-scoped broadcast is answered with 404 "Room not found"
    exactly when the Membership Index has no entry for the target room; when
    the entry exists with an empty set (and the snapshot write succeeds) the
    call succeeds with recipients 0. *)
Theorem room_not_found_iff_no_entry st raw m room :
  BroadcastMessageSchema (Some raw) = Some m →
  room_scoped m room →
  (outcome (handleBroadcast (POST raw)) st = Normal RoomNotFound
     ↔ JSMap.get room (roomParticipants (ready st)) = None) ∧
  (JSMap.get room (roomParticipants (ready st)) = Some [] → reliable st →
     outcome (handleBroadcast (POST raw)) st = Normal (OK 0)).
Proof.
  intros Hm Hscoped. unfold outcome.
  destruct (ready_frame st) as (Hi & _ & _ & Hfaults).
  rewrite handleBroadcast_ready, (handleBroadcast_room raw m room) by done.
  destruct (JSMap.get room (roomParticipants (ready st))) as [targets|] eqn:Hroom.
  - split.
    + split; [|done].
      destruct (broadcast_room m room targets (ready st)) as [[n|e] st1]; [|done].
      by destruct (saveState st1) as [[[]|e] st2].
    + intros [= ->] Hrel. unfold broadcast_room. simpl.
      assert (reliable (ready st)) as Hrel0 by (by apply (reliable_frame st)).
      destruct (saveState_reliable (ready st) Hrel0) as [Hn _].
      destruct (saveState (ready st)) as [res st2]. simpl in Hn. by subst res.
  - by split.
Qed.

Lemma room_not_found_iff_no_entry_witness :
  outcome (handleBroadcast (POST Sample.chat_envelope)) Sample.emptied = Normal (OK 0) ∧
  (outcome (handleBroadcast (POST Sample.chat_envelope)) Sample.emptied = Normal RoomNotFound
     ↔ JSMap.get "42" (roomParticipants Sample.emptied) = None).
Proof.
  destruct (room_not_found_iff_no_entry Sample.emptied Sample.chat_envelope
              Sample.chat_frame "42") as [Hiff Hzero].
  - reflexivity.
  - repeat split; reflexivity.
  - split; [|exact Hiff]. apply Hzero; [reflexivity | constructor].
Defined.




(** C9. A second join of the same room by the same session leaves the
    membership state (the Registry with each session's rooms, and the
    Membership Index) of the first join unchanged; likewise for a second
    leave. *)
Theorem join_and_leave_are_idempotent st (k : string) (r : StrOrNum) :
  membership (exec (handleMessage k (RoomJoin r)) (exec (handleMessage k (RoomJoin r)) st))
    = membership (exec (handleMessage k (RoomJoin r)) st) ∧
  membership (exec (handleMessage k (RoomLeave r)) (exec (handleMessage k (RoomLeave r)) st))
    = membership (exec (handleMessage k (RoomLeave r)) st).
Proof.
  unfold exec.
  destruct (JSMap.get k (activeConnections st)) as [s|] eqn:Hreg.
  2: { repeat (rewrite (handleMessage_unregistered k _ st Hreg); cbn [snd]). done. }
  split.
  - rewrite (handleMessage_join k s r st) by done.
    destruct (saveState_frame (joined k s r st)) as (Hc & Hrp & _).
    set (s1 := with_rooms (JSSet.add (String_ r) (rooms s)) s).
    assert (registered (saveState (joined k s r st)).2 k s1) as Hreg1.
    { unfold registered. by rewrite Hc, joined_conns, get_alter_eq, Hreg. }
    rewrite (handleMessage_join k s1 r _ Hreg1), membership_saveState.
    unfold membership. rewrite Hc, Hrp. f_equal.
    + rewrite joined_conns, Hc, joined_conns. apply alter_alter.
      intros v. unfold with_rooms. simpl. by rewrite add_add.
    + rewrite joined_rooms, Hrp.
      assert (JSMap.has (String_ r) (roomParticipants (joined k s r st)) = true) as ->.
      { apply has_true_get. rewrite get_joined_room. by eexists. }
      rewrite joined_rooms. apply alter_alter. intros v. apply add_add.
  - rewrite (handleMessage_leave k s r st) by done.
    destruct (saveState_frame (left k s r st)) as (Hc & Hrp & _).
    set (s1 := with_rooms (JSSet.delete (String_ r) (rooms s)) s).
    assert (registered (saveState (left k s r st)).2 k s1) as Hreg1.
    { unfold registered. by rewrite Hc, left_conns, get_alter_eq, Hreg. }
    rewrite (handleMessage_leave k s1 r _ Hreg1), membership_saveState.
    unfold membership. rewrite Hc, Hrp. f_equal.
    + rewrite left_conns, Hc, left_conns. apply alter_alter.
      intros v. unfold with_rooms. simpl. by rewrite delete_delete.
    + rewrite left_rooms, Hrp, left_rooms. apply alter_alter.
      intros v. apply delete_delete.
Qed.

(** C10. A well-formed, correctly signed token whose payload has no exp, or
    exp 0, is accepted by [decode] whatever the clock says, and by
    [verifyToken] as well when its subject is not empty, whatever the clock
    says when [verifyToken] reads it again; the expiry test fires only for
    an exp that is present, nonzero and in the past. *)
Theorem token_without_exp_never_expires `{Runtime} token secret p :
  well_signed token secret p →
  exp p = None ∨ exp p = Some 0%Z →
  decode (Some token) secret = Normal p ∧
  (sub p ≠ "" → ∀ later, verifyToken token secret later = Normal p) ∧
  (∀ e, expired e = true ↔ ∃ n, e = Some n ∧ n ≠ 0%Z ∧ (n < Date_now `div` 1000)%Z).
Proof.
  intros Hsigned Hexp. pose proof (expired_without_exp _ Hexp) as Hfresh.
  pose proof (decode_well_signed token secret p Hsigned Hfresh) as Hdecode.
  split; [done|]. split.
  - intros Hsub later. unfold verifyToken. destruct Hsigned as [Hsecret _].
    rewrite bool_decide_eq_false_2 by done. rewrite Hdecode. simpl.
    rewrite bool_decide_eq_false_2 by done.
    by rewrite (expired_at_without_exp later _ Hexp).
  - intros e. unfold expired, truthy_number. destruct e as [n|]; simpl.
    + rewrite andb_true_iff, negb_true_iff, bool_decide_eq_false, bool_decide_eq_true.
      split.
      * intros [Hnz Hlt]. by exists n.
      * intros (n' & [= <-] & Hnz & Hlt). done.
    + split; [done | by intros (n & [=] & _)].
Qed.

Lemma token_without_exp_never_expires_witness :
  @decode Sample.toy_runtime (Some "H.P.S") "secret" = Normal Sample.token_payload ∧
  @verifyToken Sample.toy_runtime "H.P.S" "secret" 2000000000000
    = Normal Sample.token_payload.
Proof.
  destruct (@token_without_exp_never_expires Sample.toy_runtime
              "H.P.S" "secret" Sample.token_payload) as (Hdecode & Hverify & _).
  - split; [discriminate|].
    exists "H", "P", "S", "H===",
      [("alg", JStr "HS256"); ("typ", JStr "JWT")], "P===",
      (JObj [("sub", JStr "7"); ("name", JStr "Ann")]), "S===".
    repeat split; reflexivity.
  - left. reflexivity.
  - split; [exact Hdecode|]. apply Hverify. discriminate.
Defined.

(** * Further properties *)

(** ** Strings of the token format *)

Lemma append_nil_l (s : string) : "" ++ s = s.
Proof. done. Qed.

Lemma append_cons c (s t : string) : String c s ++ t = String c (s ++ t).
Proof. done. Qed.

Lemma length_append (s t : string) :
  String.length (s ++ t) = (String.length s + String.length t)%nat.
Proof.
  induction s as [|c s IH]; [done|].
  rewrite append_cons. cbn [String.length]. by rewrite IH.
Qed.

Lemma strip_decompose b :
  b = strip_trailing_eq b
      ++ repeat_eq (String.length b - String.length (strip_trailing_eq b)).
Proof.
  induction b as [|c rest IH]; [done|].
  cbn [strip_trailing_eq].
  destruct (strip_trailing_eq rest) as [|c' kept] eqn:Hrest.
  - rewrite append_nil_l in IH. cbn [String.length] in IH. rewrite Nat.sub_0_r in IH.
    destruct (Ascii.eqb c "=") eqn:Hc.
    + apply Ascii.eqb_eq in Hc. subst c. rewrite append_nil_l.
      cbn [String.length]. rewrite Nat.sub_0_r. cbn [repeat_eq]. by rewrite <- IH.
    + rewrite append_cons, append_nil_l. cbn [String.length].
      rewrite Nat.sub_succ, Nat.sub_0_r. by rewrite <- IH.
  - rewrite append_cons. cbn [String.length]. rewrite Nat.sub_succ.
    cbn [String.length] in IH. by rewrite <- IH.
Qed.

Lemma length_replace_char a b s :
  String.length (replace_char a b s) = String.length s.
Proof. induction s as [|c rest IH]; simpl; [done | by rewrite IH]. Qed.

Lemma replace_char_app a b s t :
  replace_char a b (s ++ t) = replace_char a b s ++ replace_char a b t.
Proof.
  induction s as [|c rest IH]; [done|].
  rewrite append_cons. cbn [replace_char]. by rewrite append_cons, IH.
Qed.

Lemma replace_char_repeat_eq a b n :
  a ≠ "="%char → replace_char a b (repeat_eq n) = repeat_eq n.
Proof.
  intros Ha. induction n as [|n IH]; [done|].
  cbn [repeat_eq replace_char]. rewrite IH.
  destruct (Ascii.eqb "=" a) eqn:Heq; [|done].
  apply Ascii.eqb_eq in Heq. congruence.
Qed.

Lemma strip_replace_char a b s :
  a ≠ "="%char → b ≠ "="%char →
  strip_trailing_eq (replace_char a b s) = replace_char a b (strip_trailing_eq s).
Proof.
  intros Ha Hb. induction s as [|c rest IH]; [done|].
  cbn [replace_char strip_trailing_eq]. rewrite IH.
  assert (Ascii.eqb (if Ascii.eqb c a then b else c) "=" = Ascii.eqb c "=") as Hsame.
  { destruct (Ascii.eqb c a) eqn:Hca.
    - apply Ascii.eqb_eq in Hca. subst c.
      rewrite (proj2 (Ascii.eqb_neq b "=")), (proj2 (Ascii.eqb_neq a "=")); done.
    - done. }
  destruct (strip_trailing_eq rest) as [|c' kept]; simpl.
  - rewrite Hsame. by destruct (Ascii.eqb c "=").
  - done.
Qed.

(* undoing the URL-safe alphabet on base64 characters *)
Lemma url_alphabet_round_trip body :
  all_chars is_base64_char body = true →
  replace_char "_" "/" (replace_char "-" "+"
    (replace_char "/" "_" (replace_char "+" "-" body))) = body.
Proof.
  induction body as [|c rest IH]; [done|].
  cbn [all_chars replace_char]. intros Hall.
  apply andb_true_iff in Hall as [Hc Hrest]. rewrite (IH Hrest). f_equal.
  clear -Hc. destruct c as [[] [] [] [] [] [] [] []]; try done.
Qed.

Lemma url_alphabet_no_dot body :
  all_chars is_base64_char body = true →
  all_chars (λ c, negb (Ascii.eqb c "."))
    (replace_char "/" "_" (replace_char "+" "-" body)) = true.
Proof.
  induction body as [|c rest IH]; [done|].
  cbn [all_chars replace_char]. intros Hall.
  apply andb_true_iff in Hall as [Hc Hrest]. rewrite (IH Hrest), andb_true_r.
  clear -Hc. destruct c as [[] [] [] [] [] [] [] []]; try done.
Qed.

Lemma split_dot_no_dot s :
  all_chars (λ c, negb (Ascii.eqb c ".")) s = true → split_dot s = [s].
Proof.
  induction s as [|c rest IH]; [done|].
  cbn [all_chars split_dot]. intros Hall.
  apply andb_true_iff in Hall as [Hc Hrest]. rewrite (IH Hrest).
  by destruct (Ascii.eqb c ".").
Qed.

Lemma split_dot_segment s rest :
  all_chars (λ c, negb (Ascii.eqb c ".")) s = true →
  split_dot (s ++ "." ++ rest) = s :: split_dot rest.
Proof.
  induction s as [|c s' IH]; [done|].
  cbn [all_chars]. intros Hall.
  apply andb_true_iff in Hall as [Hc Hrest].
  rewrite append_cons. cbn [split_dot]. rewrite (IH Hrest).
  by destruct (Ascii.eqb c ".").
Qed.

(** ** The base64url codec *)

Section Base64Url.
Context `{Runtime} `{Signing}.

Lemma base64UrlEncode_body x :
  base64UrlEncode x
  = replace_char "/" "_" (replace_char "+" "-" (strip_trailing_eq (Buffer_to_base64 x))).
Proof. unfold base64UrlEncode. by rewrite !strip_replace_char. Qed.

Lemma base64_text_inv b :
  base64_text b = true →
  ∃ body k,
    b = body ++ repeat_eq k ∧ strip_trailing_eq b = body ∧ body ≠ "" ∧
    all_chars is_base64_char body = true ∧ (k ≤ 2)%nat ∧
    ((String.length body + k) mod 4 = 0)%nat.
Proof.
  unfold base64_text. rewrite !andb_true_iff, negb_true_iff.
  intros [[[Hne Hall] Hk] Hlen].
  apply bool_decide_eq_false in Hne. apply Nat.leb_le in Hk. apply Nat.eqb_eq in Hlen.
  pose proof (strip_decompose b) as Hb.
  exists (strip_trailing_eq b),
         (String.length b - String.length (strip_trailing_eq b)).
  repeat split; try done.
  assert (String.length (strip_trailing_eq b) ≤ String.length b)%nat as Hle.
  { rewrite Hb at 2. rewrite length_append. lia. }
  by replace (String.length (strip_trailing_eq b) +
              (String.length b - String.length (strip_trailing_eq b)))%nat
    with (String.length b) by lia.
Qed.

Lemma base64UrlEncode_nonempty_no_dot x :
  base64_round_trip x →
  base64UrlEncode x ≠ "" ∧
  all_chars (λ c, negb (Ascii.eqb c ".")) (base64UrlEncode x) = true.
Proof.
  intros (_ & Htext & _). rewrite base64UrlEncode_body.
  destruct (base64_text_inv _ Htext) as (body & k & _ & -> & Hne & Hall & _).
  split; [|by apply url_alphabet_no_dot].
  intros Hempty. apply (f_equal String.length) in Hempty.
  rewrite !length_replace_char in Hempty. by destruct body.
Qed.
Lemma pad_restores (body : string) k :
  (k ≤ 2)%nat → ((String.length body + k) mod 4 = 0)%nat →
  (if bool_decide ((String.length body mod 4)%nat = 0%nat) then body
   else body ++ repeat_eq (4 - String.length body mod 4))
  = body ++ repeat_eq k.
Proof.
  intros Hk Hmod.
  pose proof (Nat.div_mod_eq (String.length body) 4) as Hdiv.
  pose proof (Nat.mod_upper_bound (String.length body) 4) as Hlt.
  pose proof (Nat.div_mod_eq (String.length body + k) 4) as Hdiv'.
  rewrite Hmod in Hdiv'.
  specialize (Hlt ltac:(lia)).
  set (m := (String.length body mod 4)%nat) in *.
  destruct k as [|[|[|k]]]; [| | |lia].
  - assert (m = 0)%nat as -> by lia. rewrite bool_decide_eq_true_2 by done.
    clear. induction body as [|c body IH]; [done|]. by rewrite append_cons, <- IH.
  - assert (m = 3)%nat as -> by lia. by rewrite bool_decide_eq_false_2.
  - assert (m = 2)%nat as -> by lia. by rewrite bool_decide_eq_false_2.
Qed.
End Base64Url.

Lemma base64UrlDecode_encode `{Runtime} `{Signing} x :
  base64_round_trip x →
  base64UrlDecode (base64UrlEncode x) = Normal x.
Proof.
  intros Hrt. destruct (base64UrlEncode_nonempty_no_dot x Hrt) as [Hnonempty _].
  destruct Hrt as (Hx & Htext & Hdec).
  destruct (base64_text_inv _ Htext) as (body & k & Hb & Hstrip & Hne & Hall & Hk & Hmod).
  unfold base64UrlDecode. rewrite bool_decide_eq_false_2 by done.
  rewrite base64UrlEncode_body, Hstrip, length_replace_char, length_replace_char.
  set (u := replace_char "/" "_" (replace_char "+" "-" body)).
  assert (String.length u = String.length body) as Hlen
    by (unfold u; by rewrite !length_replace_char).
  pose proof (pad_restores u k Hk) as Hpad. rewrite Hlen in Hpad.
  rewrite (Hpad Hmod), !replace_char_app, !replace_char_repeat_eq by done.
  unfold u. rewrite url_alphabet_round_trip, <- Hb, Hdec by done.
  by rewrite bool_decide_eq_false_2.
Qed.

(** X1. base64UrlDecode undoes base64UrlEncode: for a non-empty string that
    the platform's base64 codec round-trips, encoding (URL-safe alphabet,
    padding stripped) and then decoding (padding restored, alphabet undone)
    returns the string. *)
Theorem base64url_round_trip `{Runtime} `{Signing} x :
  base64_round_trip x →
  base64UrlDecode (base64UrlEncode x) = Normal x.
Proof. apply base64UrlDecode_encode. Qed.

Lemma base64url_round_trip_witness :
  @base64UrlEncode Demo.signing "P" = "UA" ∧
  @base64UrlDecode (Demo.runtime 0) "UA" = Normal "P".
Proof.
  split; [reflexivity|].
  apply (@base64url_round_trip (Demo.runtime 0) Demo.signing "P").
  repeat split; (reflexivity || discriminate).
Defined.

(** ** Signing and verifying *)

Lemma payloadSchema_to_json p : payloadSchema (Some (to_json p)) = Some p.
Proof. by destruct p as [s [n|] [e|] [i|] [x|] [j|]]. Qed.

Section SignFacts.
Context `{Runtime} `{Signing}.

Lemma sign_token p secret :
  sign p secret
  = Normal (base64UrlEncode (JSON_stringify header_json) ++ "." ++
            base64UrlEncode (JSON_stringify (to_json p)) ++ "." ++
            base64UrlEncode
              (hmac_sign secret
                 (base64UrlEncode (JSON_stringify header_json) ++ "." ++
                  base64UrlEncode (JSON_stringify (to_json p))))).
Proof. unfold sign. by rewrite payloadSchema_to_json. Qed.

Lemma signed_token_well_signed p secret token :
  secret ≠ "" → platform_round_trips p secret →
  sign p secret = Normal token → well_signed token secret p.
Proof.
  intros Hsecret (Hh & Hp & Hs & Hhj & Hpj & Hver). rewrite sign_token. intros [= <-].
  split; [done|].
  destruct (base64UrlEncode_nonempty_no_dot _ Hh) as [_ Hhdot].
  destruct (base64UrlEncode_nonempty_no_dot _ Hp) as [_ Hpdot].
  destruct (base64UrlEncode_nonempty_no_dot _ Hs) as [_ Hsdot].
  eexists _, _, _, _, [("alg", JStr "HS256"); ("typ", JStr "JWT")], _, _, _.
  split.
  { rewrite split_dot_segment by done. rewrite split_dot_segment by done.
    by rewrite split_dot_no_dot. }
  split; [by apply base64UrlDecode_encode|].
  split; [exact Hhj|]. split; [done|].
  split; [by apply base64UrlDecode_encode|].
  split; [exact Hpj|]. split; [apply payloadSchema_to_json|].
  split; [by apply base64UrlDecode_encode|]. exact Hver.
Qed.

Lemma decode_expired token secret p :
  well_signed token secret p → expired (exp p) = true →
  decode (Some token) secret = Throw "JWT verification failed: Token has expired".
Proof.
  intros (Hsecret & h & b & s & headerStr & fields & payloadStr & payloadJson & sig &
          Hsplit & Hh & Hparse & Halg & Hb & Hpparse & Hschema & Hs & Hsig) Hexp.
  unfold decode. destruct token as [|c token]; [done|].
  unfold validateSecret. rewrite bool_decide_eq_false_2 by done. cbn [Pure.bind].
  rewrite Hsplit, Hh. cbn [Pure.bind]. rewrite Hparse. cbn [Pure.bind].
  rewrite Halg. cbn [Pure.bind]. rewrite Hb. cbn [Pure.bind].
  rewrite Hpparse. cbn [Pure.bind]. rewrite Hschema. cbn [Pure.bind].
  rewrite Hs. cbn [Pure.bind]. rewrite Hsig. cbn [negb]. by rewrite Hexp.
Qed.

Lemma decode_accepts_inv token secret p :
  decode (Some token) secret = Normal p →
  well_signed token secret p ∧ expired (exp p) = false.
Proof.
  unfold decode. destruct token as [|c token]; [done|].
  unfold validateSecret. case_bool_decide as Hsecret; [done|]. cbn [Pure.bind].
  destruct (split_dot (String c token)) as [|h [|b [|s [|? ?]]]] eqn:Hsplit; try done.
  destruct (base64UrlDecode h) as [headerStr|e] eqn:Hh; [|done]. cbn [Pure.bind].
  destruct (JSON_parse headerStr) as [header|] eqn:Hparse; [|done]. cbn [Pure.bind].
  destruct header as [| | | | |fields]; try done.
  destruct (JSMap.get "alg" fields) as [alg|] eqn:Halg; [|done].
  destruct alg as [| | |a| |]; try done.
  destruct (decide (a = "HS256")) as [->|Hne].
  2: { intros Hfalse. exfalso. revert Hfalse.
       repeat (destruct a as [|[[] [] [] [] [] [] [] []] a]; try done). }
  cbn [Pure.bind].
  destruct (base64UrlDecode b) as [payloadStr|e] eqn:Hb; [|done]. cbn [Pure.bind].
  destruct (JSON_parse payloadStr) as [payloadJson|] eqn:Hpparse; [|done]. cbn [Pure.bind].
  destruct (payloadSchema (Some payloadJson)) as [validated|] eqn:Hschema; [|done].
  cbn [Pure.bind].
  destruct (base64UrlDecode s) as [sig|e] eqn:Hs; [|done]. cbn [Pure.bind].
  destruct (hmac_verify secret sig (h ++ "." ++ b)) eqn:Hsig; [|done]. cbn [negb].
  destruct (expired (exp validated)) eqn:Hexp; [done|].
  cbn [Pure.try_catch]. intros [= ->].
  split; [|done]. split; [done|].
  by exists h, b, s, headerStr, fields, payloadStr, payloadJson, sig.
Qed.
End SignFacts.

(** X2. A token made by sign is accepted by decode under the same secret
    and gives back the payload, as long as the payload is not expired: sign
    never fails on a payload object, its three segments contain no dot, and
    each segment decodes to what was encoded (given the platform's base64,
    JSON and HMAC round trips on these segments). *)
Theorem sign_then_decode `{Runtime} `{Signing} p secret :
  secret ≠ "" →
  platform_round_trips p secret →
  expired (exp p) = false →
  ∃ token, sign p secret = Normal token ∧ decode (Some token) secret = Normal p.
Proof.
  intros Hsecret Hlaws Hfresh. eexists. split; [apply sign_token|].
  apply decode_well_signed; [|done].
  eapply signed_token_well_signed; [done | done | apply sign_token].
Qed.

Lemma sign_then_decode_witness :
  @sign Demo.signing Demo.payload "secret" = Normal "SA.UA.Uw" ∧
  @decode (Demo.runtime 1700000000000) (Some "SA.UA.Uw") "secret" = Normal Demo.payload.
Proof.
  destruct (@sign_then_decode (Demo.runtime 1700000000000) Demo.signing
              Demo.payload "secret") as (token & Hsign & Hdecode).
  - discriminate.
  - repeat split; (reflexivity || discriminate).
  - reflexivity.
  - split; [reflexivity|].
    assert (token = "SA.UA.Uw") as <-; [|exact Hdecode].
    assert (Normal token = Normal "SA.UA.Uw") as Heq by (rewrite <- Hsign; reflexivity).
    by injection Heq.
Defined.

(** X3. The token of createSessionToken, issued when the clock shows t0, is
    accepted by decode at every time t up to and including its expiry second
    floor(t0/1000) + expiresIn, and refused with "Token has expired" at every
    later time (when that expiry second is not 0). *)
Theorem session_token_validity_window (rt : Runtime) `{Signing}
    userId secret name email expiresIn (t0 t : Z) :
  secret ≠ "" →
  @platform_round_trips rt _ (session_payload userId name email expiresIn t0) secret →
  ∃ token,
    @createSessionToken (at_time t0 rt) _ userId secret name email expiresIn
      = Normal token ∧
    ((t `div` 1000 ≤ t0 `div` 1000 + default (30 * 24 * 60 * 60) expiresIn)%Z →
       @decode (at_time t rt) (Some token) secret
       = Normal (session_payload userId name email expiresIn t0)) ∧
    ((t0 `div` 1000 + default (30 * 24 * 60 * 60) expiresIn < t `div` 1000)%Z →
     (t0 `div` 1000 + default (30 * 24 * 60 * 60) expiresIn ≠ 0)%Z →
       @decode (at_time t rt) (Some token) secret
       = Throw "JWT verification failed: Token has expired").
Proof.
  intros Hsecret Hlaws.
  set (p := session_payload userId name email expiresIn t0) in *.
  assert (@createSessionToken (at_time t0 rt) _ userId secret name email expiresIn
          = sign p secret) as Hcreate by done.
  destruct (sign p secret) as [token|e] eqn:Hsign;
    [|by rewrite sign_token in Hsign].
  exists token. split; [done|].
  assert (@well_signed (at_time t rt) token secret p) as Hsigned.
  { by eapply (@signed_token_well_signed (at_time t rt)). }
  split.
  - intros Hle. apply (@decode_well_signed (at_time t rt)); [exact Hsigned|].
    unfold expired, truthy_number. simpl.
    rewrite andb_false_iff. right. apply bool_decide_eq_false. lia.
  - intros Hlt Hnz. apply (@decode_expired (at_time t rt) _ secret p); [exact Hsigned|].
    unfold expired, truthy_number. simpl.
    rewrite andb_true_iff, negb_true_iff, bool_decide_eq_false, bool_decide_eq_true.
    done.
Qed.

Lemma session_token_validity_window_witness :
  @createSessionToken (Demo.runtime 1700000000000) Demo.signing
     "7" "secret" (Some "Ann") None (Some 3600%Z) = Normal "SA.UA.Uw" ∧
  @decode (Demo.runtime 1700003600999) (Some "SA.UA.Uw") "secret" = Normal Demo.payload ∧
  @decode (Demo.runtime 1700003601000) (Some "SA.UA.Uw") "secret"
    = Throw "JWT verification failed: Token has expired".
Proof.
  split; [reflexivity|].
  destruct (@session_token_validity_window (Demo.runtime 0) Demo.signing
              "7" "secret" (Some "Ann") None (Some 3600%Z)
              1700000000000 1700003600999) as (token & Hcreate & Hvalid & _).
  { discriminate. }
  { repeat split; (reflexivity || discriminate). }
  destruct (@session_token_validity_window (Demo.runtime 0) Demo.signing
              "7" "secret" (Some "Ann") None (Some 3600%Z)
              1700000000000 1700003601000) as (token' & Hcreate' & _ & Hlate).
  { discriminate. }
  { repeat split; (reflexivity || discriminate). }
  assert (token = "SA.UA.Uw") as ->.
  { assert (Normal token = Normal "SA.UA.Uw") as Heq by (rewrite <- Hcreate; reflexivity).
    by injection Heq. }
  assert (token' = "SA.UA.Uw") as ->.
  { assert (Normal token' = Normal "SA.UA.Uw") as Heq by (rewrite <- Hcreate'; reflexivity).
    by injection Heq. }
  split.
  - apply Hvalid. intros Hgt. vm_compute in Hgt. discriminate.
  - apply Hlate; [reflexivity | intros Hzero; vm_compute in Hzero; discriminate].
Defined.

(** X4. decode returns a payload exactly for the tokens that have three
    segments decoding to an HS256 header, a schema-valid payload and a
    signature that verifies under a non-empty secret, and that are not
    expired: nothing else is ever accepted. *)
Theorem decode_accepts_exactly `{Runtime} (token secret : string) (p : JWTPayload) :
  decode (Some token) secret = Normal p
  ↔ well_signed token secret p ∧ expired (exp p) = false.
Proof.
  split.
  - apply decode_accepts_inv.
  - intros [Hsigned Hfresh]. by apply decode_well_signed.
Qed.

Lemma verifyToken_inv `{Runtime} token secret later p :
  verifyToken token secret later = Normal p →
  decode (Some token) secret = Normal p ∧ sub p ≠ "" ∧
  expired_at later (exp p) = false.
Proof.
  unfold verifyToken. case_bool_decide as Hsecret; [done|].
  destruct (decode (Some token) secret) as [payload|e]; [|done].
  cbn [Pure.bind]. case_bool_decide as Hsub; [done|].
  destruct (expired_at later (exp payload)) eqn:Hlate; [done|].
  cbn [Pure.try_catch]. by intros [= <-].
Qed.

Lemma verifyToken_decoded `{Runtime} token secret later p :
  decode (Some token) secret = Normal p → sub p ≠ "" →
  verifyToken token secret later
  = if expired_at later (exp p)
    then Throw "WebSocket authentication failed: Token has expired"
    else Normal p.
Proof.
  intros Hdecode Hsub.
  destruct (decode_accepts_inv _ _ _ Hdecode) as [[Hsecret _] _].
  unfold verifyToken. rewrite bool_decide_eq_false_2 by done.
  rewrite Hdecode. cbn [Pure.bind].
  rewrite bool_decide_eq_false_2 by done.
  by destruct (expired_at later (exp p)).
Qed.

Lemma expired_at_earlier `{Runtime} later (e : option Z) :
  (later `div` 1000 ≤ Date_now `div` 1000)%Z →
  expired e = false → expired_at later e = false.
Proof.
  intros Hle. unfold expired, expired_at.
  destruct (truthy_number e); [|done]. cbn [andb].
  rewrite !bool_decide_eq_false. lia.
Qed.

(** X5. verifyToken accepts exactly the tokens that decode accepts, whose
    subject is not empty and that are not expired at verifyToken's own,
    later reading of the clock: a token that decode accepted in its last
    valid second and that has expired by the second reading is refused with
    "WebSocket authentication failed: Token has expired".  When the clock has
    not moved on to a later second, the second test decides nothing.  Each
    rejection is either "JWT_SECRET is not configured" or a message that
    starts with "WebSocket authentication failed: ". *)
Theorem verifyToken_accepts_exactly `{Runtime} (token secret : string) (later : Z)
    (p : JWTPayload) :
  (verifyToken token secret later = Normal p
     ↔ decode (Some token) secret = Normal p ∧ sub p ≠ "" ∧
       expired_at later (exp p) = false) ∧
  (decode (Some token) secret = Normal p → sub p ≠ "" →
   expired_at later (exp p) = true →
     verifyToken token secret later
     = Throw "WebSocket authentication failed: Token has expired") ∧
  ((later `div` 1000 ≤ Date_now `div` 1000)%Z →
     (verifyToken token secret later = Normal p
        ↔ decode (Some token) secret = Normal p ∧ sub p ≠ "")) ∧
  (∀ e, verifyToken token secret later = Throw e →
     e = "JWT_SECRET is not configured" ∨
     ∃ message, e = "WebSocket authentication failed: " ++ message).
Proof.
  split; [split|split; [|split]].
  - apply verifyToken_inv.
  - intros (Hdecode & Hsub & Hlate).
    by rewrite (verifyToken_decoded _ _ _ p), Hlate.
  - intros Hdecode Hsub Hlate.
    by rewrite (verifyToken_decoded _ _ _ p), Hlate.
  - intros Hle. split.
    + intros Hv. apply verifyToken_inv in Hv. tauto.
    + intros [Hdecode Hsub].
      destruct (decode_accepts_inv _ _ _ Hdecode) as [_ Hfresh].
      rewrite (verifyToken_decoded _ _ _ p) by done.
      by rewrite (expired_at_earlier later (exp p) Hle Hfresh).
  - intros e. unfold verifyToken. case_bool_decide as Hsecret.
    + intros [= <-]. by left.
    + destruct (decode (Some token) secret) as [payload|e']; cbn [Pure.bind].
      * case_bool_decide; cbn [Pure.try_catch].
        -- intros [= <-]. right. by eexists.
        -- destruct (expired_at later (exp payload)); cbn [Pure.try_catch]; [|done].
           intros [= <-]. right. by eexists.
      * cbn [Pure.try_catch]. intros [= <-]. right. by eexists.
Qed.

Lemma verifyToken_accepts_exactly_witness :
  @decode (Demo.runtime 1700003600999) (Some "SA.UA.Uw") "secret" = Normal Demo.payload ∧
  @verifyToken (Demo.runtime 1700003600999) "SA.UA.Uw" "secret" 1700003601000
    = Throw "WebSocket authentication failed: Token has expired".
Proof.
  split; [reflexivity|].
  apply (@verifyToken_accepts_exactly (Demo.runtime 1700003600999)
           "SA.UA.Uw" "secret" 1700003601000 Demo.payload); reflexivity || discriminate.
Defined.

Lemma prefix_Bearer h :
  String.prefix "Bearer " h = true → h = "Bearer " ++ slice 7 h.
Proof.
  intros Hp. apply String.prefix_correct in Hp. cbn [String.length] in Hp.
  do 7 (destruct h as [|? h]; [done|]).
  cbn [String.substring] in Hp. cbn [slice].
  destruct h; cbn [String.substring] in Hp; by injection Hp as -> -> -> -> -> -> ->.
Qed.

(** X6. getUserIdFromRequest returns a user id only for an Authorization
    header of the form "Bearer <token>" whose token verifyToken accepts, and
    then the id is the token's subject; for every other header, or none, it
    returns null. *)
Theorem getUserIdFromRequest_gate `{Runtime} (Authorization : option string)
    (secret userId : string) (later : Z) :
  getUserIdFromRequest Authorization secret later = Some userId
  ↔ ∃ token p,
      Authorization = Some ("Bearer " ++ token) ∧
      verifyToken token secret later = Normal p ∧ sub p = userId.
Proof.
  unfold getUserIdFromRequest. split.
  - destruct Authorization as [h|]; [|done].
    destruct (String.prefix "Bearer " h) eqn:Hp; [|done]. cbn [negb].
    destruct (verifyToken (slice 7 h) secret later) as [p|e] eqn:Hv; [|done].
    intros [= <-]. exists (slice 7 h), p. split; [|done].
    f_equal. by apply prefix_Bearer.
  - intros (token & p & -> & Hv & <-).
    change (String.prefix "Bearer " ("Bearer " ++ token)) with (String.prefix "" token).
    change (slice 7 ("Bearer " ++ token)) with token.
    assert (String.prefix "" token = true) as -> by (by destruct token).
    cbn [negb]. by rewrite Hv.
Qed.

(** ** The global loop of the broadcast *)

Lemma global_turn_absent frame k c st :
  JSMap.get k (activeConnections st) = None → global_turn frame k c st = (Normal c, st).
Proof. intros Hg. unfold global_turn, bind, read. by rewrite Hg. Qed.

Lemma global_turn_open frame k s c st :
  registered st k s → is_open (socket s) = true →
  global_turn frame k c st = (Normal (S c), with_wire (wire st ++ [(id s, frame)]) st).
Proof. intros Hg Ho. unfold global_turn, bind at 1, read. by rewrite Hg, Ho. Qed.

Lemma global_turn_stale frame k s c st :
  registered st k s → is_open (socket s) = false → id s = k →
  global_turn frame k c st
  = match saveState (evict k s st) with
    | (Normal _, st1) => (Normal c, st1)
    | (Throw e, st1) => (Throw e, st1)
    end.
Proof.
  intros Hg Ho Hid. unfold global_turn, bind at 1, read. rewrite Hg, Ho, Hid.
  unfold bind. rewrite (handleSessionClose_registered k s) by done.
  by destruct (saveState _) as [[[]|e] st1].
Qed.

Lemma open_targets_cons st a l :
  open_targets st (a :: l) = (open_targets st [a] ++ open_targets st l)%list.
Proof. unfold open_targets. simpl. by destruct (live st a). Qed.

Lemma global_turn_reliable frame k c st :
  reliable st → (∀ k s, registered st k s → id s = k) →
  ∃ st1,
    global_turn frame k c st = (Normal (c + length (open_targets st [k])), st1) ∧
    reliable st1 ∧
    wire st1 = (wire st ++ ((λ s, (id s, frame)) <$> open_targets st [k]))%list ∧
    (∀ x, JSMap.get x (activeConnections st1)
          = if bool_decide (x = k) then live st k
            else JSMap.get x (activeConnections st)).
Proof.
  intros Hrel Hids.
  destruct (JSMap.get k (activeConnections st)) as [s|] eqn:Hg.
  - destruct (is_open (socket s)) eqn:Ho.
    + assert (live st k = Some s) as Hlive by (unfold live; by rewrite Hg, Ho).
      assert (open_targets st [k] = [s]) as ->
        by (unfold open_targets; simpl; by rewrite Hlive).
      rewrite (global_turn_open frame k s) by done.
      eexists. split; [f_equal; f_equal; simpl; lia|].
      split; [done|]. split; [done|].
      intros x. simpl. case_bool_decide; [by subst; rewrite Hlive | done].
    + assert (live st k = None) as Hlive by (unfold live; by rewrite Hg, Ho).
      assert (open_targets st [k] = []) as ->
        by (unfold open_targets; simpl; by rewrite Hlive).
      rewrite (global_turn_stale frame k s) by eauto.
      assert (reliable (evict k s st)) as Hrel' by done.
      destruct (saveState_reliable _ Hrel') as [Hn Hr].
      destruct (saveState_frame (evict k s st)) as (Hc & _ & _ & Hw).
      destruct (saveState (evict k s st)) as [r st1]. simpl in *. subst r.
      exists st1. split; [f_equal; f_equal; lia|].
      split; [done|]. split; [by rewrite Hw, app_nil_r|].
      intros x. rewrite Hc, Hlive. case_bool_decide as Hx.
      * subst. apply get_delete_eq.
      * by apply get_delete_ne.
  - assert (live st k = None) as Hlive by (unfold live; by rewrite Hg).
    assert (open_targets st [k] = []) as ->
      by (unfold open_targets; simpl; by rewrite Hlive).
    rewrite global_turn_absent by done.
    eexists. split; [f_equal; f_equal; simpl; lia|].
    split; [done|]. split; [by rewrite app_nil_r|].
    intros x. rewrite Hlive. case_bool_decide; [by subst | done].
Qed.

Lemma live_after_turn st st1 k :
  (∀ x, JSMap.get x (activeConnections st1)
        = if bool_decide (x = k) then live st k
          else JSMap.get x (activeConnections st)) →
  ∀ x, live st1 x = live st x.
Proof.
  intros Hreg x. unfold live at 1. rewrite Hreg. case_bool_decide as Hx; [|done].
  subst x. unfold live. destruct (JSMap.get k (activeConnections st)) as [s|]; [|done].
  destruct (is_open (socket s)) eqn:Ho; [by rewrite Ho | done].
Qed.

Lemma broadcast_all_reliable frame l c st :
  reliable st → (∀ k s, registered st k s → id s = k) →
  ∃ st',
    for_of l (global_turn frame) c st
      = (Normal (c + length (open_targets st l)), st') ∧
    reliable st' ∧
    wire st' = (wire st ++ ((λ s, (id s, frame)) <$> open_targets st l))%list ∧
    (∀ x, JSMap.get x (activeConnections st')
          = if bool_decide (x ∈ l) then live st x
            else JSMap.get x (activeConnections st)).
Proof.
  revert c st. induction l as [|a l IH]; intros c st Hrel Hids.
  - exists st. simpl. unfold ret. split; [f_equal; f_equal; lia|].
    split; [done|]. split; [by rewrite app_nil_r|]. done.
  - destruct (global_turn_reliable frame a c st Hrel Hids)
      as (st1 & Hstep & Hrel1 & Hw1 & Hreg1).
    pose proof (live_after_turn st st1 a Hreg1) as Hlive.
    assert (∀ k s, registered st1 k s → id s = k) as Hids1.
    { intros k s. unfold registered. rewrite Hreg1. case_bool_decide as Hk.
      - subst k. unfold live. destruct (JSMap.get a (activeConnections st)) as [s'|] eqn:Hg; [|done].
        destruct (is_open (socket s')); [|done]. intros [= <-]. by apply Hids.
      - apply Hids. }
    destruct (IH (c + length (open_targets st [a])) st1 Hrel1 Hids1)
      as (st' & Hloop & Hrel' & Hw' & Hreg').
    rewrite (open_targets_ext st st1) in Hloop, Hw' by done.
    exists st'. split.
    { cbn [for_of]. unfold bind.
      rewrite Hstep, Hloop, (open_targets_cons st a l), length_app.
      f_equal. f_equal. lia. }
    split; [done|]. split.
    { rewrite Hw', Hw1, (open_targets_cons st a l), fmap_app. by rewrite app_assoc. }
    intros x. rewrite Hreg', Hlive, Hreg1.
    destruct (decide (x ∈ l)) as [Hin|Hnin].
    + rewrite !bool_decide_eq_true_2; [done | apply elem_of_cons; by right | done].
    + rewrite (bool_decide_eq_false_2 (x ∈ l)) by done.
      destruct (decide (x = a)) as [->|Hne].
      * rewrite !bool_decide_eq_true_2; [done | apply elem_of_cons; by left | done].
      * rewrite !bool_decide_eq_false_2; [done | | done].
        rewrite not_elem_of_cons. done.
Qed.

Lemma broadcast_all_loop frame st :
  broadcast_all frame st
  = for_of (JSMap.keys (activeConnections st)) (global_turn frame) 0 st.
Proof. done. Qed.

Lemma handleBroadcast_global raw m st :
  initialized st = true →
  BroadcastMessageSchema (Some raw) = Some m →
  is_global (type m) = true →
  handleBroadcast (POST raw) st
  = match broadcast_all m st with
    | (Normal n, st1) => (Normal (OK n), st1)
    | (Throw _, st1) => (Normal InternalServerError, st1)
    end.
Proof.
  intros Hi Hm Hg. unfold handleBroadcast, bind at 1.
  rewrite initialize_initialized by done. simpl.
  unfold try_catch, bind at 1. simpl. unfold bind at 1. rewrite Hm. simpl.
  rewrite Hg. unfold bind at 1.
  by destruct (broadcast_all m st) as [[n|e] st1].
Qed.

(** X7. A valid notification:deleted or notification:cleared envelope is
    delivered to every session in the Registry whose socket is open, in
    Registry order and whatever its rooms; the recipient count is their
    number; the open sessions stay registered as they were and every other
    session is evicted.  (Storage writes succeed and each session is stored
    under its own id.) *)
Theorem global_broadcast_reaches_every_open_session st raw m :
  reliable st →
  well_formed st →
  BroadcastMessageSchema (Some raw) = Some m →
  is_global (type m) = true →
  outcome (handleBroadcast (POST raw)) st
    = Normal (OK (length (open_targets st (JSMap.keys (activeConnections st))))) ∧
  wire (exec (handleBroadcast (POST raw)) st)
    = (wire st ++ ((λ s, (id s, m)) <$>
                   open_targets st (JSMap.keys (activeConnections st))))%list ∧
  ∀ k, JSMap.get k (activeConnections (exec (handleBroadcast (POST raw)) st)) = live st k.
Proof.
  intros Hrel Hwf Hm Hg. unfold outcome, exec.
  destruct (ready_frame st) as (Hi & Hconns & Hwire & Hfaults).
  assert (reliable (ready st)) as Hrel0 by (by apply (reliable_frame st)).
  assert (∀ k s, registered (ready st) k s → id s = k) as Hids.
  { intros k s. unfold registered. rewrite Hconns. apply Hwf. }
  assert (∀ x, live (ready st) x = live st x) as Hlive
    by (intros x; unfold live; by rewrite Hconns).
  rewrite handleBroadcast_ready, (handleBroadcast_global raw m) by done.
  rewrite broadcast_all_loop, Hconns.
  destruct (broadcast_all_reliable m (JSMap.keys (activeConnections st)) 0 (ready st)
              Hrel0 Hids) as (st' & -> & _ & Hw & Hreg).
  rewrite (open_targets_ext st (ready st)) in * by done.
  simpl. split; [done|]. split; [by rewrite Hw, Hwire|].
  intros k. rewrite Hreg, Hlive, Hconns. case_bool_decide as Hk; [done|].
  unfold live. destruct (JSMap.get k (activeConnections st)) as [s|] eqn:Hget; [|done].
  by apply get_Some_keys in Hget.
Qed.

(** ** More on the room loop *)

Lemma room_turn_facts frame room sid c st :
  (∀ x, live (room_turn frame room sid c st).2 x = live st x) ∧
  wire (room_turn frame room sid c st).2
    = (wire st ++ ((λ s, (id s, frame)) <$> open_targets st [sid]))%list ∧
  registry_kept st (room_turn frame room sid c st).2.
Proof.
  unfold registry_kept, registered.
  destruct (JSMap.get sid (activeConnections st)) as [s|] eqn:Hg.
  - destruct (is_open (socket s)) eqn:Ho.
    + assert (open_targets st [sid] = [s]) as ->.
      { unfold open_targets, live. simpl. by rewrite Hg, Ho. }
      rewrite (room_turn_open frame room sid s) by done. done.
    + assert (open_targets st [sid] = []) as ->.
      { unfold open_targets, live. simpl. by rewrite Hg, Ho. }
      rewrite (room_turn_stale frame room sid s) by done.
      destruct (saveState_frame (evict sid s st)) as (Hc & _ & _ & Hw).
      pose proof (live_saveState (evict sid s st)) as Hl.
      destruct (saveState (evict sid s st)) as [[[]|e] st1]; simpl in *.
      all: split; [intros x; rewrite Hl; by apply live_evict|].
      all: split; [by rewrite Hw, app_nil_r|].
      all: intros k s'; rewrite Hc; destruct (decide (sid = k)) as [->|Hne];
        [by rewrite get_delete_eq | by rewrite get_delete_ne].
  - assert (open_targets st [sid] = []) as ->.
    { unfold open_targets, live. simpl. by rewrite Hg. }
    rewrite room_turn_unregistered by done. simpl. by rewrite app_nil_r.
Qed.

Lemma room_loop_live frame room targets c st x :
  live (for_of targets (room_turn frame room) c st).2 x = live st x.
Proof.
  revert x. apply (for_of_preserves (λ st', ∀ x, live st' x = live st x)); [|done].
  intros sid acc st' Hl x.
  destruct (room_turn_facts frame room sid acc st') as (-> & _). apply Hl.
Qed.

Lemma room_loop_registry_kept frame room targets c st :
  registry_kept st (for_of targets (room_turn frame room) c st).2.
Proof.
  apply (for_of_preserves (registry_kept st)); [|by intros k s].
  intros sid acc st' Hkept k s Hreg. apply Hkept.
  by destruct (room_turn_facts frame room sid acc st') as (_ & _ & Hk); apply Hk.
Qed.

(* the frames of a room loop go to the open sessions among the targets it
   got to visit *)
Lemma room_loop_frames frame room targets c st :
  ∃ visited rest,
    targets = (visited ++ rest)%list ∧
    wire (for_of targets (room_turn frame room) c st).2
      = (wire st ++ ((λ s, (id s, frame)) <$> open_targets st visited))%list.
Proof.
  revert c st. induction targets as [|a l IH]; intros c st.
  - exists [], []. split; [done|]. simpl. by rewrite app_nil_r.
  - destruct (room_turn_facts frame room a c st) as (Hlive & Hw & _).
    cbn [for_of]. unfold bind.
    destruct (room_turn frame room a c st) as [[c1|e] st1] eqn:Hturn; simpl in *.
    + destruct (IH c1 st1) as (visited & rest & -> & Hw').
      exists (a :: visited), rest. split; [done|].
      rewrite Hw', Hw, (open_targets_ext st st1), (open_targets_cons st a visited),
        fmap_app by done.
      by rewrite app_assoc.
    + exists [a], l. split; [done|]. exact Hw.
Qed.

Lemma elem_of_open_targets st l s :
  s ∈ open_targets st l ↔ ∃ k, k ∈ l ∧ registered st k s ∧ is_open (socket s) = true.
Proof.
  unfold open_targets. rewrite list_elem_of_omap. split.
  - intros (k & Hk & Hlive). exists k. split; [done|].
    unfold live in Hlive. unfold registered.
    destruct (JSMap.get k (activeConnections st)) as [s'|]; [|done].
    destruct (is_open (socket s')) eqn:Ho; [|done]. by injection Hlive as ->.
  - intros (k & Hk & Hreg & Ho). exists k. split; [done|].
    unfold live. unfold registered in Hreg. by rewrite Hreg, Ho.
Qed.

Lemma room_broadcast_frames st raw m room targets :
  BroadcastMessageSchema (Some raw) = Some m →
  room_scoped m room →
  JSMap.get room (roomParticipants (ready st)) = Some targets →
  ∃ frames,
    sent_since st (exec (handleBroadcast (POST raw)) st) frames ∧
    ∀ recipient frame, (recipient, frame) ∈ frames →
      frame = m ∧
      ∃ k s, k ∈ targets ∧ registered st k s ∧ is_open (socket s) = true ∧
             recipient = id s.
Proof.
  intros Hm Hscoped Hroom. unfold exec, sent_since.
  destruct (ready_frame st) as (Hi & Hconns & Hwire & _).
  rewrite handleBroadcast_ready, (handleBroadcast_room raw m room) by done.
  rewrite Hroom. unfold broadcast_room.
  destruct (room_loop_frames m room targets 0 (ready st))
    as (visited & rest & -> & Hw).
  exists ((λ s, (id s, m)) <$> open_targets (ready st) visited). split.
  - destruct (for_of _ _ 0 (ready st)) as [[n|e] st1]; simpl in *.
    + destruct (saveState_frame st1) as (_ & _ & _ & Hw2).
      destruct (saveState st1) as [[[]|e] st2]; simpl in *; by rewrite Hw2, Hw, Hwire.
    + by rewrite Hw, Hwire.
  - intros recipient frame Hin.
    apply list_elem_of_fmap in Hin as (s & [= -> ->] & Hs). split; [done|].
    apply elem_of_open_targets in Hs as (k & Hk & Hreg & Ho).
    exists k, s. split; [apply elem_of_app; by left|].
    unfold registered in *. by rewrite <- Hconns.
Qed.


(** X8. A room-scoped broadcast sends the validated envelope, and nothing
    else, only to sessions that are listed in the target room's membership
    set, registered, and open: no frame reaches a session outside the room,
    also when the broadcast is cut short by a failing storage write. *)
Theorem room_broadcast_stays_in_the_room st raw m room targets :
  BroadcastMessageSchema (Some raw) = Some m →
  room_scoped m room →
  JSMap.get room (roomParticipants (ready st)) = Some targets →
  ∃ frames,
    sent_since st (exec (handleBroadcast (POST raw)) st) frames ∧
    ∀ recipient frame, (recipient, frame) ∈ frames →
      frame = m ∧
      ∃ k s, k ∈ targets ∧ registered st k s ∧ is_open (socket s) = true ∧
             recipient = id s.
Proof. apply room_broadcast_frames. Qed.

Lemma room_broadcast_stays_in_the_room_witness :
  ∃ frames,
    sent_since Sample.three
      (exec (handleBroadcast (POST Sample.chat_envelope)) Sample.three) frames ∧
    ∀ recipient frame, (recipient, frame) ∈ frames →
      frame = Sample.chat_frame ∧
      ∃ k s, k ∈ ["S1"; "S2"; "S3"] ∧ registered Sample.three k s ∧
             is_open (socket s) = true ∧ recipient = id s.
Proof.
  apply (room_broadcast_stays_in_the_room Sample.three Sample.chat_envelope
           Sample.chat_frame "42" ["S1"; "S2"; "S3"]).
  - reflexivity.
  - repeat split; reflexivity.
  - reflexivity.
Defined.

Lemma room_loop_purges frame room targets c st :
  reliable st →
  ∀ k, k ∈ targets → JSMap.get k (activeConnections st) = None →
    ¬ in_room (for_of targets (room_turn frame room) c st).2 room k.
Proof.
  revert c st. induction targets as [|a l IH]; intros c st Hrel k Hk Hnone.
  - by apply elem_of_nil in Hk.
  - destruct (room_turn_reliable frame room a c st Hrel)
      as (st1 & Hstep & Hrel1 & _ & _ & Hother & _).
    cbn [for_of]. unfold bind. rewrite Hstep.
    destruct (decide (k = a)) as [->|Hne].
    + intros Hin.
      apply (room_loop_shrinks frame room l _ st1) in Hin.
      rewrite room_turn_unregistered in Hstep by done. injection Hstep as _ <-.
      unfold in_room in Hin. simpl in Hin. rewrite member_alter_delete in Hin. tauto.
    + apply elem_of_cons in Hk as [?|Hk]; [done|].
      apply IH; [done | done |]. by rewrite Hother.
Qed.

(** X9. After a room-scoped broadcast (storage writes succeeding, state
    consistent) every id still listed in the target room's membership set is
    that of a registered session with an open socket: ids of sessions that
    are gone from the Registry, and of sessions whose socket is not open,
    have been removed. *)
Theorem room_broadcast_heals_the_room st raw m room targets :
  reliable st →
  consistent (ready st) →
  BroadcastMessageSchema (Some raw) = Some m →
  room_scoped m room →
  JSMap.get room (roomParticipants (ready st)) = Some targets →
  ∀ k, in_room (exec (handleBroadcast (POST raw)) st) room k →
    ∃ s, registered (exec (handleBroadcast (POST raw)) st) k s ∧
         is_open (socket s) = true.
Proof.
  intros Hrel Hcons Hm Hscoped Hroom k. unfold exec.
  destruct (ready_frame st) as (Hi & Hconns & _ & Hfaults).
  assert (reliable (ready st)) as Hrel0 by (by apply (reliable_frame st)).
  rewrite handleBroadcast_ready, (handleBroadcast_room raw m room) by done.
  rewrite Hroom.
  destruct (broadcast_room_reliable m room targets 0 (ready st) Hrel0)
    as (st1 & Hloop & Hrel1 & _ & Hgone).
  pose proof (room_loop_purges m room targets 0 (ready st) Hrel0) as Hpurge.
  pose proof (room_loop_shrinks m room targets 0 (ready st)) as [_ Hshrink].
  pose proof (room_loop_live m room targets 0 (ready st)) as Hlive.
  unfold broadcast_room. rewrite Hloop in *. simpl in Hpurge, Hshrink, Hlive.
  destruct (saveState_reliable st1 Hrel1) as [Hn _].
  destruct (saveState_frame st1) as (Hc & Hrp & _).
  destruct (saveState st1) as [r st2]. simpl in *. subst r. simpl.
  unfold in_room, registered. rewrite Hrp, Hc. intros Hin.
  assert (k ∈ targets) as Hk.
  { apply Hshrink in Hin as (sessions & Hs & Hks). rewrite Hroom in Hs. by injection Hs as ->. }
  destruct (JSMap.get k (activeConnections (ready st))) as [s|] eqn:Hreg.
  - destruct (is_open (socket s)) eqn:Ho.
    + exists s. split; [|done].
      specialize (Hlive k). unfold live in Hlive. rewrite Hreg, Ho in Hlive.
      destruct (JSMap.get k (activeConnections st1)) as [s'|]; [|done].
      destruct (is_open (socket s')); [|done]. by injection Hlive as ->.
    + exfalso. assert (stale (ready st) k = true) as Hstale
        by (unfold stale; by rewrite Hreg, Ho).
      destruct (Hgone k Hk Hstale) as [_ Hout].
      apply (Hout s room Hreg); [|done].
      apply (Hcons k s Hreg room). by exists targets.
  - exfalso. by apply (Hpurge k Hk Hreg).
Qed.

Lemma room_broadcast_heals_the_room_witness :
  JSMap.get "42" (roomParticipants
     (exec (handleBroadcast (POST Sample.chat_envelope)) Sample.three))
    = Some ["S1"; "S3"] ∧
  ∀ k, in_room (exec (handleBroadcast (POST Sample.chat_envelope)) Sample.three) "42" k →
    ∃ s, registered (exec (handleBroadcast (POST Sample.chat_envelope)) Sample.three) k s ∧
         is_open (socket s) = true.
Proof.
  split; [reflexivity|].
  apply (room_broadcast_heals_the_room Sample.three Sample.chat_envelope
           Sample.chat_frame "42" ["S1"; "S2"; "S3"]).
  - constructor.
  - apply consistentb_sound. reflexivity.
  - reflexivity.
  - repeat split; reflexivity.
  - reflexivity.
Defined.

Lemma global_broadcast_reaches_every_open_session_witness :
  outcome (handleBroadcast (Callers.cleared_chat 42)) Sample.three = Normal (OK 2) ∧
  JSMap.keys (activeConnections (exec (handleBroadcast (Callers.cleared_chat 42)) Sample.three))
    = ["S1"; "S3"].
Proof.
  destruct (global_broadcast_reaches_every_open_session Sample.three
              (JObj [("type", JStr WS_EVENTS.NOTIFICATION_CLEARED);
                     ("payload", JObj [("chatIds", JArr [JNum 42])])])
              {| type := WS_EVENTS.NOTIFICATION_CLEARED;
                 payload := PNotificationsCleared {| chatIds := [42%Z] |} |})
    as (Hout & _ & _).
  - constructor.
  - apply well_formedb_sound. reflexivity.
  - reflexivity.
  - reflexivity.
  - split; [exact Hout | reflexivity].
Defined.

(** ** Answers of the broadcast endpoint *)

Lemma global_loop_registry_kept frame l c st :
  registry_kept st (for_of l (global_turn frame) c st).2.
Proof.
  apply (for_of_preserves (registry_kept st)); [|by intros k s].
  intros key acc st' Hkept k s Hreg. apply Hkept. revert Hreg.
  unfold registered, global_turn, bind at 1, read. simpl.
  destruct (JSMap.get key (activeConnections st')) as [session|] eqn:Hg; [|done].
  destruct (is_open (socket session)).
  - unfold bind. simpl. done.
  - unfold bind.
    destruct (JSMap.get (id session) (activeConnections st')) as [s'|] eqn:Hg'.
    + rewrite (handleSessionClose_registered (id session) s') by done.
      destruct (saveState_frame (evict (id session) s' st')) as (Hc & _).
      destruct (saveState _) as [[[]|e] st1]; simpl in *; rewrite Hc;
        (destruct (decide (id session = k)) as [->|Hne];
         [by rewrite get_delete_eq | by rewrite get_delete_ne]).
    + by rewrite handleSessionClose_unregistered.
Qed.

Lemma handleBroadcast_cases request st :
  ∃ r st',
    handleBroadcast request st = (Normal r, st') ∧
    (status r = 200 ∨ status r = 500 ∨
     ((status r = 400 ∨ status r = 404 ∨ status r = 405) ∧ st' = ready st)) ∧
    registry_kept st st'.
Proof.
  rewrite handleBroadcast_ready.
  destruct (ready_frame st) as (Hi & Hconns & _).
  assert (∀ st', registry_kept (ready st) st' → registry_kept st st') as Hback.
  { intros st' Hk k s Hreg. apply Hk in Hreg. unfold registered in *. by rewrite <- Hconns. }
  assert (registry_kept st (ready st)) as Hsame by (apply Hback; by intros k s).
  unfold handleBroadcast, bind at 1. rewrite initialize_initialized by done. simpl.
  destruct (negb _).
  { eexists _, _. split; [done|]. split; [tauto | done]. }
  unfold try_catch, bind at 1.
  destruct (body request) as [raw|]; simpl.
  2: { eexists _, _. split; [done|]. split; [tauto | done]. }
  unfold bind at 1.
  destruct (BroadcastMessageSchema (Some raw)) as [m|]; simpl.
  2: { eexists _, _. split; [done|]. split; [tauto | done]. }
  destruct (is_global (type m)).
  - unfold bind at 1. rewrite broadcast_all_loop.
    pose proof (global_loop_registry_kept m (JSMap.keys (activeConnections (ready st)))
                  0 (ready st)) as Hkept.
    destruct (for_of _ _ 0 (ready st)) as [[n|e] st1]; simpl in *;
      (eexists _, _; split; [done|]; split; [tauto | by apply Hback]).
  - destruct (negb (truthy _)).
    { eexists _, _. split; [done|]. split; [tauto | done]. }
    unfold bind at 1, read. simpl.
    destruct (JSMap.get _ (roomParticipants (ready st))) as [targets|].
    2: { eexists _, _. split; [done|]. split; [tauto | done]. }
    unfold bind at 1.
    pose proof (room_loop_registry_kept m
                  (String_or_null (payload_roomId (payload m))) targets 0 (ready st))
      as Hkept.
    unfold broadcast_room.
    destruct (for_of _ _ 0 (ready st)) as [[n|e] st1]; simpl in *.
    + unfold bind. destruct (saveState_frame st1) as (Hc & _).
      destruct (saveState st1) as [[[]|e] st2]; simpl in *;
        (eexists _, _; split; [done|]; split; [tauto|]; apply Hback;
         intros k s; unfold registered; rewrite Hc; apply Hkept).
    + eexists _, _. split; [done|]. split; [tauto | by apply Hback].
Qed.

(** X10. Once the stored index has been loaded (so that the call makes no
    storage read), the broadcast endpoint always answers, with status 200,
    400, 404, 405 or 500, and never throws; when it answers 400, 404 or 405
    it has changed nothing at all: no frame sent, no session evicted, no
    snapshot written.  Before the index has been loaded, whenever the
    endpoint answers 400, 404 or 405 the only change is that load. *)
Theorem refused_broadcast_changes_nothing (request : Request) (st : WebSocketConnection) :
  (initialized st = true →
   ∃ r,
     outcome (handleBroadcast request) st = Normal r ∧
     (status r = 200 ∨ status r = 400 ∨ status r = 404 ∨ status r = 405 ∨ status r = 500) ∧
     (status r = 400 ∨ status r = 404 ∨ status r = 405 →
        exec (handleBroadcast request) st = st)) ∧
  (∀ r, outcome (handleBroadcast request) st = Normal r →
     status r = 400 ∨ status r = 404 ∨ status r = 405 →
     exec (handleBroadcast request) st = ready st).
Proof.
  destruct (handleBroadcast_cases request st) as (r & st' & Hrun & Hcases & _).
  unfold outcome, exec. rewrite Hrun. simpl.
  assert (status r = 400 ∨ status r = 404 ∨ status r = 405 → st' = ready st) as Hsame.
  { intros Hrefused. destruct Hcases as [H200 | [H500 | [_ Hsame]]]; [| |done].
    - rewrite H200 in Hrefused. destruct Hrefused as [? | [? | ?]]; done.
    - rewrite H500 in Hrefused. destruct Hrefused as [? | [? | ?]]; done. }
  split.
  - intros Hi. exists r. split; [done|]. split.
    + destruct Hcases as [? | [? | [[? | [? | ?]] _]]]; tauto.
    + intros Hrefused. rewrite (Hsame Hrefused). by apply ready_initialized.
  - intros r' [= <-]. exact Hsame.
Qed.

Lemma refused_broadcast_changes_nothing_witness :
  outcome (handleBroadcast (POST Sample.notification_created_envelope)) Sample.three
    = Normal RoomIdRequired ∧
  exec (handleBroadcast (POST Sample.notification_created_envelope)) Sample.three
    = Sample.three.
Proof.
  split; [reflexivity|].
  destruct (refused_broadcast_changes_nothing
              (POST Sample.notification_created_envelope) Sample.three)
    as [Hloaded _].
  destruct (Hloaded eq_refl) as (r & Hout & _ & Hsame).
  apply Hsame. injection Hout as <-. left. reflexivity.
Defined.

(** X11. The envelopes that handleDeleteNotifications and handleAwardPoints
    post (payloads {notificationIds: [...]} and {messageId, points, type,
    awardedBy, awardedAt}) match none of the payload shapes: whatever the
    ids and values, the endpoint answers 500 and no session receives a
    frame. *)
Theorem handlers_envelopes_rejected (st : WebSocketConnection)
    (notificationIds : list Z) (messageId points : Z) (type awardedBy awardedAt : string) :
  (outcome (handleBroadcast (Callers.deleted_notifications notificationIds)) st
     = Normal InternalServerError ∧
   wire (exec (handleBroadcast (Callers.deleted_notifications notificationIds)) st)
     = wire st) ∧
  (outcome (handleBroadcast
              (Callers.points_awarded messageId points type awardedBy awardedAt)) st
     = Normal InternalServerError ∧
   wire (exec (handleBroadcast
                 (Callers.points_awarded messageId points type awardedBy awardedAt)) st)
     = wire st).
Proof.
  destruct (initialize_frame st) as (_ & _ & Hw & _).
  unfold outcome, exec, Callers.deleted_notifications, Callers.points_awarded.
  rewrite !handleBroadcast_invalid by done. done.
Qed.

(** ** More on the sweep *)

Lemma sweep_loop_quiet l st :
  (∀ k, stale st k = false) → for_of l sweep_turn () st = (Normal (), st).
Proof.
  intros Hquiet. induction l as [|a l IH]; [done|].
  cbn [for_of]. unfold bind. by rewrite sweep_turn_keep.
Qed.

Lemma sweep_turn_shrinks k st : shrinks st (sweep_turn k () st).2.
Proof.
  destruct (stale st k) eqn:Hs.
  - unfold stale in Hs. destruct (JSMap.get k (activeConnections st)) as [s|] eqn:Hg; [|done].
    apply negb_true_iff in Hs. rewrite (sweep_turn_evict k s) by done.
    eapply shrinks_trans; [apply evict_shrinks | apply shrinks_saveState].
  - rewrite sweep_turn_keep by done. apply shrinks_refl.
Qed.

Lemma sweep_turn_invariant k st : invariant st → invariant (sweep_turn k () st).2.
Proof.
  intros Hinv. destruct (stale st k) eqn:Hs.
  - unfold stale in Hs. destruct (JSMap.get k (activeConnections st)) as [s|] eqn:Hg; [|done].
    apply negb_true_iff in Hs. rewrite (sweep_turn_evict k s) by done.
    by apply invariant_saveState, invariant_evict.
  - by rewrite sweep_turn_keep.
Qed.

Lemma sweep_loop_clean l st :
  reliable st → invariant st →
  ∃ st', for_of l sweep_turn () st = (Normal (), st') ∧
    invariant st' ∧
    ∀ k, k ∈ l → stale st k = true → ∀ room, ¬ in_room st' room k.
Proof.
  revert st. induction l as [|a l IH]; intros st Hrel Hinv.
  - exists st. split; [done|]. split; [done|]. intros k Hk. by apply elem_of_nil in Hk.
  - destruct (sweep_reliable [a] st Hrel) as (st1 & Hturn & Hrel1 & Hreg1).
    cbn [for_of] in Hturn. unfold bind in Hturn.
    pose proof (sweep_turn_invariant a st Hinv) as Hinv1.
    pose proof (sweep_turn_shrinks a st) as Hshrink1.
    destruct (sweep_turn a () st) as [[[]|e] st1'] eqn:Hstep; [|done].
    injection Hturn as <-. simpl in Hinv1, Hshrink1.
    destruct (IH st1' Hrel1 Hinv1) as (st' & Hloop & Hinv' & Hclean).
    exists st'. split; [cbn [for_of]; unfold bind; by rewrite Hstep|].
    split; [done|].
    pose proof (for_of_preserves (shrinks st1') sweep_turn l () st1') as Hshrink.
    rewrite Hloop in Hshrink. simpl in Hshrink.
    destruct Hshrink as [_ Hshrink].
    { intros x acc st2 Hs. destruct acc.
      eapply shrinks_trans; [done | apply sweep_turn_shrinks]. }
    { apply shrinks_refl. }
    intros k Hk Hstale room Hin.
    destruct (decide (k = a)) as [->|Hne].
    + apply Hshrink in Hin.
      unfold stale in Hstale.
      destruct (JSMap.get a (activeConnections st)) as [s|] eqn:Hg; [|done].
      apply negb_true_iff in Hstale.
      rewrite (sweep_turn_evict a s) in Hstep by done.
      destruct (saveState_frame (evict a s st)) as (_ & Hrp & _).
      rewrite Hstep in Hrp. simpl in Hrp.
      unfold in_room in Hin. rewrite Hrp in Hin. unfold evict in Hin. simpl in Hin.
      apply member_leave_all in Hin as [Hmem Hnot].
      apply Hnot. split; [done|]. destruct Hinv as [_ Hcons]. by apply (Hcons a s Hg room).
    + apply elem_of_cons in Hk as [?|Hk]; [done|].
      refine (Hclean k Hk _ room Hin).
      unfold stale in *. rewrite Hreg1, bool_decide_eq_false_2; [done|].
      rewrite list_elem_of_singleton. done.
Qed.

(** X12. A sweep whose storage writes succeed evicts exactly the sessions
    whose socket is not open: afterwards the Registry holds the open
    sessions, unchanged, and nothing else; from a consistent state the ids of
    the evicted sessions are in no room any more and the state stays
    consistent; and a second sweep right after finds nothing to do, not even
    a snapshot write. *)
Theorem sweep_evicts_exactly_the_dead st :
  reliable st →
  invariant st →
  outcome cleanupStaleConnections st = Normal () ∧
  (∀ k, JSMap.get k (activeConnections (exec cleanupStaleConnections st)) = live st k) ∧
  (∀ k room, stale st k = true → ¬ in_room (exec cleanupStaleConnections st) room k) ∧
  invariant (exec cleanupStaleConnections st) ∧
  cleanupStaleConnections (exec cleanupStaleConnections st)
    = (Normal (), exec cleanupStaleConnections st).
Proof.
  intros Hrel Hinv.
  destruct (sweep_without_failure st Hrel) as [Hout Hreg].
  split; [done|]. split; [done|].
  unfold outcome, exec, cleanupStaleConnections, bind, read in *. simpl in *.
  destruct (sweep_loop_clean (JSMap.keys (activeConnections st)) st Hrel Hinv)
    as (st' & Hloop & Hinv' & Hclean).
  rewrite Hloop in *. simpl in *.
  split; [|split; [done|]].
  - intros k room Hstale. apply Hclean; [|done].
    unfold stale in Hstale.
    destruct (JSMap.get k (activeConnections st)) as [s|] eqn:Hg; [|done].
    by apply get_Some_keys in Hg.
  - apply sweep_loop_quiet. intros k. unfold stale. rewrite Hreg. unfold live.
    destruct (JSMap.get k (activeConnections st)) as [s|]; [|done].
    destruct (is_open (socket s)) eqn:Ho; [by rewrite Ho | done].
Qed.

Lemma sweep_evicts_exactly_the_dead_witness :
  JSMap.keys (activeConnections (exec cleanupStaleConnections Sample.three)) = ["S1"; "S3"] ∧
  (∀ room, ¬ in_room (exec cleanupStaleConnections Sample.three) room "S2") ∧
  cleanupStaleConnections (exec cleanupStaleConnections Sample.three)
    = (Normal (), exec cleanupStaleConnections Sample.three).
Proof.
  destruct (sweep_evicts_exactly_the_dead Sample.three) as (_ & _ & Hclean & _ & Hagain).
  - constructor.
  - split; [apply well_formedb_sound | apply consistentb_sound]; reflexivity.
  - split; [reflexivity|]. split; [|exact Hagain].
    intros room. apply Hclean. reflexivity.
Defined.

(** ** Restarting over the stored snapshot *)

Lemma of_list_NoDup l : NoDup l → JSSet.of_list l = l.
Proof.
  unfold JSSet.of_list.
  assert (∀ acc, NoDup (acc ++ l) →
            foldl (λ s x, JSSet.add x s) acc l = (acc ++ l)%list) as Hgen.
  { induction l as [|a l IH]; intros acc Hnd; [by rewrite app_nil_r|].
    cbn [foldl].
    assert (a ∉ acc) as Ha.
    { apply NoDup_app in Hnd as (_ & Hdisj & _). intros Hin.
      apply (Hdisj a Hin). apply elem_of_cons. by left. }
    unfold JSSet.add at 2, JSSet.has. rewrite bool_decide_eq_false_2 by done.
    rewrite IH; [by rewrite <- app_assoc | by rewrite <- app_assoc]. }
  intros Hnd. by apply (Hgen []).
Qed.

Lemma get_None_keys {V} k (m : list (string * V)) :
  k ∉ JSMap.keys m → JSMap.get k m = None.
Proof.
  intros Hk. destruct (JSMap.get k m) as [v|] eqn:Hg; [|done].
  by apply get_Some_keys in Hg.
Qed.

Lemma get_loaded stored acc room :
  NoDup (JSMap.keys stored) →
  JSMap.get room
    (foldl (λ rp entry, JSMap.set entry.1 (JSSet.of_list entry.2) rp) acc stored)
  = match JSMap.get room stored with
    | Some sessions => Some (JSSet.of_list sessions)
    | None => JSMap.get room acc
    end.
Proof.
  revert acc. induction stored as [|[k v] stored IH]; intros acc Hnd; [done|].
  unfold JSMap.keys in Hnd. cbn [fmap list_fmap fst] in Hnd.
  apply NoDup_cons in Hnd as [Hk Hnd].
  cbn [foldl]. rewrite IH by done. cbn [JSMap.get fst snd].
  destruct (decide (room = k)) as [->|Hne].
  - rewrite (get_None_keys k stored) by done. apply get_set_eq.
  - destruct (JSMap.get room stored); [done|]. by apply get_set_ne.
Qed.

Lemma get_assigned {V} (index acc : list (string * V)) room :
  NoDup (JSMap.keys index) →
  JSMap.get room (foldl (λ obj entry, assign obj entry.1 entry.2) acc index)
  = if bool_decide (room = "__proto__") then JSMap.get room acc
    else match JSMap.get room index with
         | Some v => Some v
         | None => JSMap.get room acc
         end.
Proof.
  revert acc. induction index as [|[k v] index IH]; intros acc Hnd.
  { cbn [foldl JSMap.get]. by case_bool_decide. }
  unfold JSMap.keys in Hnd. cbn [fmap list_fmap fst] in Hnd.
  apply NoDup_cons in Hnd as [Hk Hnd].
  cbn [foldl]. rewrite IH by done. cbn [JSMap.get fst snd]. unfold assign.
  case_bool_decide as Hroom.
  - case_bool_decide as Hkey; [done|]. apply get_set_ne. by rewrite Hroom.
  - destruct (decide (room = k)) as [->|Hne].
    + rewrite (get_None_keys k index) by done.
      rewrite bool_decide_eq_false_2 by done. apply get_set_eq.
    + destruct (JSMap.get room index); [done|].
      case_bool_decide; [done | by apply get_set_ne].
Qed.

Lemma keys_set {V} k (v : V) (m : list (string * V)) :
  JSMap.keys (JSMap.set k v m)
  = if bool_decide (k ∈ JSMap.keys m) then JSMap.keys m else (JSMap.keys m ++ [k])%list.
Proof.
  unfold JSMap.keys. induction m as [|[k' v'] m IH].
  { cbn. rewrite bool_decide_eq_false_2; [done | apply not_elem_of_nil]. }
  cbn [JSMap.set]. destruct (decide (k = k')) as [->|Hne].
  - cbn [fmap list_fmap fst]. rewrite bool_decide_eq_true_2; [done|].
    apply elem_of_cons. by left.
  - cbn [fmap list_fmap fst] in *. rewrite IH. case_bool_decide as Hin.
    + rewrite bool_decide_eq_true_2; [done|]. apply elem_of_cons. by right.
    + rewrite bool_decide_eq_false_2; [done|].
      rewrite elem_of_cons. tauto.
Qed.

Lemma NoDup_keys_assigned {V} (index acc : list (string * V)) :
  NoDup (JSMap.keys acc) →
  NoDup (JSMap.keys (foldl (λ obj entry, assign obj entry.1 entry.2) acc index)).
Proof.
  revert acc. induction index as [|[k v] index IH]; intros acc Hnd; [done|].
  cbn [foldl]. apply IH. unfold assign. cbn [fst snd].
  case_bool_decide; [done|]. rewrite keys_set. case_bool_decide as Hin; [done|].
  apply NoDup_app. split; [done|]. split; [|apply NoDup_singleton].
  intros x Hx Hx'. apply list_elem_of_singleton in Hx'. by subst.
Qed.

(** X13. The snapshot round trip: after a successful saveState, a fresh
    instance of the coordinator over the same storage finds, once
    initialized, the same membership set under every room id except
    "__proto__".  saveState copies the index into a plain object, where the
    assignment to the key "__proto__" creates no property: a room of that
    name is not stored, and is gone after the restart.  The Registry of the
    fresh instance is empty, so none of the ids is a registered session. *)
Theorem snapshot_round_trip st :
  outcome saveState st = Normal () →
  NoDup (JSMap.keys (roomParticipants st)) →
  (∀ room sessions, JSMap.get room (roomParticipants st) = Some sessions → NoDup sessions) →
  (∀ room, JSMap.get room (roomParticipants (ready (restart (exec saveState st))))
           = if bool_decide (room = "__proto__") then None
             else JSMap.get room (roomParticipants st)) ∧
  activeConnections (ready (restart (exec saveState st))) = [].
Proof.
  intros Hsaved Hkeys Hsets.
  set (stored := foldl (λ obj entry, assign obj entry.1 entry.2) []
                   (roomParticipants st)).
  assert (storedRooms (exec saveState st) = Some stored) as Hstored.
  { unfold outcome, exec, saveState in *. by destruct (putFaults st) as [|[] ?]. }
  split; [|done]. intros room.
  unfold ready, exec, initialize, restart at 1. cbn [initialized].
  cbn [snd roomParticipants with_initialized with_roomParticipants storedRooms].
  change (storedRooms (restart (saveState st).2)) with (storedRooms (exec saveState st)).
  rewrite Hstored.
  change (default [] (Some stored)) with stored.
  rewrite get_loaded by (apply NoDup_keys_assigned; constructor).
  unfold stored. rewrite get_assigned by done.
  case_bool_decide as Hroom; [done|].
  destruct (JSMap.get room (roomParticipants st)) as [sessions|] eqn:Hget; [|done].
  f_equal. apply of_list_NoDup. by apply (Hsets room).
Qed.

Lemma snapshot_round_trip_witness :
  roomParticipants (ready (restart (exec saveState Sample.proto)))
    = [("42", ["S1"])] ∧
  ∀ room, JSMap.get room (roomParticipants (ready (restart (exec saveState Sample.proto))))
          = if bool_decide (room = "__proto__") then None
            else JSMap.get room (roomParticipants Sample.proto).
Proof.
  split; [reflexivity|].
  apply (snapshot_round_trip Sample.proto).
  - reflexivity.
  - apply (bool_decide_unpack _). reflexivity.
  - intros room sessions. simpl. repeat case_decide; try done.
    all: intros [= <-]; apply (bool_decide_unpack _); reflexivity.
Defined.

(** ** Accepting connections *)

Section ConnectFacts.
Context `{Runtime}.

Lemma handleSession_rejects secret sid token e st :
  decode (Some token) secret = Throw e →
  handleSession secret sid token st = (Throw e, ready st).
Proof.
  intros Hd. unfold handleSession, bind at 1.
  destruct (initialize_frame st) as (Hn & _). unfold ready, exec.
  destruct (initialize st) as [res st0]. cbn [fst] in Hn. subst res. cbn [snd].
  unfold try_catch, bind at 1, lift. by rewrite Hd.
Qed.

Lemma handleSession_accepts secret sid token p st :
  decode (Some token) secret = Normal p →
  handleSession secret sid token st
  = (Normal sid,
     with_activeConnections
       (JSMap.set sid (new_session sid p) (activeConnections (ready st))) (ready st)).
Proof.
  intros Hd. unfold handleSession, bind at 1.
  destruct (initialize_frame st) as (Hn & _). unfold ready, exec.
  destruct (initialize st) as [res st0]. cbn [fst] in Hn. subst res. cbn [snd].
  unfold try_catch, bind at 1, lift. by rewrite Hd.
Qed.
End ConnectFacts.

Lemma length_set {V} k (v : V) (m : list (string * V)) :
  JSMap.get k m = None → length (JSMap.set k v m) = S (length m).
Proof.
  induction m as [|[k' v'] m IH]; simpl; [done|].
  destruct (decide (k = k')); [done|]. intros Hg. simpl. by rewrite IH.
Qed.

(** X14. A connection whose token decode refuses registers nothing:
    handleSession throws the verifier's error (the socket is closed with
    1008), and the Registry, the frames sent and the membership index are
    those of the coordinator before the attempt (the stored index, if it was
    still to be loaded, has been loaded). *)
Theorem rejected_connection_registers_nothing `{Runtime} secret sid token e st :
  decode (Some token) secret = Throw e →
  outcome (handleSession secret sid token) st = Throw e ∧
  exec (handleSession secret sid token) st = ready st ∧
  activeConnections (exec (handleSession secret sid token) st) = activeConnections st.
Proof.
  intros Hd. unfold outcome, exec. rewrite (handleSession_rejects _ _ _ e) by done.
  destruct (ready_frame st) as (_ & Hc & _). done.
Qed.

Lemma rejected_connection_registers_nothing_witness :
  outcome (@handleSession (Demo.runtime 1700003601000) "secret" "new-id" "SA.UA.Uw")
    Sample.three = Throw "JWT verification failed: Token has expired" ∧
  exec (@handleSession (Demo.runtime 1700003601000) "secret" "new-id" "SA.UA.Uw")
    Sample.three = Sample.three.
Proof.
  destruct (@rejected_connection_registers_nothing (Demo.runtime 1700003601000)
              "secret" "new-id" "SA.UA.Uw"
              "JWT verification failed: Token has expired" Sample.three)
    as (Hout & Hsame & _).
  - reflexivity.
  - split; [exact Hout | exact Hsame].
Defined.

(** X15. A connection whose token decode accepts registers exactly one
    session, under the generated id: it carries the token's subject as user
    id, the token's name (null when empty or absent), an open socket and no
    room; every other session is left as it was; the Registry grows by one
    when the id is new; and when the id is listed in no room, a consistent
    state stays consistent. *)
Theorem accepted_connection_registers_one_session `{Runtime} secret sid token p st :
  decode (Some token) secret = Normal p →
  outcome (handleSession secret sid token) st = Normal sid ∧
  registered (exec (handleSession secret sid token) st) sid (new_session sid p) ∧
  (∀ k, k ≠ sid →
     JSMap.get k (activeConnections (exec (handleSession secret sid token) st))
     = JSMap.get k (activeConnections st)) ∧
  (JSMap.get sid (activeConnections st) = None →
     length (activeConnections (exec (handleSession secret sid token) st))
     = S (length (activeConnections st))) ∧
  (invariant st → (∀ room, ¬ in_room (ready st) room sid) →
     invariant (exec (handleSession secret sid token) st)).
Proof.
  intros Hd. unfold outcome, exec, registered.
  rewrite (handleSession_accepts _ _ _ p) by done.
  destruct (ready_frame st) as (Hi & Hc & _). simpl. rewrite Hc.
  split; [done|]. split; [apply get_set_eq|].
  split; [intros k Hk; by apply get_set_ne|].
  split; [apply length_set|].
  intros Hinv Hfresh. apply invariant_initialize in Hinv.
  change ((initialize st).2) with (ready st) in Hinv.
  destruct Hinv as [[_ Hids] Hcons].
  assert (∀ k s,
            JSMap.get k (JSMap.set sid (new_session sid p) (activeConnections st)) = Some s →
            (k = sid ∧ s = new_session sid p) ∨ (k ≠ sid ∧ registered (ready st) k s))
    as Hback.
  { intros k s. unfold registered. rewrite Hc. destruct (decide (sid = k)) as [<-|Hne].
    - rewrite get_set_eq. intros [= <-]. by left.
    - rewrite get_set_ne by done. right. split; [congruence | done]. }
  split; [split|].
  - simpl. congruence.
  - intros k s Hreg. apply Hback in Hreg as [[-> ->] | [_ Hreg]]; [done | by apply Hids].
  - intros k s Hreg room. apply Hback in Hreg as [[-> ->] | [_ Hreg]].
    + simpl. split; [intros Hin; by apply Hfresh in Hin | intros Hin; by apply elem_of_nil in Hin].
    + apply (Hcons k s Hreg room).
Qed.

Lemma accepted_connection_registers_one_session_witness :
  JSMap.keys (activeConnections
    (exec (@handleSession (Demo.runtime 1700000000000) "secret" "new-id" "SA.UA.Uw")
       Sample.three)) = ["S1"; "S2"; "S3"; "new-id"] ∧
  invariant (exec (@handleSession (Demo.runtime 1700000000000) "secret" "new-id" "SA.UA.Uw")
               Sample.three).
Proof.
  destruct (@accepted_connection_registers_one_session (Demo.runtime 1700000000000)
              "secret" "new-id" "SA.UA.Uw" Demo.payload Sample.three)
    as (_ & _ & _ & _ & Hinv).
  - reflexivity.
  - split; [reflexivity|]. apply Hinv.
    + split; [apply well_formedb_sound | apply consistentb_sound]; reflexivity.
    + intros room Hin. apply in_roomb_true in Hin. revert Hin.
      unfold in_roomb. simpl. case_decide; [|done]. by vm_compute.
Defined.

(** X16. fetch adds a session to the Registry only for an upgrade request
    whose token parameter decode accepts, and then exactly the session built
    from that token under the generated id: no broadcast request, no request
    without a token, no refused token and no other path ever registers a
    session. *)
Theorem only_an_authenticated_upgrade_registers `{Runtime} secret sid
    (req : FetchRequest) (st : WebSocketConnection) k s :
  registered (exec (fetch secret sid req) st) k s →
  registered st k s ∨
  ∃ token p,
    Upgrade req = Some "websocket" ∧ token_param req = Some token ∧
    decode (Some token) secret = Normal p ∧
    k = sid ∧ s = new_session sid p.
Proof.
  unfold exec, fetch. case_bool_decide as Hup.
  - destruct (token_param req) as [token|] eqn:Htoken; [|by left].
    destruct token as [|c token]; [by left|].
    unfold bind at 1.
    destruct (decode (Some (String c token)) secret) as [p|e] eqn:Hd.
    + rewrite (handleSession_accepts _ _ _ p) by done. simpl.
      destruct (ready_frame st) as (_ & Hc & _). unfold registered. simpl. rewrite Hc.
      destruct (decide (sid = k)) as [<-|Hne].
      * rewrite get_set_eq. intros [= <-]. right. by exists (String c token), p.
      * rewrite get_set_ne by done. by left.
    + rewrite (handleSession_rejects _ _ _ e) by done. simpl.
      destruct (ready_frame st) as (_ & Hc & _). unfold registered. rewrite Hc. by left.
  - destruct (includes "/broadcast" (url req)); [|by left].
    unfold bind.
    destruct (handleBroadcast_cases (request req) st) as (r & st' & -> & _ & Hkept).
    simpl. intros Hreg. left. by apply Hkept.
Qed.

Lemma only_an_authenticated_upgrade_registers_witness :
  registered
    (exec (@fetch (Demo.runtime 1700000000000) "secret" "new-id"
             {| Upgrade := Some "websocket"; url := "https://chat/ws?token=SA.UA.Uw";
                token_param := Some "SA.UA.Uw"; request := POST JNull |})
       Sample.three)
    "new-id" (new_session "new-id" Demo.payload) ∧
  (registered Sample.three "new-id" (new_session "new-id" Demo.payload) ∨
   ∃ token p,
     Some "websocket" = Some "websocket" ∧ Some "SA.UA.Uw" = Some token ∧
     @decode (Demo.runtime 1700000000000) (Some token) "secret" = Normal p ∧
     "new-id" = "new-id" ∧ new_session "new-id" Demo.payload = new_session "new-id" p).
Proof.
  split; [reflexivity|].
  apply (@only_an_authenticated_upgrade_registers (Demo.runtime 1700000000000)
           "secret" "new-id"
           {| Upgrade := Some "websocket"; url := "https://chat/ws?token=SA.UA.Uw";
              token_param := Some "SA.UA.Uw"; request := POST JNull |}
           Sample.three "new-id" (new_session "new-id" Demo.payload)).
  reflexivity.
Defined.

(** ** Sequences of operations *)



Lemma sent_since_unique st st' frames frames' :
  sent_since st st' frames → sent_since st st' frames' → frames = frames'.
Proof. unfold sent_since. intros -> Heq. by apply app_inv_head in Heq. Qed.

(** X18. After a session has left a room, a room-scoped broadcast to that
    room sends it nothing (from a consistent state; whether or not storage
    writes fail). *)
Theorem no_frame_after_leave st k s (r : StrOrNum) raw m frames :
  invariant st →
  registered st k s →
  BroadcastMessageSchema (Some raw) = Some m →
  room_scoped m (String_ r) →
  sent_since (exec (handleMessage k (RoomLeave r)) st)
    (exec (handleBroadcast (POST raw)) (exec (handleMessage k (RoomLeave r)) st))
    frames →
  ∀ frame, (k, frame) ∉ frames.
Proof.
  intros Hinv Hreg Hm Hscoped Hsent frame Hin.
  pose proof (invariant_handleMessage k (RoomLeave r) st Hinv) as Hinv1.
  unfold exec at 1 3 in Hsent. unfold exec in Hsent.
  rewrite (handleMessage_leave k s r st Hreg) in *.
  destruct (saveState_frame (left k s r st)) as (Hc1 & Hrp1 & Hi1 & _).
  set (st1 := (saveState (left k s r st)).2) in *.
  assert (initialized st1 = true) as Hinit1.
  { rewrite Hi1. simpl. by apply (registered_initialized st k s); [apply Hinv|]. }
  assert (¬ in_room st1 (String_ r) k) as Hout.
  { unfold in_room. rewrite Hrp1, left_rooms, member_alter_delete.
    destruct Hinv as [[_ Hids] _]. rewrite (Hids k s Hreg). tauto. }
  destruct (JSMap.get (String_ r) (roomParticipants st1)) as [targets|] eqn:Hroom.
  - destruct (room_broadcast_frames st1 raw m (String_ r) targets Hm Hscoped)
      as (frames' & Hsent' & Honly).
    { by rewrite ready_initialized. }
    unfold exec in Hsent'.
    rewrite (sent_since_unique _ _ _ _ Hsent Hsent') in Hin.
    destruct (Honly k frame Hin) as (_ & k' & s' & Hk' & Hreg' & _ & Hid).
    destruct Hinv1 as [[_ Hids1] _]. rewrite (Hids1 k' s' Hreg') in Hid. subst k'.
    apply Hout. by exists targets.
  - rewrite (handleBroadcast_room raw m (String_ r) st1) in Hsent by done.
    rewrite Hroom in Hsent. simpl in Hsent.
    assert (frames = []) as -> by (apply (sent_since_unique st1 st1); [done | by unfold sent_since; rewrite app_nil_r]).
    by apply elem_of_nil in Hin.
Qed.

Lemma no_frame_after_leave_witness :
  sent_since (exec (handleMessage "S1" (RoomLeave (Str "42"))) Sample.three)
    (exec (handleBroadcast (POST Sample.chat_envelope))
       (exec (handleMessage "S1" (RoomLeave (Str "42"))) Sample.three))
    [("S3", Sample.chat_frame)] ∧
  ∀ frame, ("S1", frame) ∉ [("S3", Sample.chat_frame)].
Proof.
  split; [reflexivity|].
  apply (no_frame_after_leave Sample.three "S1" (Sample.session "S1" OPEN ["42"])
           (Str "42") Sample.chat_envelope Sample.chat_frame).
  - split; [apply well_formedb_sound | apply consistentb_sound]; reflexivity.
  - reflexivity.
  - reflexivity.
  - repeat split; reflexivity.
  - reflexivity.
Defined.

(** ** Who can receive a frame *)

Lemma only_to_open_refl st : only_to_open st st.
Proof.
  split; [by intros k s|]. exists []. split; [unfold sent_since; by rewrite app_nil_r|].
  intros recipient frame Hin. by apply elem_of_nil in Hin.
Qed.

Lemma only_to_open_trans st1 st2 st3 :
  only_to_open st1 st2 → only_to_open st2 st3 → only_to_open st1 st3.
Proof.
  intros [Hk1 (f1 & Hs1 & Ho1)] [Hk2 (f2 & Hs2 & Ho2)]. split.
  - intros k s Hreg. by apply Hk1, Hk2.
  - exists (f1 ++ f2)%list. split.
    + unfold sent_since in *. by rewrite Hs2, Hs1, app_assoc.
    + intros recipient frame Hin. apply elem_of_app in Hin as [Hin|Hin].
      * by apply (Ho1 recipient frame).
      * destruct (Ho2 recipient frame Hin) as (k & s & Hreg & Ho & Hid).
        exists k, s. split; [by apply Hk1 | done].
Qed.

Lemma only_to_open_quiet st st' :
  registry_kept st st' → wire st' = wire st → only_to_open st st'.
Proof.
  intros Hkept Hw. split; [done|]. exists [].
  split; [unfold sent_since; by rewrite Hw, app_nil_r|].
  intros recipient frame Hin. by apply elem_of_nil in Hin.
Qed.

Lemma only_to_open_close k st : only_to_open st (handleSessionClose k st).2.
Proof.
  destruct (JSMap.get k (activeConnections st)) as [s|] eqn:Hg.
  - rewrite (handleSessionClose_registered k s) by done.
    destruct (saveState_frame (evict k s st)) as (Hc & _ & _ & Hw).
    apply only_to_open_quiet; [|by rewrite Hw].
    intros k' s'. unfold registered. rewrite Hc. unfold evict. simpl.
    destruct (decide (k = k')) as [->|Hne];
      [by rewrite get_delete_eq | by rewrite get_delete_ne].
  - rewrite handleSessionClose_unregistered by done. apply only_to_open_refl.
Qed.

Lemma only_to_open_send k s frame st :
  registered st k s → is_open (socket s) = true →
  only_to_open st (with_wire (wire st ++ [(id s, frame)]) st).
Proof.
  intros Hreg Ho. split; [by intros k' s'|]. exists [(id s, frame)].
  split; [done|]. intros recipient f Hin.
  apply list_elem_of_singleton in Hin as [= -> ->]. by exists k, s.
Qed.

Lemma only_to_open_global_turn frame key c st :
  only_to_open st (global_turn frame key c st).2.
Proof.
  unfold global_turn, bind at 1, read. simpl.
  destruct (JSMap.get key (activeConnections st)) as [session|] eqn:Hg;
    [|apply only_to_open_refl].
  destruct (is_open (socket session)) eqn:Ho.
  - unfold bind. simpl. by apply (only_to_open_send key).
  - unfold bind. pose proof (only_to_open_close (id session) st) as Hclose.
    by destruct (handleSessionClose (id session) st) as [[[]|e] st1].
Qed.

Lemma only_to_open_room_turn frame room sid c st :
  only_to_open st (room_turn frame room sid c st).2.
Proof.
  destruct (room_turn_facts frame room sid c st) as (_ & Hw & Hkept).
  split; [done|]. eexists. split; [exact Hw|].
  intros recipient f Hin. apply list_elem_of_fmap in Hin as (s & [= -> ->] & Hs).
  apply elem_of_open_targets in Hs as (k & _ & Hreg & Ho). by exists k, s.
Qed.

Lemma only_to_open_loop {A S} (body : A → S → Eff S) l acc st :
  (∀ x acc st, only_to_open st (body x acc st).2) →
  only_to_open st (for_of l body acc st).2.
Proof.
  intros Hbody. apply (for_of_preserves (only_to_open st)); [|apply only_to_open_refl].
  intros x acc' st' Hsofar. eapply only_to_open_trans; [done | apply Hbody].
Qed.

Lemma only_to_open_handleBroadcast request st :
  only_to_open st (handleBroadcast request st).2.
Proof.
  rewrite handleBroadcast_ready.
  destruct (ready_frame st) as (Hi & Hconns & Hwire & _).
  assert (only_to_open st (ready st)) as Hready.
  { apply only_to_open_quiet; [|done]. intros k s. unfold registered. by rewrite Hconns. }
  eapply only_to_open_trans; [exact Hready|].
  unfold handleBroadcast, bind at 1. rewrite initialize_initialized by done. simpl.
  destruct (negb _); [apply only_to_open_refl|].
  unfold try_catch, bind at 1.
  destruct (body request) as [raw|]; simpl; [|apply only_to_open_refl].
  unfold bind at 1.
  destruct (BroadcastMessageSchema (Some raw)) as [m|]; simpl; [|apply only_to_open_refl].
  destruct (is_global (type m)).
  - unfold bind at 1. rewrite broadcast_all_loop.
    pose proof (only_to_open_loop (global_turn m)
                  (JSMap.keys (activeConnections (ready st))) 0 (ready st)
                  (only_to_open_global_turn m)) as Hloop.
    by destruct (for_of _ _ 0 (ready st)) as [[n|e] st1].
  - destruct (negb (truthy _)); [apply only_to_open_refl|].
    unfold bind at 1, read. simpl.
    destruct (JSMap.get _ (roomParticipants (ready st))) as [targets|];
      [|apply only_to_open_refl].
    unfold bind at 1, broadcast_room.
    pose proof (only_to_open_loop
                  (room_turn m (String_or_null (payload_roomId (payload m))))
                  targets 0 (ready st)
                  (only_to_open_room_turn m _)) as Hloop.
    destruct (for_of _ _ 0 (ready st)) as [[n|e] st1]; simpl in *; [|done].
    unfold bind. destruct (saveState_frame st1) as (Hc & _ & _ & Hw).
    assert (only_to_open st1 (saveState st1).2) as Hsave.
    { apply only_to_open_quiet; [|done]. intros k s. unfold registered. by rewrite Hc. }
    destruct (saveState st1) as [[[]|e] st2]; simpl in *;
      by eapply only_to_open_trans.
Qed.

(** X19. Whatever the request, the broadcast endpoint adds no session to the
    Registry and sends frames only to sessions that were registered with an
    open socket when the request arrived: a session that has been
    disconnected, or whose socket is not open, never receives a frame. *)
Theorem broadcast_reaches_only_open_registered_sessions
    (request : Request) (st : WebSocketConnection) :
  (∀ k s, registered (exec (handleBroadcast request) st) k s → registered st k s) ∧
  ∃ frames,
    sent_since st (exec (handleBroadcast request) st) frames ∧
    ∀ recipient frame, (recipient, frame) ∈ frames →
      ∃ k s, registered st k s ∧ is_open (socket s) = true ∧ recipient = id s.
Proof. apply only_to_open_handleBroadcast. Qed.
